(** * Cruxz NFT service: a shallow embedding and its verified properties

    The development follows the layout of the repository:

    - [Js]         the parts of the JavaScript runtime the service calls
                   (strings of UTF-16 code units, [trim], [startsWith],
                   numbers as doubles, the values of JSON with their
                   conversions to boolean and to string,
                   [JSON.stringify] / [JSON.parse], [Buffer] UTF-8 and base64);
    - [JsSpec]     the vocabulary of the round-trip properties of [Js];
    - [Sdk]        the thirdweb calls, as oracles with a call trace, and the
                   monad the service runs in;
    - [NftService] [services/nftService.js]: [getContractInfo], [mintTextNFT],
                   [mintTextNFTWithPrivateKey], [getWalletNFTs];
    - [Server]     the two Express servers ([src/index.js] and the variant
                   guarded by [validateApiKey]);
    - [Props]      the vocabulary of the properties of the service, and a
                   world to run examples in;
    - [Scenarios]  variations of that world, for the further properties.

    Definitions come first, theorems after them. *)

From Stdlib Require Import List NArith ZArith Lia Bool String Ascii.
From Stdlib Require Import ZifyBool ZifyN.
Import ListNotations.

Ltac Zify.zify_post_hook ::= Z.to_euclidean_division_equations.

(* ===================================================================== *)
(** * The JavaScript runtime *)
(* ===================================================================== *)

Module Js.

Local Open Scope N_scope.

(** A JavaScript string is a sequence of UTF-16 code units; [length] counts
    code units.  A code unit is a number below 65536 ([units_ok]). *)
Definition jsstring := list N.

Definition units_ok (s : jsstring) : Prop := Forall (fun c => c < 65536) s.

(** String literals of the source, written as Rocq strings. *)
Definition lit (s : string) : jsstring :=
  map N_of_ascii (list_ascii_of_string s).

Definition str_eqb (a b : jsstring) : bool :=
  if list_eq_dec N.eq_dec a b then true else false.

(** ** String.prototype methods used by the service *)

(** WhiteSpace and LineTerminator code points of ECMAScript, the ones
    [trim] removes. *)
Definition is_trim_space (c : N) : bool :=
  (c =? 0x09) || (c =? 0x0A) || (c =? 0x0B) || (c =? 0x0C) || (c =? 0x0D)
  || (c =? 0x20) || (c =? 0xA0) || (c =? 0x1680)
  || ((0x2000 <=? c) && (c <=? 0x200A))
  || (c =? 0x2028) || (c =? 0x2029) || (c =? 0x202F) || (c =? 0x205F)
  || (c =? 0x3000) || (c =? 0xFEFF).

Fixpoint trimStart (s : jsstring) : jsstring :=
  match s with
  | c :: r => if is_trim_space c then trimStart r else s
  | [] => []
  end.

Definition trimEnd (s : jsstring) : jsstring := rev (trimStart (rev s)).

Definition trim (s : jsstring) : jsstring := trimEnd (trimStart s).

(** [s.startsWith(p)] *)
Fixpoint startsWith (p s : jsstring) : bool :=
  match p, s with
  | [], _ => true
  | a :: p', b :: s' => (a =? b) && startsWith p' s'
  | _ :: _, [] => false
  end.

(** [s.substring(start)] and [s.substring(0, stop)] for indices that are
    not negative; an index past the end is clamped, as [skipn] and
    [firstn] do. *)
Definition substring_from (start : nat) (s : jsstring) : jsstring := skipn start s.
Definition substring_to (stop : nat) (s : jsstring) : jsstring := firstn stop s.

(** [s.replace(pat, "")] with a string pattern: the first occurrence of
    [pat] is removed, the rest is kept. *)
Fixpoint remove_first (pat s : jsstring) : jsstring :=
  if startsWith pat s then skipn (List.length pat) s
  else match s with
       | [] => []
       | c :: r => c :: remove_first pat r
       end.

(** Decimal rendering of a non-negative integer ([String(n)], and [n] in
    a template literal). *)
Fixpoint uint_units (d : Decimal.uint) : jsstring :=
  match d with
  | Decimal.Nil => []
  | Decimal.D0 d => 48 :: uint_units d
  | Decimal.D1 d => 49 :: uint_units d
  | Decimal.D2 d => 50 :: uint_units d
  | Decimal.D3 d => 51 :: uint_units d
  | Decimal.D4 d => 52 :: uint_units d
  | Decimal.D5 d => 53 :: uint_units d
  | Decimal.D6 d => 54 :: uint_units d
  | Decimal.D7 d => 55 :: uint_units d
  | Decimal.D8 d => 56 :: uint_units d
  | Decimal.D9 d => 57 :: uint_units d
  end.

Definition decimal (n : N) : jsstring := uint_units (N.to_uint n).

(** Hexadecimal digits. *)
Definition is_hex_digit (c : N) : bool :=
  ((48 <=? c) && (c <=? 57)) || ((65 <=? c) && (c <=? 70))
  || ((97 <=? c) && (c <=? 102)).

Definition hex_value (c : N) : option N :=
  if (48 <=? c) && (c <=? 57) then Some (c - 48)
  else if (65 <=? c) && (c <=? 70) then Some (c - 55)
  else if (97 <=? c) && (c <=? 102) then Some (c - 87)
  else None.

(** Lower-case digit of a value below 16. *)
Definition hex_digit (d : N) : N := if d <? 10 then 48 + d else 87 + d.

(** ** Surrogates *)

Definition is_high_surrogate (c : N) : bool := (0xD800 <=? c) && (c <=? 0xDBFF).
Definition is_low_surrogate (c : N) : bool := (0xDC00 <=? c) && (c <=? 0xDFFF).

(** ** Numbers

    A number is carried as its JSON literal.  The literal denotes the
    IEEE 754 double nearest to its decimal value, ties to even: that double
    decides whether the number is truthy and how it is written. *)

Definition is_digit (c : N) : bool := (0x30 <=? c) && (c <=? 0x39).

(** The longest run of digits at the head of a string, and the rest. *)
Fixpoint span_digits (s : jsstring) : jsstring * jsstring :=
  match s with
  | c :: r =>
      if is_digit c then let (d, r') := span_digits r in (c :: d, r')
      else ([], s)
  | [] => ([], [])
  end.

(** The number a run of digits spells, after [acc]. *)
Fixpoint digits_value (acc : N) (s : jsstring) : N :=
  match s with
  | c :: r => if is_digit c then digits_value (acc * 10 + (c - 0x30)) r else acc
  | [] => acc
  end.

(** The exponent part of a literal. *)
Definition literal_exponent (s : jsstring) : Z :=
  match s with
  | c :: r =>
      if (c =? 0x65) || (c =? 0x45) then
        match r with
        | g :: r1 =>
            if g =? 0x2D then (- Z.of_N (digits_value 0 r1))%Z
            else if g =? 0x2B then Z.of_N (digits_value 0 r1)
            else Z.of_N (digits_value 0 r)
        | [] => 0%Z
        end
      else 0%Z
  | [] => 0%Z
  end.

(** A literal read as sign, digits and power of ten: it denotes
    [digits * 10 ^ exponent], negated when [negative]. *)
Definition literal_decimal (l : jsstring) : bool * N * Z :=
  let (negative, s0) :=
    match l with
    | c :: r => if c =? 0x2D then (true, r) else (false, l)
    | [] => (false, l)
    end in
  let (int, s1) := span_digits s0 in
  let (frac, s2) :=
    match s1 with
    | c :: r => if c =? 0x2E then span_digits r else ([], s1)
    | [] => ([], s1)
    end in
  (negative, digits_value 0 (int ++ frac),
   (literal_exponent s2 - Z.of_nat (List.length frac))%Z).

(** A double: a zero, [mantissa * 2 ^ exponent] with a mantissa below
    2^53, or an infinity. *)
Inductive number : Type :=
| Zero (negative : bool)
| Finite (negative : bool) (mantissa : N) (exponent : Z)
| Infinite (negative : bool).

(** [p / (q * 2 ^ k)] as a fraction of two naturals. *)
Definition scaled (p q : N) (k : Z) : N * N :=
  if (k <? 0)%Z then (p * 2 ^ Z.to_N (- k), q) else (p, q * 2 ^ Z.to_N k).

(** The double nearest to [p / q], for [p] and [q] positive: the exponent
    [k] is the one that leaves 53 bits, and never less than -1074; the
    quotient by [2 ^ k] is rounded to the nearest integer, to the even one
    on a tie. *)
Definition round_to_double (negative : bool) (p q : N) : number :=
  let k0 := Z.max (Z.of_N (N.log2 p) - Z.of_N (N.log2 q) - 53) (-1074) in
  let wide := let (n0, d0) := scaled p q k0 in 2 ^ 53 <=? n0 / d0 in
  let k := if wide then (k0 + 1)%Z else k0 in
  let (n, d) := scaled p q k in
  let floor := n / d in
  let rest := n mod d in
  let m := if (d <? 2 * rest) || ((2 * rest =? d) && N.odd floor)
           then floor + 1 else floor in
  if m =? 0 then Zero negative
  else if m =? 2 ^ 53 then
    if (971 <=? k)%Z then Infinite negative else Finite negative (2 ^ 52) (k + 1)
  else if (971 <? k)%Z then Infinite negative
  else Finite negative m k.

(** [digits * 10 ^ exponent] as a fraction. *)
Definition decimal_fraction (digits : N) (exponent : Z) : N * N :=
  if (exponent <? 0)%Z then (digits, 10 ^ Z.to_N (- exponent))
  else (digits * 10 ^ Z.to_N exponent, 1).

(** The double of a decimal.  A decimal of more than 310 digits before the
    point is beyond every double, one that starts more than 330 places
    after the point is below half the least double. *)
Definition double_of_decimal (negative : bool) (digits : N) (exponent : Z) : number :=
  if digits =? 0 then Zero negative
  else
    let magnitude := (exponent + Z.of_nat (List.length (decimal digits)))%Z in
    if (310 <? magnitude)%Z then Infinite negative
    else if (magnitude <? -330)%Z then Zero negative
    else let (p, q) := decimal_fraction digits exponent in
         round_to_double negative p q.

Definition to_number (l : jsstring) : number :=
  let '(negative, digits, exponent) := literal_decimal l in
  double_of_decimal negative digits exponent.

Definition number_eqb (x y : number) : bool :=
  match x, y with
  | Zero a, Zero b => Bool.eqb a b
  | Finite a m k, Finite b n j => Bool.eqb a b && (m =? n) && (k =? j)%Z
  | Infinite a, Infinite b => Bool.eqb a b
  | _, _ => false
  end.

(** The decimal [s * 10 ^ t] of [keep] digits nearest to the double
    [mantissa * 2 ^ exponent] among those the double is the nearest double
    of, if there is one; [n] is the number of digits of the double before
    the point. *)
Definition nearest_decimal (mantissa : N) (exponent : Z) (n : Z) (keep : nat)
  : option (N * Z) :=
  let t := (n - Z.of_nat keep)%Z in
  let (a, b) := scaled mantissa 1 (- exponent) in
  let (num, den) := if (t <? 0)%Z then (a * 10 ^ Z.to_N (- t), b)
                    else (a, b * 10 ^ Z.to_N t) in
  let low := num / den in
  let rest := num mod den in
  let reads (s : N) :=
    number_eqb (double_of_decimal false s t) (Finite false mantissa exponent) in
  let low_first := (2 * rest <? den) || ((2 * rest =? den) && N.even low) in
  if reads low && (low_first || negb (reads (low + 1))) then Some (low, t)
  else if reads (low + 1) then Some (low + 1, t)
  else None.

Fixpoint shortest_from (mantissa : N) (exponent : Z) (n : Z) (keep fuel : nat)
  : N * Z :=
  match nearest_decimal mantissa exponent n keep with
  | Some st => st
  | None =>
      match fuel with
      | O => (0, 0%Z)
      | S fuel' => shortest_from mantissa exponent n (S keep) fuel'
      end
  end.

(** Trailing zeros go to the power of ten. *)
Fixpoint strip_zeros (fuel : nat) (s : N) (t : Z) : N * Z :=
  match fuel with
  | O => (s, t)
  | S fuel' =>
      if (s mod 10 =? 0) && negb (s =? 0) then strip_zeros fuel' (s / 10) (t + 1)%Z
      else (s, t)
  end.

(** The number of digits before the point of [a / b]: the [n] with
    [10 ^ (n - 1) <= a / b < 10 ^ n]. *)
Definition decimal_magnitude (a b : N) : Z :=
  let n0 := (Z.of_nat (List.length (decimal a)) - Z.of_nat (List.length (decimal b)))%Z in
  let reaches := if (n0 <? 0)%Z then b <=? a * 10 ^ Z.to_N (- n0)
                 else b * 10 ^ Z.to_N n0 <=? a in
  if reaches then (n0 + 1)%Z else n0.

(** The shortest decimal that reads as the double, as digits [s] and the
    place [n] of the point. *)
Definition shortest_decimal (mantissa : N) (exponent : Z) : jsstring * Z :=
  let (a, b) := scaled mantissa 1 (- exponent) in
  let n := decimal_magnitude a b in
  let (s0, t0) := shortest_from mantissa exponent n 1 16 in
  let (s, t) := strip_zeros 20 s0 t0 in
  (decimal s, (t + Z.of_nat (List.length (decimal s)))%Z).

Definition zeros (count : Z) : jsstring := repeat 0x30 (Z.to_nat count).

(** Number::toString of a positive finite double. *)
Definition format_decimal (digits : jsstring) (n : Z) : jsstring :=
  let k := Z.of_nat (List.length digits) in
  if (k <=? n)%Z && (n <=? 21)%Z then digits ++ zeros (n - k)
  else if (0 <? n)%Z && (n <=? 21)%Z then
    firstn (Z.to_nat n) digits ++ 0x2E :: skipn (Z.to_nat n) digits
  else if (-6 <? n)%Z && (n <=? 0)%Z then
    0x30 :: 0x2E :: zeros (- n) ++ digits
  else
    let e := (n - 1)%Z in
    let tail := 0x65 :: (if (e <? 0)%Z then 0x2D else 0x2B) :: decimal (Z.to_N (Z.abs e)) in
    match digits with
    | [d] => d :: tail
    | d :: more => d :: 0x2E :: more ++ tail
    | [] => tail
    end.

(** Number::toString *)
Definition Number_toString (x : number) : jsstring :=
  match x with
  | Zero _ => lit "0"
  | Infinite negative => if negative then lit "-Infinity" else lit "Infinity"
  | Finite negative mantissa exponent =>
      let (digits, n) := shortest_decimal mantissa exponent in
      (if negative then [0x2D] else []) ++ format_decimal digits n
  end.

(** ** JavaScript values

    The values the service builds, serialises and parses, and the values
    of the fields of a request body.  The members of an object are listed
    in the order JavaScript enumerates its own properties. *)
#[warnings="-register-all"]
Inductive value : Type :=
| VUndefined
| VNull
| VBool (b : bool)
| VNum (literal : jsstring)
| VStr (s : jsstring)
| VArr (elements : list value)
| VObj (members : list (jsstring * value)).

(** [obj[key]] on an object literal or a parsed object; [None] is
    [undefined]. *)
Fixpoint lookup (key : jsstring) (members : list (jsstring * value)) : option value :=
  match members with
  | [] => None
  | (k, v) :: r => if str_eqb k key then Some v else lookup key r
  end.

(** Defining or overwriting a property: an existing key keeps its place. *)
Fixpoint obj_put (members : list (jsstring * value)) (key : jsstring) (v : value)
  : list (jsstring * value) :=
  match members with
  | [] => [(key, v)]
  | (k, x) :: r => if str_eqb k key then (k, v) :: r else (k, x) :: obj_put r key v
  end.

(** ToBoolean: of the numbers, the two zeros are falsy (a parsed number is
    never NaN). *)
Definition truthy (v : value) : bool :=
  match v with
  | VUndefined | VNull => false
  | VBool b => b
  | VNum l => match to_number l with Zero _ => false | _ => true end
  | VStr s => match s with [] => false | _ => true end
  | VArr _ | VObj _ => true
  end.

(** [a || b] *)
Definition or_else (a b : value) : value := if truthy a then a else b.

(** ** JSON.stringify *)

(** [\uXXXX] with lower-case digits. *)
Definition unicode_escape (c : N) : jsstring :=
  [0x5C; 0x75; hex_digit (c / 4096); hex_digit ((c / 256) mod 16);
   hex_digit ((c / 16) mod 16); hex_digit (c mod 16)].

(** One code unit that is not the first half of a surrogate pair. *)
Definition quote_unit (c : N) : jsstring :=
  if c =? 0x08 then [0x5C; 0x62]
  else if c =? 0x09 then [0x5C; 0x74]
  else if c =? 0x0A then [0x5C; 0x6E]
  else if c =? 0x0C then [0x5C; 0x66]
  else if c =? 0x0D then [0x5C; 0x72]
  else if c =? 0x22 then [0x5C; 0x22]
  else if c =? 0x5C then [0x5C; 0x5C]
  else if (c <? 0x20) || is_high_surrogate c || is_low_surrogate c
       then unicode_escape c
  else [c].

(** The characters between the quotes of QuoteJSONString: a surrogate pair
    is copied, a lone surrogate is escaped. *)
Fixpoint quote_units (s : jsstring) : jsstring :=
  match s with
  | [] => []
  | c :: rest =>
      if is_high_surrogate c then
        match rest with
        | d :: rest' =>
            if is_low_surrogate d then c :: d :: quote_units rest'
            else unicode_escape c ++ quote_units rest
        | [] => unicode_escape c
        end
      else quote_unit c ++ quote_units rest
  end.

Definition quote (s : jsstring) : jsstring := 0x22 :: quote_units s ++ [0x22].

Fixpoint join_comma (parts : list jsstring) : jsstring :=
  match parts with
  | [] => []
  | [p] => p
  | p :: r => p ++ 0x2C :: join_comma r
  end.

(** [JSON.stringify(v)] with no indentation; [None] is [undefined].  An
    [undefined] member of an object is left out, an [undefined] element of
    an array is written [null]; a number is written as Number::toString
    writes its double, and [null] when that is an infinity. *)
Fixpoint JSON_stringify (v : value) : option jsstring :=
  match v with
  | VUndefined => None
  | VNull => Some (lit "null")
  | VBool true => Some (lit "true")
  | VBool false => Some (lit "false")
  | VNum l =>
      Some (match to_number l with
            | Infinite _ => lit "null"
            | x => Number_toString x
            end)
  | VStr s => Some (quote s)
  | VArr l =>
      Some (0x5B :: join_comma
              (map (fun x => match JSON_stringify x with
                             | Some t => t
                             | None => lit "null"
                             end) l) ++ [0x5D])
  | VObj ms =>
      Some (0x7B :: join_comma
              ((fix members (ms : list (jsstring * value)) : list jsstring :=
                  match ms with
                  | [] => []
                  | (k, x) :: ms' =>
                      match JSON_stringify x with
                      | Some t => (quote k ++ 0x3A :: t) :: members ms'
                      | None => members ms'
                      end
                  end) ms) ++ [0x7D])
  end.

(** ** ToString *)

(** [String(v)], and what a template literal or [RegExp.prototype.test]
    makes of [v].  [None] is the TypeError "Cannot convert object to
    primitive value": an object with an own property [toString] has no
    callable one (a parsed value is never a function), and [valueOf] gives
    the object back.  An array is joined with commas, [null] and
    [undefined] elements giving the empty string. *)
Fixpoint to_string (v : value) : option jsstring :=
  match v with
  | VUndefined => Some (lit "undefined")
  | VNull => Some (lit "null")
  | VBool true => Some (lit "true")
  | VBool false => Some (lit "false")
  | VNum l => Some (Number_toString (to_number l))
  | VStr s => Some s
  | VArr l =>
      match (fix elements (l : list value) : option (list jsstring) :=
               match l with
               | [] => Some []
               | x :: l' =>
                   match (match x with
                          | VUndefined | VNull => Some []
                          | _ => to_string x
                          end), elements l' with
                   | Some t, Some ts => Some (t :: ts)
                   | _, _ => None
                   end
               end) l with
      | Some parts => Some (join_comma parts)
      | None => None
      end
  | VObj ms =>
      match lookup (lit "toString") ms with
      | Some _ => None
      | None => Some (lit "[object Object]")
      end
  end.

(** ** JSON.parse *)

Definition is_json_space (c : N) : bool :=
  (c =? 0x09) || (c =? 0x0A) || (c =? 0x0D) || (c =? 0x20).

Fixpoint skip_ws (s : jsstring) : jsstring :=
  match s with
  | c :: r => if is_json_space c then skip_ws r else s
  | [] => []
  end.

(** One or more digits. *)
Definition digits1 (s : jsstring) : option (jsstring * jsstring) :=
  match span_digits s with
  | ([], _) => None
  | (d, r) => Some (d, r)
  end.

(** The integer part: [0], or a digit from 1 to 9 and then digits. *)
Definition parse_int (s : jsstring) : option (jsstring * jsstring) :=
  match s with
  | c :: r =>
      if c =? 0x30 then Some ([c], r)
      else if is_digit c then let (d, r') := span_digits r in Some (c :: d, r')
      else None
  | [] => None
  end.

Definition parse_frac (s : jsstring) : option (jsstring * jsstring) :=
  match s with
  | c :: r =>
      if c =? 0x2E then
        match digits1 r with
        | Some (d, r') => Some (c :: d, r')
        | None => None
        end
      else Some ([], s)
  | [] => Some ([], [])
  end.

Definition parse_exp (s : jsstring) : option (jsstring * jsstring) :=
  match s with
  | c :: r =>
      if (c =? 0x65) || (c =? 0x45) then
        match r with
        | g :: r1 =>
            if (g =? 0x2B) || (g =? 0x2D) then
              match digits1 r1 with
              | Some (d, r') => Some (c :: g :: d, r')
              | None => None
              end
            else
              match digits1 r with
              | Some (d, r') => Some (c :: d, r')
              | None => None
              end
        | [] => None
        end
      else Some ([], s)
  | [] => Some ([], [])
  end.

(** A JSON number: the literal and what follows it. *)
Definition parse_number (s : jsstring) : option (jsstring * jsstring) :=
  let (sign, s0) :=
    match s with
    | c :: r => if c =? 0x2D then ([c], r) else ([], s)
    | [] => ([], s)
    end in
  match parse_int s0 with
  | Some (i, s1) =>
      match parse_frac s1 with
      | Some (f, s2) =>
          match parse_exp s2 with
          | Some (e, s3) => Some (sign ++ i ++ f ++ e, s3)
          | None => None
          end
      | None => None
      end
  | None => None
  end.

(** The character an escape letter stands for. *)
Definition simple_escape (e : N) : option N :=
  if e =? 0x22 then Some 0x22
  else if e =? 0x5C then Some 0x5C
  else if e =? 0x2F then Some 0x2F
  else if e =? 0x62 then Some 0x08
  else if e =? 0x66 then Some 0x0C
  else if e =? 0x6E then Some 0x0A
  else if e =? 0x72 then Some 0x0D
  else if e =? 0x74 then Some 0x09
  else None.

Definition hex4 (a b c d : N) : option N :=
  match hex_value a, hex_value b, hex_value c, hex_value d with
  | Some x, Some y, Some z, Some w => Some (((x * 16 + y) * 16 + z) * 16 + w)
  | _, _, _, _ => None
  end.

(** A string after its opening quote: the characters up to the closing
    quote, and what follows it. *)
Fixpoint parse_string_body (s : jsstring) : option (jsstring * jsstring) :=
  match s with
  | [] => None
  | c :: r =>
      if c =? 0x22 then Some ([], r)
      else if c =? 0x5C then
        match r with
        | e :: r1 =>
            if e =? 0x75 then
              match r1 with
              | h1 :: h2 :: h3 :: h4 :: r2 =>
                  match hex4 h1 h2 h3 h4 with
                  | Some u =>
                      match parse_string_body r2 with
                      | Some (t, r') => Some (u :: t, r')
                      | None => None
                      end
                  | None => None
                  end
              | _ => None
              end
            else
              match simple_escape e with
              | Some u =>
                  match parse_string_body r1 with
                  | Some (t, r') => Some (u :: t, r')
                  | None => None
                  end
              | None => None
              end
        | [] => None
        end
      else if c <? 0x20 then None
      else
        match parse_string_body r with
        | Some (t, r') => Some (c :: t, r')
        | None => None
        end
  end.

(** An array index: the canonical decimal text of an integer below
    2^32 - 1. *)
Definition array_index (key : jsstring) : option N :=
  match key with
  | [] => None
  | c :: r =>
      if forallb is_digit key
         && (negb (c =? 0x30) || match r with [] => true | _ => false end)
      then let n := digits_value 0 key in
           if n <? 4294967295 then Some n else None
      else None
  end.

(** Members whose keys are array indices, in ascending order of index. *)
Fixpoint insert_index (i : N) (kv : jsstring * value)
    (sorted : list (N * (jsstring * value))) : list (N * (jsstring * value)) :=
  match sorted with
  | [] => [(i, kv)]
  | (j, x) :: r => if i <? j then (i, kv) :: sorted else (j, x) :: insert_index i kv r
  end.

Fixpoint index_members (ms : list (jsstring * value)) : list (N * (jsstring * value)) :=
  match ms with
  | [] => []
  | kv :: r =>
      match array_index (fst kv) with
      | Some i => insert_index i kv (index_members r)
      | None => index_members r
      end
  end.

(** The order in which JavaScript enumerates the own properties that were
    created in the order [ms]: array indices first, in ascending order, then
    the other keys in the order of their creation. *)
Definition own_property_order (ms : list (jsstring * value)) : list (jsstring * value) :=
  map snd (index_members ms)
    ++ filter (fun kv => match array_index (fst kv) with
                         | Some _ => false
                         | None => true
                         end) ms.

(** The object [JSON.parse] makes of the members it read: a repeated key
    overwrites the earlier value and keeps its place, and the properties are
    enumerated in the order of JavaScript. *)
Definition object_of (ms : list (jsstring * value)) : value :=
  VObj (own_property_order
          (fold_left (fun acc kv => obj_put acc (fst kv) (snd kv)) ms [])).

(** Recursive descent over the JSON grammar.  [fuel] bounds the number of
    nested calls; [JSON_parse] gives more than any input can use. *)
Fixpoint parse_value (fuel : nat) (s : jsstring) {struct fuel}
  : option (value * jsstring) :=
  match fuel with
  | O => None
  | S fuel' =>
      match skip_ws s with
      | [] => None
      | c :: r =>
          if c =? 0x22 then
            match parse_string_body r with
            | Some (str, r') => Some (VStr str, r')
            | None => None
            end
          else if c =? 0x5B then
            match skip_ws r with
            | d :: r' =>
                if d =? 0x5D then Some (VArr [], r')
                else match parse_elements fuel' r with
                     | Some (vs, r'') => Some (VArr vs, r'')
                     | None => None
                     end
            | [] => None
            end
          else if c =? 0x7B then
            match skip_ws r with
            | d :: r' =>
                if d =? 0x7D then Some (VObj [], r')
                else match parse_members fuel' r with
                     | Some (ms, r'') => Some (object_of ms, r'')
                     | None => None
                     end
            | [] => None
            end
          else if startsWith (lit "true") (c :: r) then Some (VBool true, skipn 4 (c :: r))
          else if startsWith (lit "false") (c :: r) then Some (VBool false, skipn 5 (c :: r))
          else if startsWith (lit "null") (c :: r) then Some (VNull, skipn 4 (c :: r))
          else
            match parse_number (c :: r) with
            | Some (l, r') => Some (VNum l, r')
            | None => None
            end
      end
  end

with parse_elements (fuel : nat) (s : jsstring) {struct fuel}
  : option (list value * jsstring) :=
  match fuel with
  | O => None
  | S fuel' =>
      match parse_value fuel' s with
      | Some (v, r) =>
          match skip_ws r with
          | d :: r' =>
              if d =? 0x2C then
                match parse_elements fuel' r' with
                | Some (vs, r'') => Some (v :: vs, r'')
                | None => None
                end
              else if d =? 0x5D then Some ([v], r')
              else None
          | [] => None
          end
      | None => None
      end
  end

with parse_members (fuel : nat) (s : jsstring) {struct fuel}
  : option (list (jsstring * value) * jsstring) :=
  match fuel with
  | O => None
  | S fuel' =>
      match skip_ws s with
      | q :: r =>
          if q =? 0x22 then
            match parse_string_body r with
            | Some (k, r1) =>
                match skip_ws r1 with
                | col :: r2 =>
                    if col =? 0x3A then
                      match parse_value fuel' r2 with
                      | Some (v, r3) =>
                          match skip_ws r3 with
                          | d :: r4 =>
                              if d =? 0x2C then
                                match parse_members fuel' r4 with
                                | Some (ms, r5) => Some ((k, v) :: ms, r5)
                                | None => None
                                end
                              else if d =? 0x7D then Some ([(k, v)], r4)
                              else None
                          | [] => None
                          end
                      | None => None
                      end
                    else None
                | [] => None
                end
            | None => None
            end
          else None
      | [] => None
      end
  end.

(** [JSON.parse(s)]; [None] is the SyntaxError. *)
Definition JSON_parse (s : jsstring) : option value :=
  match parse_value (2 * List.length s + 2) s with
  | Some (v, r) => match skip_ws r with [] => Some v | _ :: _ => None end
  | None => None
  end.

(** ** Buffer: UTF-8 *)

(** A buffer is a sequence of bytes, numbers below 256. *)
Definition buffer := list N.

Definition utf8_of_code_point (cp : N) : buffer :=
  if cp <? 0x80 then [cp]
  else if cp <? 0x800 then [0xC0 + cp / 64; 0x80 + cp mod 64]
  else if cp <? 0x10000 then
    [0xE0 + cp / 4096; 0x80 + (cp / 64) mod 64; 0x80 + cp mod 64]
  else
    [0xF0 + cp / 262144; 0x80 + (cp / 4096) mod 64;
     0x80 + (cp / 64) mod 64; 0x80 + cp mod 64].

Definition replacement_bytes : buffer := [0xEF; 0xBF; 0xBD].

(** [Buffer.from(s)] (UTF-8): a surrogate pair is one code point, a lone
    surrogate becomes U+FFFD. *)
Fixpoint utf8_encode (s : jsstring) : buffer :=
  match s with
  | [] => []
  | c :: rest =>
      if is_high_surrogate c then
        match rest with
        | d :: rest' =>
            if is_low_surrogate d then
              utf8_of_code_point (0x10000 + (c - 0xD800) * 0x400 + (d - 0xDC00))
                ++ utf8_encode rest'
            else replacement_bytes ++ utf8_encode rest
        | [] => replacement_bytes
        end
      else if is_low_surrogate c then replacement_bytes ++ utf8_encode rest
      else utf8_of_code_point c ++ utf8_encode rest
  end.

(** The decoder of [buf.toString()]: a code point being assembled, the
    number of continuation bytes still needed, and the range allowed for
    the next one. *)
Record utf8_state : Type := mkUtf8State {
  u_cp : N;
  u_need : nat;
  u_lower : N;
  u_upper : N
}.

Definition utf8_init : utf8_state := mkUtf8State 0 0 0x80 0xBF.

Definition utf16_units (cp : N) : jsstring :=
  if cp <? 0x10000 then [cp]
  else [0xD800 + (cp - 0x10000) / 0x400; 0xDC00 + (cp - 0x10000) mod 0x400].

(** A byte read when no sequence is pending. *)
Definition utf8_lead (b : N) : jsstring * utf8_state :=
  if b <=? 0x7F then ([b], utf8_init)
  else if (0xC2 <=? b) && (b <=? 0xDF) then
    ([], mkUtf8State (b - 0xC0) 1 0x80 0xBF)
  else if (0xE0 <=? b) && (b <=? 0xEF) then
    ([], mkUtf8State (b - 0xE0) 2
           (if b =? 0xE0 then 0xA0 else 0x80)
           (if b =? 0xED then 0x9F else 0xBF))
  else if (0xF0 <=? b) && (b <=? 0xF4) then
    ([], mkUtf8State (b - 0xF0) 3
           (if b =? 0xF0 then 0x90 else 0x80)
           (if b =? 0xF4 then 0x8F else 0xBF))
  else ([0xFFFD], utf8_init).

(** A byte out of the allowed range ends the pending sequence with U+FFFD
    and is read again as a lead byte. *)
Definition utf8_step (st : utf8_state) (b : N) : jsstring * utf8_state :=
  match u_need st with
  | O => utf8_lead b
  | S n =>
      if (u_lower st <=? b) && (b <=? u_upper st) then
        let cp := u_cp st * 64 + (b - 0x80) in
        match n with
        | O => (utf16_units cp, utf8_init)
        | S _ => ([], mkUtf8State cp n 0x80 0xBF)
        end
      else let (out, st') := utf8_lead b in (0xFFFD :: out, st')
  end.

Fixpoint utf8_run (st : utf8_state) (bytes : buffer) : jsstring :=
  match bytes with
  | [] => match u_need st with O => [] | S _ => [0xFFFD] end
  | b :: r => let (out, st') := utf8_step st b in out ++ utf8_run st' r
  end.

Definition utf8_decode (bytes : buffer) : jsstring := utf8_run utf8_init bytes.

(** ** Buffer: base64 *)

Definition b64_char (n : N) : N :=
  if n <? 26 then 65 + n
  else if n <? 52 then 71 + n
  else if n <? 62 then n - 4
  else if n =? 62 then 43
  else 47.

(** Both the standard and the URL-safe alphabet are read. *)
Definition b64_value (c : N) : option N :=
  if (65 <=? c) && (c <=? 90) then Some (c - 65)
  else if (97 <=? c) && (c <=? 122) then Some (c - 71)
  else if (48 <=? c) && (c <=? 57) then Some (c + 4)
  else if (c =? 43) || (c =? 45) then Some 62
  else if (c =? 47) || (c =? 95) then Some 63
  else None.

(** [buf.toString("base64")] *)
Fixpoint base64_encode (bytes : buffer) : jsstring :=
  match bytes with
  | [] => []
  | [a] => [b64_char (a / 4); b64_char ((a mod 4) * 16); 61; 61]
  | [a; b] =>
      [b64_char (a / 4); b64_char ((a mod 4) * 16 + b / 16);
       b64_char ((b mod 16) * 4); 61]
  | a :: b :: c :: r =>
      b64_char (a / 4) :: b64_char ((a mod 4) * 16 + b / 16)
        :: b64_char ((b mod 16) * 4 + c / 64) :: b64_char (c mod 64)
        :: base64_encode r
  end.

(** The 6-bit values of the text, up to the first [=]; of a code unit its
    low byte is read, and a character outside the alphabet is passed over. *)
Fixpoint b64_sextets (s : jsstring) : list N :=
  match s with
  | [] => []
  | c :: r =>
      let b := c mod 256 in
      if b =? 61 then []
      else match b64_value b with
           | Some v => v :: b64_sextets r
           | None => b64_sextets r
           end
  end.

Fixpoint sextets_bytes (l : list N) : buffer :=
  match l with
  | a :: b :: c :: d :: r =>
      (a * 4 + b / 16) :: ((b mod 16) * 16 + c / 4) :: ((c mod 4) * 64 + d)
        :: sextets_bytes r
  | [a; b; c] => [a * 4 + b / 16; (b mod 16) * 16 + c / 4]
  | [a; b] => [a * 4 + b / 16]
  | _ => []
  end.

(** [Buffer.from(s, "base64")]; it never throws. *)
Definition base64_decode (s : jsstring) : buffer := sextets_bytes (b64_sextets s).

End Js.

(* ===================================================================== *)
(** * Vocabulary of the runtime properties *)
(* ===================================================================== *)

Module JsSpec.

Import Js.
Local Open Scope N_scope.

(** A byte of a buffer. *)
Definition is_byte (b : N) : Prop := b < 256.

(** A string with no lone surrogate: each unit is a code point of its own
    or one half of a pair.  Only such a string survives UTF-8. *)
Inductive well_formed : jsstring -> Prop :=
| wf_nil : well_formed []
| wf_scalar (c : N) (s : jsstring) :
    c < 65536 -> is_high_surrogate c = false -> is_low_surrogate c = false ->
    well_formed s -> well_formed (c :: s)
| wf_pair (h l : N) (s : jsstring) :
    is_high_surrogate h = true -> is_low_surrogate l = true ->
    well_formed s -> well_formed (h :: l :: s).

(** The code point of a surrogate pair. *)
Definition pair_code_point (h l : N) : N :=
  0x10000 + (h - 0xD800) * 0x400 + (l - 0xDC00).

(** What the parser does with one more unit in front. *)
Definition parsed_after (c : N) (r : jsstring) : option (jsstring * jsstring) :=
  match parse_string_body r with
  | Some (t, r') => Some (c :: t, r')
  | None => None
  end.

(** The text of a value inside an array. *)
Definition ser (v : value) : jsstring :=
  match JSON_stringify v with
  | Some t => t
  | None => lit "null"
  end.

Definition member_text (kx : jsstring * value) : jsstring :=
  quote (fst kx) ++ 0x3A :: ser (snd kx).

(** Values made of null, booleans, strings, arrays and objects with
    distinct keys, listed in the order of enumeration. *)
Fixpoint plain (v : value) : Prop :=
  match v with
  | VUndefined | VNum _ => False
  | VNull | VBool _ | VStr _ => True
  | VArr l => fold_right (fun x acc => plain x /\ acc) True l
  | VObj ms =>
      (NoDup (map fst ms) /\ own_property_order ms = ms)
      /\ fold_right (fun kx acc => plain (snd kx) /\ acc) True ms
  end.

Definition plain_list (l : list value) : Prop :=
  fold_right (fun x acc => plain x /\ acc) True l.

Definition plain_members (ms : list (jsstring * value)) : Prop :=
  fold_right (fun kx acc => plain (snd kx) /\ acc) True ms.

(** Fuel that is enough to parse the text of a value. *)
Fixpoint cost (v : value) : nat :=
  match v with
  | VArr l => S (fold_right (fun x acc => S (cost x) + acc)%nat 0%nat l)
  | VObj ms => S (fold_right (fun kx acc => S (cost (snd kx)) + acc)%nat 0%nat ms)
  | _ => 1%nat
  end.

Definition cost_list (l : list value) : nat :=
  fold_right (fun x acc => S (cost x) + acc)%nat 0%nat l.

Definition cost_members (ms : list (jsstring * value)) : nat :=
  fold_right (fun kx acc => S (cost (snd kx)) + acc)%nat 0%nat ms.

(** Every string of the value, keys included, is made of code units. *)
Fixpoint strings_ok (v : value) : Prop :=
  match v with
  | VStr s => units_ok s
  | VArr l => fold_right (fun x acc => strings_ok x /\ acc) True l
  | VObj ms =>
      fold_right (fun kx acc => (units_ok (fst kx) /\ strings_ok (snd kx)) /\ acc)
                 True ms
  | _ => True
  end.

End JsSpec.

(* ===================================================================== *)
(** * The thirdweb SDK and the process environment *)
(* ===================================================================== *)

Module Sdk.

Import Js.

(** What an awaited call gives: a value, or a thrown [Error] with its
    [message]. *)
Inductive result (A : Type) : Type :=
| Ok (a : A)
| Throw (message : jsstring).

Arguments Ok {A} a.
Arguments Throw {A} message.

Record Account : Type := mkAccount { address : jsstring }.

(** What [prepareContractCall] was given: [mintTo(_to, _uri)]. *)
Record Transaction : Type := mkTransaction { tx_to : jsstring; tx_uri : jsstring }.

(** The result of [sendTransaction], as far as [mintTextNFT] reads it.
    [None] is a property that is [undefined].  The [sendTransaction] of
    thirdweb resolves once the transaction is sent, to its hash, chain and
    client: its result has no [receipt] ([sent_without_receipt]).  The
    record is wider, so that what the code does with a receipt can be
    stated too. *)
Record LogEntry : Type := mkLogEntry { topics : option (list jsstring) }.
Record Receipt : Type := mkReceipt { logs : option (list LogEntry) }.
Record SendResult : Type := mkSendResult {
  transactionHash : jsstring;
  receipt : option Receipt
}.

(** What [sendTransaction] resolves to, for a transaction hash. *)
Definition sent_without_receipt (hash : jsstring) : SendResult :=
  mkSendResult hash None.

(** What is observed while a request is served, in order: the calls made
    to the SDK, and the route handlers Express starts.  The owner of a
    wallet query is whatever value the caller passed. *)
Inductive call : Type :=
| RouteHandler (name : jsstring)
| GetContract
| ReadName
| ReadSymbol
| ReadOwner
| ReadTotalSupply
| ReadBalanceOf (owner : value)
| ReadTokenOfOwnerByIndex (owner : value) (index : N)
| ReadTokenURI (tokenId : N)
| PrivateKeyToAccount (privateKey : jsstring)
| PrepareContractCall (to uri : jsstring)
| SendTransaction (transaction : Transaction) (account : Account).

(** The world a request runs in: the environment variables, the clock, and
    what each SDK call answers. *)
Record world : Type := mkWorld {
  NFT_CONTRACT_ADDRESS : option jsstring;
  SERVER_API_KEY : option jsstring;
  now_iso : jsstring;                      (* new Date().toISOString() *)
  getContract : result unit;
  readName : result jsstring;
  readSymbol : result jsstring;
  readOwner : result jsstring;
  readTotalSupply : result N;
  balanceOf : value -> result N;
  tokenOfOwnerByIndex : value -> N -> result N;
  tokenURI : N -> result jsstring;
  privateKeyToAccount : jsstring -> result Account;
  prepareContractCall : jsstring -> jsstring -> result Transaction;
  sendTransaction : Transaction -> Account -> result SendResult
}.

(** Computations that call the SDK and may throw: the trace of calls is
    threaded through, and kept when an error is thrown. *)
Definition M (A : Type) : Type := list call -> result A * list call.

Definition ret {A} (a : A) : M A := fun t => (Ok a, t).

Definition throw {A} (message : jsstring) : M A := fun t => (Throw message, t).

Definition bind {A B} (m : M A) (k : A -> M B) : M B :=
  fun t =>
    match m t with
    | (Ok a, t') => k a t'
    | (Throw e, t') => (Throw e, t')
    end.

(** [try { m } catch (error) { h(error.message) }] *)
Definition try_catch {A} (m : M A) (h : jsstring -> M A) : M A :=
  fun t =>
    match m t with
    | (Ok a, t') => (Ok a, t')
    | (Throw e, t') => h e t'
    end.

(** One SDK call: it is recorded, and answers what the world says. *)
Definition perform {A} (c : call) (answer : result A) : M A :=
  fun t => (answer, t ++ [c]).

Definition lift {A} (r : result A) : M A := fun t => (r, t).

(** [process.env.X] inside a string concatenation. *)
Definition env_text (v : option jsstring) : jsstring :=
  match v with
  | Some s => s
  | None => lit "undefined"
  end.

Definition env_value (v : option jsstring) : value :=
  match v with
  | Some s => VStr s
  | None => VUndefined
  end.

End Sdk.

Declare Scope js_scope.
Delimit Scope js_scope with js.
Notation "x <- m ;; k" := (Sdk.bind m (fun x => k))
  (at level 61, m at next level, right associativity) : js_scope.

(* ===================================================================== *)
(** * services/nftService.js *)
(* ===================================================================== *)

Module NftService.

Import Js Sdk.
Local Open Scope js_scope.

Record ContractInfo : Type := mkContractInfo {
  ci_name : jsstring;
  ci_symbol : jsstring;
  ci_owner : jsstring;
  ci_totalSupply : jsstring;
  ci_address : option jsstring
}.

(** [getContractInfo(client)] *)
Definition getContractInfo (w : world) : M ContractInfo :=
  try_catch
    (contract <- perform GetContract (getContract w) ;;
     name <- perform ReadName (readName w) ;;
     symbol <- perform ReadSymbol (readSymbol w) ;;
     owner <- try_catch (perform ReadOwner (readOwner w))
                        (fun _ => ret (lit "unknown")) ;;
     totalSupply <- perform ReadTotalSupply (readTotalSupply w) ;;
     ret (mkContractInfo name symbol owner (decimal totalSupply)
                         (NFT_CONTRACT_ADDRESS w)))
    (fun message => throw (lit "Failed to get contract info: " ++ message)).

(** [x.trim()] is a call on [x].  A string has the method; [undefined]
    and [null] have no properties; any other value has no [trim], and the
    call throws a TypeError whose message names the expression. *)
Definition trim_receiver (name : string) (x : value) : result jsstring :=
  match x with
  | VStr s => Ok s
  | VUndefined =>
      Throw (lit "Cannot read properties of undefined (reading 'trim')")
  | VNull => Throw (lit "Cannot read properties of null (reading 'trim')")
  | VBool _ | VNum _ | VArr _ | VObj _ =>
      Throw (lit name ++ lit ".trim is not a function")
  end.

(** [!x || x.trim() === ""] *)
Definition missing_or_blank (name : string) (x : value) : result bool :=
  if truthy x then
    match trim_receiver name x with
    | Ok s => Ok (str_eqb (trim s) [])
    | Throw message => Throw message
    end
  else Ok true.

(** The string a value is, read after a check that only a string passes. *)
Definition string_of (x : value) : jsstring :=
  match x with
  | VStr s => s
  | _ => []
  end.

(** The metadata object literal of [mintTextNFT]; [now] is
    [new Date().toISOString()]. *)
Definition buildMetadata (text description : value) (now : jsstring) : value :=
  VObj [ (lit "name", VStr (lit "CRUXZ NFT"));
         (lit "description", or_else description (VStr (lit "CRUXZ NFT")));
         (lit "attributes",
           VArr [ VObj [ (lit "trait_type", VStr (lit "Text"));
                         (lit "value", text) ];
                  VObj [ (lit "trait_type", VStr (lit "Created At"));
                         (lit "value", VStr now) ] ]) ].

Definition data_uri_prefix : jsstring := lit "data:application/json;base64,".

(** [`data:application/json;base64,${Buffer.from(JSON.stringify(metadata)).toString("base64")}`];
    [Buffer.from(undefined)] throws. *)
Definition metadataUriOf (metadata : value) : result jsstring :=
  match JSON_stringify metadata with
  | Some json => Ok (data_uri_prefix ++ base64_encode (utf8_encode json))
  | None => Throw (lit "The first argument must be of type string or an instance of Buffer, ArrayBuffer, or Array or an Array-like Object. Received undefined")
  end.

(** The key formatting step, the same lines in [mintTextNFT] and in the
    private-key test routes: trim, check the length, drop a leading [0x]. *)
Definition key_length_message (privateKeyStr : jsstring) : jsstring :=
  lit "Invalid private key length: "
    ++ decimal (N.of_nat (List.length privateKeyStr))
    ++ lit ". Expected 64 or 66 characters.".

Definition formatPrivateKey (privateKey : jsstring) : result jsstring :=
  let privateKeyStr := trim privateKey in
  if negb (Nat.eqb (List.length privateKeyStr) 64)
     && negb (Nat.eqb (List.length privateKeyStr) 66)
  then Throw (key_length_message privateKeyStr)
  else Ok (if startsWith (lit "0x") privateKeyStr
           then substring_from 2 privateKeyStr
           else privateKeyStr).

Inductive MintResult : Type :=
| Prepared (message : jsstring) (contract : value) (tokenMetadata : value)
           (instructions : list jsstring)
| Minted (tokenId : value) (transactionHash : jsstring) (to : jsstring)
         (metadata : value).

(** The body of the inner [try] of [mintTextNFT]: the value assigned to
    [tokenId], or the TypeError of reading a property of [undefined]. *)
Definition readTokenId (r : SendResult) : result value :=
  match receipt r with
  | None => Throw (lit "Cannot read properties of undefined (reading 'logs')")
  | Some rc =>
      match logs rc with
      | Some (first :: _) =>
          match topics first with
          | Some ts =>
              Ok (match nth_error ts 3 with
                  | Some t => VStr t
                  | None => VUndefined
                  end)
          | None => Throw (lit "Cannot read properties of undefined (reading '3')")
          end
      | Some [] | None => Ok (VStr (lit "unknown"))
      end
  end.

(** [mintTextNFT(client, text, performMint, privateKey, toAddress, description)].
    The arguments are whatever values the caller passes; once both checks
    are passed, [privateKey] and [toAddress] are strings. *)
Definition mintTextNFT (w : world) (text : value) (performMint : bool)
    (privateKey toAddress description : value) : M MintResult :=
  try_catch
    (contract <- perform GetContract (getContract w) ;;
     let metadata := buildMetadata text description (now_iso w) in
     metadataUri <- lift (metadataUriOf metadata) ;;
     if negb performMint then
       ret (Prepared
              (lit "To mint an NFT, you need to call this contract directly with the owner's wallet")
              (env_value (NFT_CONTRACT_ADDRESS w))
              metadata
              [ lit "1. Connect your wallet to Thirdweb dashboard";
                lit "2. Access your contract at " ++ env_text (NFT_CONTRACT_ADDRESS w);
                lit "3. Use the mintTo function with your wallet address and the metadata";
                lit "4. Or integrate a client-side wallet connector like Metamask" ])
     else
       noKey <- lift (missing_or_blank "privateKey" privateKey) ;;
       if noKey then
         throw (lit "Private key is required for minting but not provided")
       else
         noAddress <- lift (missing_or_blank "toAddress" toAddress) ;;
         if noAddress then
           throw (lit "Wallet address (toAddress) is required for minting but not provided")
         else
           formattedPrivateKey <- lift (formatPrivateKey (string_of privateKey)) ;;
           account <- perform (PrivateKeyToAccount formattedPrivateKey)
                              (privateKeyToAccount w formattedPrivateKey) ;;
           let recipientAddress := string_of toAddress in
           transaction <- perform (PrepareContractCall recipientAddress metadataUri)
                                  (prepareContractCall w recipientAddress metadataUri) ;;
           result <- perform (SendTransaction transaction account)
                             (sendTransaction w transaction account) ;;
           tokenId <- try_catch (lift (readTokenId result))
                                (fun _ => ret (VStr (lit "unknown"))) ;;
           ret (Minted tokenId (transactionHash result) recipientAddress metadata))
    (fun message => throw (lit "Failed to mint NFT: " ++ message)).

(** [mintTextNFTWithPrivateKey(client, text, privateKey, toAddress, description)] *)
Definition mintTextNFTWithPrivateKey (w : world) (text : value)
    (privateKey toAddress description : value) : M MintResult :=
  try_catch
    (noKey <- lift (missing_or_blank "privateKey" privateKey) ;;
     if noKey then
       throw (lit "Private key is required for minting")
     else
       noAddress <- lift (missing_or_blank "toAddress" toAddress) ;;
       if noAddress then
         throw (lit "Wallet address (toAddress) is required for minting")
       else mintTextNFT w text true privateKey toAddress description)
    (fun message => throw (lit "Failed to mint NFT: " ++ message)).

Record WalletNft : Type := mkWalletNft {
  nft_tokenId : jsstring;
  nft_name : value;
  nft_description : value;
  nft_attributes : value
}.

(** [`Token #${tokenId}`] *)
Definition token_label (tokenId : N) : jsstring := lit "Token #" ++ decimal tokenId.

(** The metadata of a token URI: the decoded JSON of a base64 data URI
    ([JSON.parse] may throw), a placeholder otherwise. *)
Definition decodeTokenUri (tokenUri : jsstring) (tokenId : N) : result value :=
  if startsWith data_uri_prefix tokenUri then
    let base64Data := remove_first data_uri_prefix tokenUri in
    match JSON_parse (utf8_decode (base64_decode base64Data)) with
    | Some metadata => Ok metadata
    | None => Throw (lit "Unexpected token in JSON")
    end
  else
    Ok (VObj [ (lit "name", VStr (token_label tokenId));
               (lit "description", VStr (lit "No metadata available")) ]).

(** [metadata.key]: reading a property of [null] throws, a property that
    is not there is [undefined]. *)
Definition getProp (metadata : value) (key : jsstring) : result value :=
  match metadata with
  | VNull | VUndefined =>
      Throw (lit "Cannot read properties of null (reading '" ++ key ++ lit "')")
  | VObj ms => Ok (match lookup key ms with Some v => v | None => VUndefined end)
  | VBool _ | VNum _ | VStr _ | VArr _ => Ok VUndefined
  end.

(** The body of the [try] inside the loop of [getWalletNFTs], for index [i]. *)
Definition resolveToken (w : world) (walletAddress : value) (i : N) : M WalletNft :=
  tokenId <- perform (ReadTokenOfOwnerByIndex walletAddress i)
                     (tokenOfOwnerByIndex w walletAddress i) ;;
  tokenUri <- perform (ReadTokenURI tokenId) (tokenURI w tokenId) ;;
  metadata <- lift (decodeTokenUri tokenUri tokenId) ;;
  name <- lift (getProp metadata (lit "name")) ;;
  description <- lift (getProp metadata (lit "description")) ;;
  attributes <- lift (getProp metadata (lit "attributes")) ;;
  ret (mkWalletNft (decimal tokenId)
                   (or_else name (VStr (token_label tokenId)))
                   (or_else description (VStr []))
                   (or_else attributes (VArr []))).

(** [for (let i = ...; i < balanceNum; i++) { try { ...; nfts.push(...) } catch (err) { } }]
    with [remaining = balanceNum - i] iterations still to run. *)
Fixpoint enumerate (w : world) (walletAddress : value) (remaining : nat)
    (i : N) (nfts : list WalletNft) : M (list WalletNft) :=
  match remaining with
  | O => ret nfts
  | S remaining' =>
      nfts' <- try_catch
                 (nft <- resolveToken w walletAddress i ;; ret (nfts ++ [nft]))
                 (fun _ => ret nfts) ;;
      enumerate w walletAddress remaining' (i + 1)%N nfts'
  end.

(** [`${x}`]: the text of a value in a template literal. *)
Definition template_text (x : value) : result jsstring :=
  match to_string x with
  | Some s => Ok s
  | None => Throw (lit "Cannot convert object to primitive value")
  end.

(** [getWalletNFTs(client, walletAddress)]; the address is written into
    the line logged once the balance is read. *)
Definition getWalletNFTs (w : world) (walletAddress : value) : M (list WalletNft) :=
  try_catch
    (contract <- perform GetContract (getContract w) ;;
     balance <- perform (ReadBalanceOf walletAddress) (balanceOf w walletAddress) ;;
     logged <- lift (template_text walletAddress) ;;
     let balanceNum := N.to_nat balance in
     enumerate w walletAddress balanceNum 0%N [])
    (fun message => throw (lit "Failed to fetch NFTs: " ++ message)).

End NftService.

(* ===================================================================== *)
(** * The Express servers *)
(* ===================================================================== *)

Module Server.

Import Js Sdk NftService.
Local Open Scope js_scope.

(** The route Express matches a request to. *)
Inductive route : Type :=
| Health                 (* GET  /health *)
| Contract               (* GET  /api/contract *)
| MintPrepare            (* POST /api/mint/text/prepare *)
| MintText               (* POST /api/mint/text *)
| MintWithPrivateKey     (* POST /api/mint/text/with-private-key *)
| NftsPost               (* POST /api/nfts *)
| NftsGet                (* GET  /api/nfts/:walletAddress *)
| TestPrivateKey         (* POST /api/test/private-key *)
| Unmatched.

(** A request: its route, the [x-api-key] header, whether [express.json()]
    rejects the body, the fields the handlers read from the JSON body and
    the path parameter.  A field of the body is whatever JSON value the
    client sent, [undefined] when the body has no such field; the header
    and the path parameter are strings or absent. *)
Record request : Type := mkRequest {
  target : route;
  x_api_key : option jsstring;
  body_rejected : bool;
  text : value;
  privateKey : value;
  toAddress : value;
  walletAddress : value;
  param_walletAddress : option jsstring
}.

(** A response body: what [res.json] was given, or a page of Express's own
    (not JSON). *)
Inductive body : Type :=
| Json (v : value)
| ExpressPage.

Record response : Type := mkResponse {
  status : nat;
  headers : list (jsstring * jsstring);
  payload : body
}.

(** [res.status(code).json(v)] *)
Definition json (code : nat) (members : list (jsstring * value)) : response :=
  mkResponse code [] (Json (VObj members)).

Definition with_headers (h : list (jsstring * jsstring)) (r : response) : response :=
  mkResponse (status r) (h ++ headers r) (payload r).

(** [!x] for a header or a path parameter. *)
Definition falsy (x : option jsstring) : bool :=
  match x with
  | None | Some [] => true
  | Some (_ :: _) => false
  end.

(** The string of a header or a path parameter, read after the check that
    it is there. *)
Definition present (x : option jsstring) : jsstring :=
  match x with
  | Some s => s
  | None => []
  end.

(** A path parameter as a value. *)
Definition param_value (x : option jsstring) : value :=
  match x with
  | Some s => VStr s
  | None => VUndefined
  end.

Definition failure (error : string) : list (jsstring * value) :=
  [ (lit "success", VBool false); (lit "error", VStr (lit error)) ].

Definition failure_details (error : string) (details : jsstring)
  : list (jsstring * value) :=
  [ (lit "success", VBool false); (lit "error", VStr (lit error));
    (lit "details", VStr details) ].

Definition contract_value (c : ContractInfo) : value :=
  VObj [ (lit "name", VStr (ci_name c)); (lit "symbol", VStr (ci_symbol c));
         (lit "owner", VStr (ci_owner c));
         (lit "totalSupply", VStr (ci_totalSupply c));
         (lit "address", env_value (ci_address c)) ].

Definition nft_value (n : WalletNft) : value :=
  VObj [ (lit "tokenId", VStr (nft_tokenId n)); (lit "name", nft_name n);
         (lit "description", nft_description n);
         (lit "attributes", nft_attributes n) ].

(** Properties read from the result of [mintTextNFT]; one that the result
    does not have is [undefined]. *)
Definition result_message (r : MintResult) : value :=
  match r with Prepared m _ _ _ => VStr m | Minted _ _ _ _ => VUndefined end.
Definition result_contract (r : MintResult) : value :=
  match r with Prepared _ c _ _ => c | Minted _ _ _ _ => VUndefined end.
Definition result_tokenMetadata (r : MintResult) : value :=
  match r with Prepared _ _ m _ => m | Minted _ _ _ _ => VUndefined end.
Definition result_instructions (r : MintResult) : value :=
  match r with
  | Prepared _ _ _ i => VArr (map VStr i)
  | Minted _ _ _ _ => VUndefined
  end.
Definition result_tokenId (r : MintResult) : value :=
  match r with Minted t _ _ _ => t | Prepared _ _ _ _ => VUndefined end.
Definition result_transactionHash (r : MintResult) : value :=
  match r with Minted _ h _ _ => VStr h | Prepared _ _ _ _ => VUndefined end.
Definition result_to (r : MintResult) : value :=
  match r with Minted _ _ t _ => VStr t | Prepared _ _ _ _ => VUndefined end.
Definition result_metadata (r : MintResult) : value :=
  match r with Minted _ _ _ m => m | Prepared _ _ _ _ => VUndefined end.

Definition minted_body (r : MintResult) : list (jsstring * value) :=
  [ (lit "success", VBool true); (lit "status", VStr (lit "minted"));
    (lit "tokenId", result_tokenId r);
    (lit "transactionHash", result_transactionHash r);
    (lit "to", result_to r); (lit "metadata", result_metadata r) ].

(** ** Handlers shared by the two servers *)

(** GET /api/contract *)
Definition contract_handler (w : world) : M response :=
  try_catch
    (contractInfo <- getContractInfo w ;;
     ret (json 200 [ (lit "success", VBool true);
                     (lit "contract", contract_value contractInfo) ]))
    (fun message =>
       ret (json 500 (failure_details "Failed to fetch contract info" message))).

(** POST /api/mint/text/prepare; the parameters [mintTextNFT] is not given
    take their default, [null]. *)
Definition prepare_handler (w : world) (req : request) : M response :=
  try_catch
    (if negb (truthy (text req)) then
       ret (json 400 (failure "Missing required field: text"))
     else
       result <- mintTextNFT w (text req) false VNull VNull VNull ;;
       ret (json 200 [ (lit "success", VBool true);
                       (lit "status", VStr (lit "prepared"));
                       (lit "message", result_message result);
                       (lit "contract", result_contract result);
                       (lit "metadata", result_tokenMetadata result);
                       (lit "instructions", result_instructions result) ]))
    (fun message =>
       ret (json 500 (failure_details "Failed to prepare NFT" message))).

(** POST /api/mint/text *)
Definition mint_handler (w : world) (req : request) : M response :=
  try_catch
    (if negb (truthy (text req)) then
       ret (json 400 (failure "Missing required field: text"))
     else
       noKey <- lift (missing_or_blank "privateKey" (privateKey req)) ;;
       if noKey then
         ret (json 400 (failure "Missing required field: privateKey"))
       else
         noAddress <- lift (missing_or_blank "toAddress" (toAddress req)) ;;
         if noAddress then
           ret (json 400 (failure "Missing required field: toAddress (wallet address)"))
         else
           result <- mintTextNFT w (text req) true
                                 (privateKey req) (toAddress req) VNull ;;
           match result with
           | Minted _ _ _ _ => ret (json 200 (minted_body result))
           | Prepared _ _ _ _ =>
               ret (json 500 (failure_details "Failed to mint NFT"
                                (lit "Unexpected response from minting function")))
           end)
    (fun message =>
       ret (json 500 (failure_details "Failed to mint NFT" message))).

(** ** src/index.js *)

(** GET /health *)
Definition index_health : response :=
  json 200 [ (lit "status", VStr (lit "healthy")) ].

(** POST /api/mint/text/with-private-key *)
Definition mint_with_key_handler (w : world) (req : request) : M response :=
  try_catch
    (if negb (truthy (text req)) then
       ret (json 400 (failure "Missing required field: text"))
     else if negb (truthy (privateKey req)) then
       ret (json 400 (failure "Missing required field: privateKey"))
     else
       noAddress <- lift (missing_or_blank "toAddress" (toAddress req)) ;;
       if noAddress then
         ret (json 400 (failure "Missing required field: toAddress (wallet address)"))
       else
         result <- mintTextNFTWithPrivateKey w (text req)
                                             (privateKey req) (toAddress req) VNull ;;
         ret (json 200 (minted_body result)))
    (fun message =>
       ret (json 500 (failure_details "Failed to mint NFT" message))).

Definition nfts_body (wallet : jsstring) (nfts : list WalletNft)
  : list (jsstring * value) :=
  [ (lit "wallet", VStr wallet);
    (lit "count", VNum (decimal (N.of_nat (List.length nfts))));
    (lit "nfts", VArr (map nft_value nfts)) ].

(** GET /api/nfts/:walletAddress *)
Definition index_nfts_handler (w : world) (req : request) : M response :=
  try_catch
    (if falsy (param_walletAddress req) then
       ret (json 400 (failure "Missing required parameter: walletAddress"))
     else
       let walletAddress := present (param_walletAddress req) in
       nfts <- getWalletNFTs w (VStr walletAddress) ;;
       ret (json 200 ((lit "success", VBool true) :: nfts_body walletAddress nfts)))
    (fun message =>
       ret (json 500 (failure_details "Failed to fetch NFTs" message))).

(** POST /api/test/private-key *)
Definition index_test_key_handler (w : world) (req : request) : M response :=
  try_catch
    (if negb (truthy (privateKey req)) then
       ret (json 400 (failure "Missing required field: privateKey"))
     else
       key <- lift (trim_receiver "privateKey" (privateKey req)) ;;
       let privateKeyStr := trim key in
       match formatPrivateKey key with
       | Throw message =>
           ret (json 400 [ (lit "success", VBool false);
                           (lit "error", VStr message) ])
       | Ok formattedPrivateKey =>
           try_catch
             (account <- perform (PrivateKeyToAccount formattedPrivateKey)
                                 (privateKeyToAccount w formattedPrivateKey) ;;
              ret (json 200
                     [ (lit "success", VBool true);
                       (lit "message", VStr (lit "Private key formatted correctly"));
                       (lit "derivedAddress", VStr (address account));
                       (lit "originalLength",
                         VNum (decimal (N.of_nat (List.length privateKeyStr))));
                       (lit "formattedLength",
                         VNum (decimal (N.of_nat (List.length formattedPrivateKey))));
                       (lit "hadPrefix", VBool (startsWith (lit "0x") privateKeyStr)) ]))
             (fun message =>
                ret (json 400 (failure_details "Invalid private key format" message)))
       end)
    (fun message =>
       ret (json 500 (failure_details "Failed to test private key" message))).

(** A route handler is entered, then runs. *)
Definition handle (name : string) (h : M response) : M response :=
  _ <- perform (RouteHandler (lit name)) (Ok tt) ;; h.

(** The server of src/index.js: [express.json()], then the routes; a body
    that does not parse, or a request no route matches, gets Express's own
    page. *)
Definition index_app (w : world) (req : request) : M response :=
  if body_rejected req then ret (mkResponse 400 [] ExpressPage)
  else
    match target req with
    | Health => handle "GET /health" (ret index_health)
    | Contract => handle "GET /api/contract" (contract_handler w)
    | MintPrepare => handle "POST /api/mint/text/prepare" (prepare_handler w req)
    | MintText => handle "POST /api/mint/text" (mint_handler w req)
    | MintWithPrivateKey =>
        handle "POST /api/mint/text/with-private-key" (mint_with_key_handler w req)
    | NftsGet => handle "GET /api/nfts/:walletAddress" (index_nfts_handler w req)
    | TestPrivateKey => handle "POST /api/test/private-key" (index_test_key_handler w req)
    | NftsPost | Unmatched => ret (mkResponse 404 [] ExpressPage)
    end.

(** ** The server guarded by an API key *)

(** What a middleware does: it sends a response, or calls [next()]. *)
Inductive outcome : Type :=
| Respond (r : response)
| Next.

(** [validateApiKey(req, res, next)] *)
Definition validateApiKey (w : world) (req : request) : outcome :=
  let apiKey := x_api_key req in
  if falsy apiKey then
    Respond (json 401
               [ (lit "success", VBool false);
                 (lit "error", VStr (lit "API key is required"));
                 (lit "message",
                   VStr (lit "Please provide an API key in the 'x-api-key' header")) ])
  else if negb (match apiKey, SERVER_API_KEY w with
                | Some k, Some secret => str_eqb k secret
                | _, _ => false
                end) then
    Respond (json 403
               [ (lit "success", VBool false);
                 (lit "error", VStr (lit "Invalid API key"));
                 (lit "message", VStr (lit "The provided API key is not valid")) ])
  else Next.

(** GET /health *)
Definition secured_health (w : world) : response :=
  json 200 [ (lit "status", VStr (lit "healthy"));
             (lit "message", VStr (lit "API is functioning correctly"));
             (lit "timestamp", VStr (now_iso w)) ].

(** [/^0x[a-fA-F0-9]{40}$/.test(s)] for a string [s] *)
Definition ethAddressRegex_test (walletAddress : jsstring) : bool :=
  startsWith (lit "0x") walletAddress
  && Nat.eqb (List.length walletAddress) 42
  && forallb is_hex_digit (skipn 2 walletAddress).

(** [walletAddress.substring(0, 6) + "..." + walletAddress.substring(walletAddress.length - 4)]
    for a string *)
Definition mask (walletAddress : jsstring) : jsstring :=
  substring_to 6 walletAddress ++ lit "..."
    ++ substring_from (List.length walletAddress - 4) walletAddress.

(** The same expression for any value: only a string has [substring]. *)
Definition masked (walletAddress : value) : result jsstring :=
  match walletAddress with
  | VStr s => Ok (mask s)
  | VUndefined =>
      Throw (lit "Cannot read properties of undefined (reading 'substring')")
  | VNull =>
      Throw (lit "Cannot read properties of null (reading 'substring')")
  | VBool _ | VNum _ | VArr _ | VObj _ =>
      Throw (lit "walletAddress.substring is not a function")
  end.

(** The two wallet queries of the guarded server.  [test] converts its
    argument to a string, and throws when that conversion does.  The
    headers [h] are set once [getWalletNFTs] has returned, before the body
    is built: the [catch] that answers a throw of [substring] then sends
    them too. *)
Definition nfts_query (w : world) (walletAddress : value) (missing : string)
    (extra : list (jsstring * value)) (h : list (jsstring * jsstring))
  : M response :=
  try_catch
    (if negb (truthy walletAddress) then ret (json 400 (failure missing))
     else
       tested <- lift (template_text walletAddress) ;;
       if negb (ethAddressRegex_test tested) then
         ret (json 400 (failure "Invalid wallet address format"))
       else
         nfts <- getWalletNFTs w walletAddress ;;
         match masked walletAddress with
         | Ok wallet =>
             ret (with_headers h
                    (json 200 ((lit "success", VBool true)
                                 :: extra ++ nfts_body wallet nfts)))
         | Throw message =>
             ret (with_headers h
                    (json 500 (failure_details "Failed to fetch NFTs" message)))
         end)
    (fun message =>
       ret (json 500 (failure_details "Failed to fetch NFTs" message))).

(** POST /api/nfts *)
Definition secured_nfts_post_handler (w : world) (req : request) : M response :=
  nfts_query w (walletAddress req) "Missing required field: walletAddress" []
    [ (lit "X-RateLimit-Limit", lit "100"); (lit "X-RateLimit-Remaining", lit "99") ].

Definition deprecation_notice : jsstring :=
  lit "This endpoint is deprecated. Please use POST /api/nfts instead.".

(** GET /api/nfts/:walletAddress, deprecated *)
Definition secured_nfts_get_handler (w : world) (req : request) : M response :=
  r <- nfts_query w (param_value (param_walletAddress req))
         "Missing required parameter: walletAddress"
         [ (lit "deprecated", VBool true); (lit "message", VStr deprecation_notice) ]
         [] ;;
  ret (with_headers [ (lit "X-Deprecated-API", deprecation_notice) ] r).

(** POST /api/test/private-key *)
Definition secured_test_key_handler (w : world) (req : request) : M response :=
  try_catch
    (if negb (truthy (privateKey req)) then
       ret (json 400 (failure "Missing required field: privateKey"))
     else
       key <- lift (trim_receiver "privateKey" (privateKey req)) ;;
       match formatPrivateKey key with
       | Throw message =>
           ret (json 400 [ (lit "success", VBool false);
                           (lit "error", VStr message) ])
       | Ok formattedPrivateKey =>
           try_catch
             (account <- perform (PrivateKeyToAccount formattedPrivateKey)
                                 (privateKeyToAccount w formattedPrivateKey) ;;
              ret (json 200
                     [ (lit "success", VBool true);
                       (lit "message", VStr (lit "Private key format is valid"));
                       (lit "address", VStr (address account)) ]))
             (fun message =>
                ret (json 400 (failure_details "Invalid private key format" message)))
       end)
    (fun message =>
       ret (json 500 (failure_details "Failed to validate private key" message))).

(** The error-handling middleware, last in the chain. *)
Definition error_middleware : response :=
  json 500 [ (lit "success", VBool false);
             (lit "error", VStr (lit "Internal Server Error"));
             (lit "message", VStr (lit "An unexpected error occurred")) ].

(** What runs after [validateApiKey] has called [next()]. *)
Definition secured_routes (w : world) (req : request) : M response :=
  if body_rejected req then ret error_middleware
  else
    match target req with
    | Health => handle "GET /health" (ret (secured_health w))
    | Contract => handle "GET /api/contract" (contract_handler w)
    | MintPrepare => handle "POST /api/mint/text/prepare" (prepare_handler w req)
    | MintText => handle "POST /api/mint/text" (mint_handler w req)
    | NftsPost => handle "POST /api/nfts" (secured_nfts_post_handler w req)
    | NftsGet => handle "GET /api/nfts/:walletAddress" (secured_nfts_get_handler w req)
    | TestPrivateKey =>
        handle "POST /api/test/private-key" (secured_test_key_handler w req)
    | MintWithPrivateKey | Unmatched => ret (mkResponse 404 [] ExpressPage)
    end.

(** The guarded server: [validateApiKey] is the first middleware. *)
Definition secured_app (w : world) (req : request) : M response :=
  match validateApiKey w req with
  | Respond r => ret r
  | Next => secured_routes w req
  end.

End Server.

(* ===================================================================== *)
(** * Vocabulary of the properties *)
(* ===================================================================== *)

Module Props.

Import Js Sdk NftService Server.

(** [s.includes(pat)] *)
Fixpoint includes (pat s : jsstring) : bool :=
  startsWith pat s
  || match s with
     | [] => false
     | _ :: r => includes pat r
     end.

(** The calls that use a private key or touch a transaction. *)
Definition signing_call (c : call) : bool :=
  match c with
  | PrivateKeyToAccount _ | PrepareContractCall _ _ | SendTransaction _ _ => true
  | _ => false
  end.

Definition no_signing (t : list call) : bool :=
  forallb (fun c => negb (signing_call c)) t.

(** A key as the signing primitive wants it: 64 hexadecimal digits. *)
Definition bare_key (s : jsstring) : bool :=
  Nat.eqb (List.length s) 64 && forallb is_hex_digit s.

(** The same with the [0x] prefix. *)
Definition prefixed_key (s : jsstring) : bool :=
  startsWith (lit "0x") s && bare_key (skipn 2 s).

(** The metadata a result of [mintTextNFT] carries. *)
Definition metadata_of (r : MintResult) : value :=
  match r with
  | Prepared _ _ m _ => m
  | Minted _ _ _ m => m
  end.

Definition member (key : string) (v : value) : option value :=
  match v with
  | VObj ms => lookup (lit key) ms
  | _ => None
  end.

(** What index [i] resolves to, when its resolution does not throw. *)
Definition resolved_at (w : world) (walletAddress : value) (i : N)
  : option WalletNft :=
  match fst (resolveToken w walletAddress i []) with
  | Ok nft => Some nft
  | Throw _ => None
  end.

(** [i, i+1, ..., i+count-1] *)
Fixpoint indices (count : nat) (i : N) : list N :=
  match count with
  | O => []
  | S c => i :: indices c (i + 1)%N
  end.

(** The tokens of the indices [i, ..., i+count-1] that resolve, in
    ascending index order. *)
Definition resolved_from (w : world) (walletAddress : value) (count : nat)
    (i : N) : list WalletNft :=
  flat_map (fun j => match resolved_at w walletAddress j with
                     | Some nft => [nft]
                     | None => []
                     end) (indices count i).


(** A field that is missing, or blank after trim: a falsy value, or a
    string that [trim] empties. *)
Definition blank (x : value) : bool :=
  negb (truthy x)
  || match x with
     | VStr s => str_eqb (trim s) []
     | _ => false
     end.

(** A field that is there and is not a string: a number, [true], an array
    or an object. *)
Definition not_a_string (x : value) : bool :=
  truthy x
  && match x with
     | VStr _ => false
     | _ => true
     end.

(** An argument that is a string, or is left out: its parameter then has
    its default, [null]. *)
Definition optional (x : option jsstring) : value :=
  match x with
  | Some s => VStr s
  | None => VNull
  end.

(** [description || "CRUXZ NFT"] for such an argument. *)
Definition description_or_default (description : option jsstring) : jsstring :=
  match description with
  | Some (c :: r) => c :: r
  | Some [] | None => lit "CRUXZ NFT"
  end.

(** The message of the TypeError of calling [trim] on such a field. *)
Definition no_trim (name : string) : jsstring :=
  lit name ++ lit ".trim is not a function".

(** [metadata.key] for a metadata that is not [null]: the member of an
    object, [undefined] for any other value. *)
Definition property (metadata : value) (key : string) : value :=
  match metadata with
  | VObj ms => match lookup (lit key) ms with
               | Some v => v
               | None => VUndefined
               end
  | _ => VUndefined
  end.

(** A JSON body with a boolean field [success]. *)
Definition has_success (b : body) : Prop :=
  exists members flag,
    b = Json (VObj members) /\ lookup (lit "success") members = Some (VBool flag).

(** A response that is a page of Express, or JSON with [success]. *)
Definition success_or_page (r : response) : Prop :=
  payload r = ExpressPage \/ has_success (payload r).

(** A computation that always answers, with a response satisfying [P]. *)
Definition answers (P : response -> Prop) (m : M response) : Prop :=
  forall t, exists r t', m t = (Ok r, t') /\ P r.

(** A computation whose response, when it answers, satisfies [P]. *)
Definition answers_or_throws (P : response -> Prop) (m : M response) : Prop :=
  forall t r t', m t = (Ok r, t') -> P r.

(** ** A world to run examples in *)

Definition demo_key : jsstring :=
  lit "00112233445566778899aabbccddeeff00112233445566778899AABBCCDDEEFF".

Definition demo_address : jsstring := lit "0x1234567890abcdef1234567890abcdef12345678".

Definition demo_topic (n : N) : jsstring :=
  lit "0x00000000000000000000000000000000000000000000000000000000000000" ++ decimal n.

(** A chain with three tokens for every owner: the token of index 1
    cannot be looked up, token 12 carries metadata minted by this service;
    a transaction that is sent comes back with its hash. *)
Definition demo_world : world :=
  mkWorld (Some (lit "0xc0ffee254729296a45a3885639AC7E10F9d54979"))
          (Some (lit "s3cret"))
          (lit "2025-01-02T03:04:05.678Z")
          (Ok tt)
          (Ok (lit "CruxzNFT")) (Ok (lit "CRUXZNFT")) (Ok demo_address) (Ok 3%N)
          (fun _ => Ok 3%N)
          (fun _ i => if (i =? 1)%N then Throw (lit "execution reverted")
                      else Ok (10 + i)%N)
          (fun tokenId =>
             if (tokenId =? 12)%N then
               metadataUriOf (buildMetadata (VStr (lit "hello")) (VStr (lit "a note"))
                                            (lit "2024-12-31T23:59:59.000Z"))
             else Ok (lit "ipfs://token"))
          (fun _ => Ok (mkAccount demo_address))
          (fun to uri => Ok (mkTransaction to uri))
          (fun _ _ => Ok (sent_without_receipt (lit "0xabc"))).

Definition demo_request : request :=
  mkRequest MintText (Some (lit "s3cret")) false
            (VStr (lit "hello")) VUndefined (VStr demo_address) VUndefined None.

End Props.

(* ===================================================================== *)
(** * Other worlds to run examples in *)
(* ===================================================================== *)

Module Scenarios.

Import Js Sdk NftService Server Props.

(** A world that differs from [w] in what one call answers. *)
Definition with_getContract (w : world) (answer : result unit) : world :=
  mkWorld (NFT_CONTRACT_ADDRESS w) (SERVER_API_KEY w) (now_iso w) answer
          (readName w) (readSymbol w) (readOwner w) (readTotalSupply w)
          (balanceOf w) (tokenOfOwnerByIndex w) (tokenURI w)
          (privateKeyToAccount w) (prepareContractCall w) (sendTransaction w).

Definition with_readSymbol (w : world) (answer : result jsstring) : world :=
  mkWorld (NFT_CONTRACT_ADDRESS w) (SERVER_API_KEY w) (now_iso w) (getContract w)
          (readName w) answer (readOwner w) (readTotalSupply w)
          (balanceOf w) (tokenOfOwnerByIndex w) (tokenURI w)
          (privateKeyToAccount w) (prepareContractCall w) (sendTransaction w).

Definition with_readOwner (w : world) (answer : result jsstring) : world :=
  mkWorld (NFT_CONTRACT_ADDRESS w) (SERVER_API_KEY w) (now_iso w) (getContract w)
          (readName w) (readSymbol w) answer (readTotalSupply w)
          (balanceOf w) (tokenOfOwnerByIndex w) (tokenURI w)
          (privateKeyToAccount w) (prepareContractCall w) (sendTransaction w).

Definition with_balanceOf (w : world) (answer : value -> result N) : world :=
  mkWorld (NFT_CONTRACT_ADDRESS w) (SERVER_API_KEY w) (now_iso w) (getContract w)
          (readName w) (readSymbol w) (readOwner w) (readTotalSupply w)
          answer (tokenOfOwnerByIndex w) (tokenURI w)
          (privateKeyToAccount w) (prepareContractCall w) (sendTransaction w).

Definition with_tokenURI (w : world) (answer : N -> result jsstring) : world :=
  mkWorld (NFT_CONTRACT_ADDRESS w) (SERVER_API_KEY w) (now_iso w) (getContract w)
          (readName w) (readSymbol w) (readOwner w) (readTotalSupply w)
          (balanceOf w) (tokenOfOwnerByIndex w) answer
          (privateKeyToAccount w) (prepareContractCall w) (sendTransaction w).

Definition with_sendTransaction (w : world)
    (answer : Transaction -> Account -> result SendResult) : world :=
  mkWorld (NFT_CONTRACT_ADDRESS w) (SERVER_API_KEY w) (now_iso w) (getContract w)
          (readName w) (readSymbol w) (readOwner w) (readTotalSupply w)
          (balanceOf w) (tokenOfOwnerByIndex w) (tokenURI w)
          (privateKeyToAccount w) (prepareContractCall w) answer.

(** The instructions of the prepare path. *)
Definition prepare_message : jsstring :=
  lit "To mint an NFT, you need to call this contract directly with the owner's wallet".

Definition prepare_instructions (w : world) : list jsstring :=
  [ lit "1. Connect your wallet to Thirdweb dashboard";
    lit "2. Access your contract at " ++ env_text (NFT_CONTRACT_ADDRESS w);
    lit "3. Use the mintTo function with your wallet address and the metadata";
    lit "4. Or integrate a client-side wallet connector like Metamask" ].

(** The calls of a mint that goes through, in order. *)
Definition mint_calls (key : jsstring) (to uri : jsstring) (tx : Transaction)
    (account : Account) : list call :=
  [ GetContract; PrivateKeyToAccount key; PrepareContractCall to uri;
    SendTransaction tx account ].

(** The token id the inner [try] of [mintTextNFT] leaves, read off the
    result of [sendTransaction]. *)
Definition tokenId_after (sent : SendResult) : value :=
  match receipt sent with
  | None => VStr (lit "unknown")
  | Some rc =>
      match logs rc with
      | Some (first :: _) =>
          match topics first with
          | Some ts =>
              match nth_error ts 3 with
              | Some topic => VStr topic
              | None => VUndefined
              end
          | None => VStr (lit "unknown")
          end
      | Some [] | None => VStr (lit "unknown")
      end
  end.

(** A receipt whose first log is a Transfer with its four topics. *)
Definition transfer_receipt : SendResult :=
  mkSendResult (lit "0xabc")
    (Some (mkReceipt
       (Some [ mkLogEntry
                 (Some [demo_topic 10; demo_topic 11; demo_topic 12; demo_topic 13]) ]))).

(** The reads [getWalletNFTs] makes for one index. *)
Definition token_read (c : call) : bool :=
  match c with
  | ReadTokenOfOwnerByIndex _ _ | ReadTokenURI _ => true
  | _ => false
  end.

(** The headers POST /api/nfts stamps on a success. *)
Definition rate_limit_headers : list (jsstring * jsstring) :=
  [ (lit "X-RateLimit-Limit", lit "100"); (lit "X-RateLimit-Remaining", lit "99") ].

(** Code units of the ASCII range. *)
Definition ascii_only (s : jsstring) : bool := forallb (fun c => (c <? 128)%N) s.

(** A request with the given route, body fields and path parameter, and
    the demo API key. *)
Definition request_of (r : route) (text privateKey toAddress walletAddress : value)
    (param : option jsstring) : request :=
  mkRequest r (Some (lit "s3cret")) false text privateKey toAddress walletAddress param.

End Scenarios.

(* ===================================================================== *)
(** * Proofs *)
(* ===================================================================== *)

Import Js JsSpec Sdk NftService Server Props.

(** ** The model at work *)

Example trim_removes_outer_space :
  trim (lit "  0xab cd ") = lit "0xab cd".
Proof. reflexivity. Qed.

Example base64_of_hello :
  base64_encode (utf8_encode (lit "hello")) = lit "aGVsbG8="
  /\ utf8_decode (base64_decode (lit "aGVsbG8=")) = lit "hello".
Proof. split; reflexivity. Qed.

Example utf8_of_pair_and_lone_surrogate :
  utf8_encode [0xD83D; 0xDE00; 0x20AC; 0xD800]%N
    = [0xF0; 0x9F; 0x98; 0x80; 0xE2; 0x82; 0xAC; 0xEF; 0xBF; 0xBD]%N.
Proof. reflexivity. Qed.

Example stringify_escapes :
  JSON_stringify (VArr [VStr [0x0A; 0xD800; 0x41]%N; VUndefined; VBool true])
    = Some (0x5B :: 0x22 :: lit "\n\ud800A" ++ 0x22 :: lit ",null,true]")%N.
Proof. reflexivity. Qed.

Example parse_keeps_last_duplicate :
  JSON_parse (lit " { 'a' : 1 , 'b' : [ ] , 'a' : null } ") = None
  /\ JSON_parse (0x7B :: 0x22 :: lit "a" ++ 0x22 :: lit ":1," ++ 0x22 :: lit "a"
                   ++ 0x22 :: lit ": null}")%N
     = Some (VObj [ (lit "a", VNull) ]).
Proof. split; vm_compute; reflexivity. Qed.

Example parse_rejects_leading_zero_and_trailing_comma :
  JSON_parse (lit "01") = None /\ JSON_parse (lit "[1,]") = None
  /\ JSON_parse (lit " [1, -2.5e+3] ") = Some (VArr [VNum (lit "1"); VNum (lit "-2.5e+3")]).
Proof. repeat split; vm_compute; reflexivity. Qed.

Example parse_lists_array_indices_first :
  JSON_parse (0x7B :: 0x22 :: lit "b" ++ 0x22 :: lit ":true," ++ 0x22 :: lit "2"
                ++ 0x22 :: lit ":null," ++ 0x22 :: lit "a" ++ 0x22 :: lit ":[],"
                ++ 0x22 :: lit "1" ++ 0x22 :: lit ":false," ++ 0x22 :: lit "01"
                ++ 0x22 :: lit ":{}}")%N
    = Some (VObj [ (lit "1", VBool false); (lit "2", VNull); (lit "b", VBool true);
                   (lit "a", VArr []); (lit "01", VObj []) ]).
Proof. vm_compute. reflexivity. Qed.

Example numbers_are_doubles :
  truthy (VNum (lit "1e-400")) = false
  /\ truthy (VNum (lit "-0.0")) = false
  /\ truthy (VNum (lit "5e-324")) = true
  /\ JSON_stringify (VArr [ VNum (lit "1.0"); VNum (lit "1e21"); VNum (lit "0.1e-6");
                            VNum (lit "1e400"); VNum (lit "-0");
                            VNum (lit "9007199254740993"); VNum (lit "-12.50") ])
     = Some (lit "[1,1e+21,1e-7,null,0,9007199254740992,-12.5]").
Proof. repeat split; vm_compute; reflexivity. Qed.

Example text_of_values :
  to_string (VArr [ VStr (lit "0x12"); VNull;
                    VArr [VNum (lit "1.50"); VBool true] ])
    = Some (lit "0x12,,1.5,true")
  /\ to_string (VObj [ (lit "a", VNull) ]) = Some (lit "[object Object]")
  /\ to_string (VObj [ (lit "toString", VNull) ]) = None.
Proof. repeat split; vm_compute; reflexivity. Qed.

Example base64_reads_the_low_byte :
  utf8_decode (base64_decode ([0x161; 0x247]%N ++ lit "VsbG8=")) = lit "hello".
Proof. reflexivity. Qed.

Example address_pattern :
  ethAddressRegex_test demo_address = true
  /\ ethAddressRegex_test (lit "1234567890abcdef1234567890abcdef12345678") = false
  /\ ethAddressRegex_test (demo_address ++ lit "0") = false
  /\ ethAddressRegex_test (lit "0x1234567890abcdef1234567890abcdef1234567g") = false.
Proof. repeat split; reflexivity. Qed.

Example masked_wallet : mask demo_address = lit "0x1234...5678".
Proof. reflexivity. Qed.

Example prepare_route_makes_no_signing_call :
  exists r t,
    prepare_handler demo_world demo_request [] = (Ok r, t)
    /\ status r = 200%nat /\ no_signing t = true.
Proof. do 2 eexists. split; [vm_compute; reflexivity|]. split; reflexivity. Qed.

(** ** Strings *)

Lemma str_eqb_eq (a b : jsstring) : str_eqb a b = true <-> a = b.
Proof.
  unfold str_eqb. destruct (list_eq_dec N.eq_dec a b); split; congruence.
Qed.

Lemma str_eqb_refl (a : jsstring) : str_eqb a a = true.
Proof. apply str_eqb_eq. reflexivity. Qed.

Lemma startsWith_app (p r : jsstring) : startsWith p (p ++ r) = true.
Proof.
  induction p as [|a p IH]; simpl; [reflexivity|].
  rewrite N.eqb_refl. exact IH.
Qed.

Lemma startsWith_split (p s : jsstring) :
  startsWith p s = true -> s = p ++ skipn (List.length p) s.
Proof.
  revert s. induction p as [|a p IH]; intros s H; simpl in *; [reflexivity|].
  destruct s as [|b s]; [discriminate|].
  apply andb_true_iff in H. destruct H as [Hab Hp].
  apply N.eqb_eq in Hab. subst b. simpl. f_equal. apply IH. exact Hp.
Qed.

Lemma includes_unfold (p s : jsstring) :
  includes p s =
    startsWith p s || match s with [] => false | _ :: r => includes p r end.
Proof. destruct s; reflexivity. Qed.

Lemma includes_here (p r : jsstring) : includes p (p ++ r) = true.
Proof. rewrite includes_unfold, startsWith_app. reflexivity. Qed.

Lemma includes_later (p a s : jsstring) :
  includes p s = true -> includes p (a ++ s) = true.
Proof.
  intros H. induction a as [|c a IH]; [exact H|].
  rewrite includes_unfold. cbn [app]. rewrite IH. apply orb_true_r.
Qed.

Lemma key_length_message_echo (s : jsstring) :
  includes (decimal (N.of_nat (List.length s))) (key_length_message s) = true.
Proof.
  unfold key_length_message. apply includes_later. apply includes_here.
Qed.

Lemma formatPrivateKey_rejects (privateKey : jsstring) :
  List.length (trim privateKey) <> 64%nat ->
  List.length (trim privateKey) <> 66%nat ->
  formatPrivateKey privateKey = Throw (key_length_message (trim privateKey)).
Proof.
  intros H64 H66. unfold formatPrivateKey.
  apply Nat.eqb_neq in H64. apply Nat.eqb_neq in H66.
  rewrite H64, H66. reflexivity.
Qed.

Lemma formatPrivateKey_accepts (privateKey : jsstring) :
  List.length (trim privateKey) = 64%nat \/ List.length (trim privateKey) = 66%nat ->
  formatPrivateKey privateKey =
    Ok (if startsWith (lit "0x") (trim privateKey)
        then skipn 2 (trim privateKey) else trim privateKey).
Proof.
  intros H. unfold formatPrivateKey, substring_from.
  destruct H as [H|H]; rewrite H; reflexivity.
Qed.

(* --------------------------------------------------------------------- *)
(** ** The runtime: base64, UTF-8 and JSON round trips *)

Section Runtime.

Local Open Scope N_scope.

(** ** Base64 *)

Lemma list_ind3 {A : Type} (P : list A -> Prop) :
  P [] -> (forall a, P [a]) -> (forall a b, P [a; b]) ->
  (forall a b c r, P r -> P (a :: b :: c :: r)) ->
  forall l, P l.
Proof.
  intros H0 H1 H2 H3 l.
  assert (H : P l /\ (forall a, P (a :: l)) /\ (forall a b, P (a :: b :: l))).
  { induction l as [|x l [IH0 [IH1 IH2]]].
    - repeat split; auto.
    - repeat split; auto. }
  exact (proj1 H).
Qed.

Lemma b64_value_char (n : N) : n < 64 -> b64_value (b64_char n) = Some n.
Proof.
  intros H. unfold b64_char, b64_value.
  destruct (n <? 26) eqn:E1.
  { replace ((65 <=? 65 + n) && (65 + n <=? 90)) with true by lia. f_equal. lia. }
  destruct (n <? 52) eqn:E2.
  { replace ((65 <=? 71 + n) && (71 + n <=? 90)) with false by lia.
    replace ((97 <=? 71 + n) && (71 + n <=? 122)) with true by lia. f_equal. lia. }
  destruct (n <? 62) eqn:E3.
  { replace ((65 <=? n - 4) && (n - 4 <=? 90)) with false by lia.
    replace ((97 <=? n - 4) && (n - 4 <=? 122)) with false by lia.
    replace ((48 <=? n - 4) && (n - 4 <=? 57)) with true by lia. f_equal. lia. }
  destruct (n =? 62) eqn:E4.
  { apply N.eqb_eq in E4. subst n. reflexivity. }
  assert (n = 63) by lia. subst n. reflexivity.
Qed.

Lemma b64_char_not_pad (n : N) : n < 64 -> (b64_char n =? 61) = false.
Proof.
  intros H. unfold b64_char.
  destruct (n <? 26) eqn:E1; [lia|].
  destruct (n <? 52) eqn:E2; [lia|].
  destruct (n <? 62) eqn:E3; [lia|].
  destruct (n =? 62); reflexivity.
Qed.

Lemma b64_char_low_byte (n : N) : b64_char n mod 256 = b64_char n.
Proof.
  unfold b64_char.
  destruct (n <? 26) eqn:E1; [lia|].
  destruct (n <? 52) eqn:E2; [lia|].
  destruct (n <? 62) eqn:E3; [lia|].
  destruct (n =? 62); reflexivity.
Qed.

Lemma b64_sextets_char (n : N) (r : jsstring) :
  n < 64 -> b64_sextets (b64_char n :: r) = n :: b64_sextets r.
Proof.
  intros H. cbn [b64_sextets]. cbv zeta. rewrite b64_char_low_byte.
  rewrite (b64_char_not_pad n H), (b64_value_char n H). reflexivity.
Qed.

Lemma b64_sextets_pad (r : jsstring) : b64_sextets (61 :: r) = [].
Proof. reflexivity. Qed.

Lemma base64_round_trip (bytes : buffer) :
  Forall is_byte bytes -> base64_decode (base64_encode bytes) = bytes.
Proof.
  unfold base64_decode, is_byte.
  induction bytes as [|a|a b|a b c r IH] using list_ind3; intros H.
  - reflexivity.
  - inversion H as [|? ? Ha _]; subst. cbn [base64_encode].
    rewrite !b64_sextets_char by lia. rewrite b64_sextets_pad. cbn [sextets_bytes].
    f_equal. lia.
  - inversion H as [|? ? Ha H1]; subst. inversion H1 as [|? ? Hb _]; subst.
    cbn [base64_encode].
    rewrite !b64_sextets_char by lia. rewrite b64_sextets_pad. cbn [sextets_bytes].
    f_equal; [lia|]. f_equal. lia.
  - inversion H as [|? ? Ha H1]; subst. inversion H1 as [|? ? Hb H2]; subst.
    inversion H2 as [|? ? Hc H3]; subst.
    cbn [base64_encode].
    rewrite !b64_sextets_char by lia. cbn [sextets_bytes].
    rewrite (IH H3). f_equal; [lia|]. f_equal; [lia|]. f_equal. lia.
Qed.

(** ** UTF-8 *)

Ltac decide_test :=
  match goal with
  | |- context [if ?b then _ else _] =>
      first [ replace b with true by lia | replace b with false by lia ]
  end; cbv beta iota.

Lemma utf8_run_code_point (cp : N) (rest : buffer) :
  cp < 0x110000 -> cp < 0xD800 \/ 0xDFFF < cp ->
  utf8_run utf8_init (utf8_of_code_point cp ++ rest)
    = utf16_units cp ++ utf8_run utf8_init rest.
Proof.
  intros Hmax Hscalar. unfold utf8_of_code_point.
  destruct (cp <? 0x80) eqn:E1; [|destruct (cp <? 0x800) eqn:E2;
                                   [|destruct (cp <? 0x10000) eqn:E3]].
  - cbn [app utf8_run]. unfold utf8_step, utf8_lead, utf8_init at 1.
    cbn [u_need]. repeat decide_test. unfold utf16_units. repeat decide_test.
    reflexivity.
  - cbn [app utf8_run]. unfold utf8_step, utf8_lead, utf8_init at 1.
    cbn [u_need u_cp u_lower u_upper]. repeat decide_test.
    cbn [u_need u_cp u_lower u_upper app]. repeat decide_test.
    do 2 f_equal. lia.
  - cbn [app utf8_run]. unfold utf8_step, utf8_lead, utf8_init at 1.
    cbn [u_need u_cp u_lower u_upper]. repeat decide_test.
    cbn [u_need u_cp u_lower u_upper app].
    destruct (0xE0 + cp / 4096 =? 0xE0) eqn:Ea;
      destruct (0xE0 + cp / 4096 =? 0xED) eqn:Eb;
      repeat decide_test; cbn [u_need u_cp u_lower u_upper app];
      repeat decide_test;
      (do 2 f_equal; lia).
  - cbn [app utf8_run]. unfold utf8_step, utf8_lead, utf8_init at 1.
    cbn [u_need u_cp u_lower u_upper]. repeat decide_test.
    cbn [u_need u_cp u_lower u_upper app].
    destruct (0xF0 + cp / 262144 =? 0xF0) eqn:Ea;
      destruct (0xF0 + cp / 262144 =? 0xF4) eqn:Eb;
      repeat decide_test; cbn [u_need u_cp u_lower u_upper app];
      repeat decide_test; cbn [u_need u_cp u_lower u_upper app];
      repeat decide_test;
      (do 2 f_equal; lia).
Qed.

Lemma utf16_units_pair (h l : N) :
  is_high_surrogate h = true -> is_low_surrogate l = true ->
  utf16_units (pair_code_point h l) = [h; l]
  /\ pair_code_point h l < 0x110000 /\ 0xDFFF < pair_code_point h l.
Proof.
  unfold is_high_surrogate, is_low_surrogate, utf16_units, pair_code_point.
  intros Hh Hl. replace (0x10000 + (h - 0xD800) * 0x400 + (l - 0xDC00) <? 0x10000)
    with false by lia.
  repeat split; [|lia|lia]. f_equal; [lia|]. f_equal. lia.
Qed.

Lemma utf8_encode_scalar (c : N) (s : jsstring) :
  is_high_surrogate c = false -> is_low_surrogate c = false ->
  utf8_encode (c :: s) = utf8_of_code_point c ++ utf8_encode s.
Proof. intros Hh Hl. cbn [utf8_encode]. rewrite Hh, Hl. reflexivity. Qed.

Lemma utf8_encode_pair (h l : N) (s : jsstring) :
  is_high_surrogate h = true -> is_low_surrogate l = true ->
  utf8_encode (h :: l :: s)
    = utf8_of_code_point (pair_code_point h l) ++ utf8_encode s.
Proof. intros Hh Hl. cbn [utf8_encode]. rewrite Hh, Hl. reflexivity. Qed.

Lemma utf8_round_trip (s : jsstring) :
  well_formed s -> utf8_decode (utf8_encode s) = s.
Proof.
  unfold utf8_decode. induction 1 as [|c s Hc Hh Hl _ IH|h l s Hh Hl _ IH].
  - reflexivity.
  - rewrite utf8_encode_scalar by assumption.
    rewrite utf8_run_code_point, IH;
      [|lia|unfold is_high_surrogate, is_low_surrogate in *; lia].
    unfold utf16_units. replace (c <? 0x10000) with true by lia. reflexivity.
  - rewrite utf8_encode_pair by assumption.
    destruct (utf16_units_pair h l Hh Hl) as [Hu [Hmax Hmin]].
    rewrite utf8_run_code_point, IH, Hu; [reflexivity | exact Hmax | right; exact Hmin].
Qed.

Lemma utf8_of_code_point_bytes (cp : N) :
  cp < 0x110000 -> Forall is_byte (utf8_of_code_point cp).
Proof.
  intros H. unfold utf8_of_code_point, is_byte.
  destruct (cp <? 0x80) eqn:E1; [|destruct (cp <? 0x800) eqn:E2;
                                   [|destruct (cp <? 0x10000) eqn:E3]];
    repeat constructor; lia.
Qed.

Lemma utf8_encode_bytes (s : jsstring) :
  well_formed s -> Forall is_byte (utf8_encode s).
Proof.
  induction 1 as [|c s Hc Hh Hl _ IH|h l s Hh Hl _ IH].
  - constructor.
  - rewrite utf8_encode_scalar by assumption. apply Forall_app. split; [|exact IH].
    apply utf8_of_code_point_bytes. lia.
  - rewrite utf8_encode_pair by assumption. apply Forall_app. split; [|exact IH].
    apply utf8_of_code_point_bytes. apply (utf16_units_pair h l Hh Hl).
Qed.

Lemma well_formed_app (a b : jsstring) :
  well_formed a -> well_formed b -> well_formed (a ++ b).
Proof.
  intros Ha Hb. induction Ha.
  - exact Hb.
  - cbn [app]. apply wf_scalar; assumption.
  - cbn [app]. apply wf_pair; assumption.
Qed.

(** A string of code units below 128. *)
Lemma well_formed_ascii (s : jsstring) :
  forallb (fun c => c <? 128) s = true -> well_formed s.
Proof.
  induction s as [|c s IH]; intros H; [constructor|].
  cbn [forallb] in H. apply andb_true_iff in H. destruct H as [Hc Hs].
  apply wf_scalar; [lia | unfold is_high_surrogate; lia
                    | unfold is_low_surrogate; lia | exact (IH Hs)].
Qed.

(** ** JSON strings *)

Lemma list_ind2 {A : Type} (P : list A -> Prop) :
  P [] -> (forall a, P [a]) ->
  (forall a b l, P l -> P (b :: l) -> P (a :: b :: l)) ->
  forall l, P l.
Proof.
  intros H0 H1 H2 l.
  assert (H : P l /\ forall a, P (a :: l)).
  { induction l as [|x l [IH0 IH1]]; split; auto. }
  exact (proj1 H).
Qed.

Lemma hex_value_digit (d : N) : d < 16 -> hex_value (hex_digit d) = Some d.
Proof.
  intros H. unfold hex_digit, hex_value.
  destruct (d <? 10) eqn:E.
  - replace ((48 <=? 48 + d) && (48 + d <=? 57)) with true by lia. f_equal. lia.
  - replace ((48 <=? 87 + d) && (87 + d <=? 57)) with false by lia.
    replace ((65 <=? 87 + d) && (87 + d <=? 70)) with false by lia.
    replace ((97 <=? 87 + d) && (87 + d <=? 102)) with true by lia. f_equal. lia.
Qed.

Lemma hex_digit_ascii (d : N) : d < 16 -> hex_digit d < 128.
Proof. intros H. unfold hex_digit. destruct (d <? 10); lia. Qed.

Lemma hex4_escape (c : N) :
  c < 65536 ->
  hex4 (hex_digit (c / 4096)) (hex_digit ((c / 256) mod 16))
       (hex_digit ((c / 16) mod 16)) (hex_digit (c mod 16)) = Some c.
Proof.
  intros H. unfold hex4. rewrite !hex_value_digit by lia. f_equal. lia.
Qed.

Lemma parse_unicode_escape (c : N) (r : jsstring) :
  c < 65536 -> parse_string_body (unicode_escape c ++ r) = parsed_after c r.
Proof.
  intros H. unfold unicode_escape. cbn [app].
  change (parse_string_body
            (0x5C :: 0x75 :: hex_digit (c / 4096) :: hex_digit ((c / 256) mod 16)
               :: hex_digit ((c / 16) mod 16) :: hex_digit (c mod 16) :: r))
    with (match hex4 (hex_digit (c / 4096)) (hex_digit ((c / 256) mod 16))
                     (hex_digit ((c / 16) mod 16)) (hex_digit (c mod 16)) with
          | Some u => parsed_after u r
          | None => None
          end).
  rewrite hex4_escape by exact H. reflexivity.
Qed.

Lemma parse_plain_unit (c : N) (r : jsstring) :
  (c =? 0x22) = false -> (c =? 0x5C) = false -> (c <? 0x20) = false ->
  parse_string_body (c :: r) = parsed_after c r.
Proof.
  intros H1 H2 H3. cbn [parse_string_body]. rewrite H1, H2, H3. reflexivity.
Qed.

Lemma parse_quote_unit (c : N) (r : jsstring) :
  parse_string_body (quote_unit c ++ r) = parsed_after c r.
Proof.
  unfold quote_unit.
  destruct (N.eqb_spec c 0x08) as [->|H08]; [reflexivity|].
  destruct (N.eqb_spec c 0x09) as [->|H09]; [reflexivity|].
  destruct (N.eqb_spec c 0x0A) as [->|H0A]; [reflexivity|].
  destruct (N.eqb_spec c 0x0C) as [->|H0C]; [reflexivity|].
  destruct (N.eqb_spec c 0x0D) as [->|H0D]; [reflexivity|].
  destruct (N.eqb_spec c 0x22) as [->|H22]; [reflexivity|].
  destruct (N.eqb_spec c 0x5C) as [->|H5C]; [reflexivity|].
  destruct ((c <? 0x20) || is_high_surrogate c || is_low_surrogate c) eqn:E.
  - apply parse_unicode_escape.
    unfold is_high_surrogate, is_low_surrogate in E. lia.
  - cbn [app]. apply parse_plain_unit; lia.
Qed.

Lemma quote_units_cons (a : N) (rest : jsstring) :
  quote_units (a :: rest) =
    if is_high_surrogate a then
      match rest with
      | d :: rest' =>
          if is_low_surrogate d then a :: d :: quote_units rest'
          else unicode_escape a ++ quote_units rest
      | [] => unicode_escape a
      end
    else quote_unit a ++ quote_units rest.
Proof. reflexivity. Qed.

Lemma parse_quote_units (s rest : jsstring) :
  parse_string_body (quote_units s ++ 0x22 :: rest) = Some (s, rest).
Proof.
  induction s as [|a|a b s IH0 IH1] using list_ind2.
  - reflexivity.
  - cbn [quote_units].
    destruct (is_high_surrogate a) eqn:Ha.
    + rewrite parse_unicode_escape by (unfold is_high_surrogate in Ha; lia).
      reflexivity.
    + rewrite <- app_assoc, parse_quote_unit. reflexivity.
  - rewrite quote_units_cons.
    destruct (is_high_surrogate a) eqn:Ha.
    + destruct (is_low_surrogate b) eqn:Hb.
      * cbn [app].
        rewrite parse_plain_unit by (unfold is_high_surrogate in Ha; lia).
        unfold parsed_after.
        rewrite parse_plain_unit by (unfold is_low_surrogate in Hb; lia).
        unfold parsed_after. rewrite IH0. reflexivity.
      * rewrite <- app_assoc.
        rewrite parse_unicode_escape by (unfold is_high_surrogate in Ha; lia).
        unfold parsed_after. rewrite IH1. reflexivity.
    + rewrite <- app_assoc, parse_quote_unit. unfold parsed_after.
      rewrite IH1. reflexivity.
Qed.

Lemma unicode_escape_well_formed (c : N) :
  c < 65536 -> well_formed (unicode_escape c).
Proof.
  intros H. apply well_formed_ascii. unfold unicode_escape. cbn [forallb].
  pose proof (hex_digit_ascii (c / 4096)).
  pose proof (hex_digit_ascii ((c / 256) mod 16)).
  pose proof (hex_digit_ascii ((c / 16) mod 16)).
  pose proof (hex_digit_ascii (c mod 16)).
  lia.
Qed.

Lemma quote_unit_well_formed (c : N) :
  c < 65536 -> well_formed (quote_unit c).
Proof.
  intros H. unfold quote_unit.
  repeat match goal with
         | |- well_formed (if ?b then _ else _) => destruct b eqn:?
         end;
    try (apply well_formed_ascii; reflexivity).
  - apply unicode_escape_well_formed. exact H.
  - apply wf_scalar; [exact H | | | constructor];
      unfold is_high_surrogate, is_low_surrogate in *; lia.
Qed.

Lemma quote_units_well_formed (s : jsstring) :
  units_ok s -> well_formed (quote_units s).
Proof.
  unfold units_ok.
  induction s as [|a|a b s IH0 IH1] using list_ind2; intros H.
  - constructor.
  - inversion H as [|? ? Ha _]; subst. cbn [quote_units].
    destruct (is_high_surrogate a).
    + apply unicode_escape_well_formed. exact Ha.
    + rewrite app_nil_r. apply quote_unit_well_formed. exact Ha.
  - inversion H as [|? ? Ha Hbs]; subst. inversion Hbs as [|? ? Hb Hs]; subst.
    rewrite quote_units_cons.
    destruct (is_high_surrogate a) eqn:Eh.
    + destruct (is_low_surrogate b) eqn:El.
      * apply wf_pair; [exact Eh | exact El | exact (IH0 Hs)].
      * apply well_formed_app; [apply unicode_escape_well_formed; exact Ha|].
        exact (IH1 Hbs).
    + apply well_formed_app; [apply quote_unit_well_formed; exact Ha|].
      exact (IH1 Hbs).
Qed.

Lemma quote_well_formed (s : jsstring) : units_ok s -> well_formed (quote s).
Proof.
  intros H. unfold quote.
  change (0x22 :: quote_units s ++ [0x22]) with ([0x22] ++ quote_units s ++ [0x22]).
  apply well_formed_app; [apply well_formed_ascii; reflexivity|].
  apply well_formed_app; [apply quote_units_well_formed; exact H|].
  apply well_formed_ascii. reflexivity.
Qed.

(** ** JSON values *)

Lemma stringify_plain (v : value) : plain v -> JSON_stringify v = Some (ser v).
Proof.
  intros H. unfold ser. destruct v; try contradiction; try reflexivity.
  destruct b; reflexivity.
Qed.

Lemma ser_array (l : list value) :
  ser (VArr l) = 0x5B :: join_comma (map ser l) ++ [0x5D].
Proof. reflexivity. Qed.

Lemma ser_object (ms : list (jsstring * value)) :
  plain_members ms ->
  ser (VObj ms) = 0x7B :: join_comma (map member_text ms) ++ [0x7D].
Proof.
  intros H. unfold ser. cbn [JSON_stringify]. do 3 f_equal.
  induction ms as [|[k x] ms IH]; [reflexivity|].
  destruct H as [Hx Hms]. cbn [snd] in Hx.
  rewrite (stringify_plain x Hx). cbn [map]. f_equal. exact (IH Hms).
Qed.

Lemma join_comma_cons (p : jsstring) (q : jsstring) (r : list jsstring) :
  join_comma (p :: q :: r) = p ++ 0x2C :: join_comma (q :: r).
Proof. reflexivity. Qed.

(** The text of a plain value starts with a character that is neither
    white space nor a closing bracket. *)
Lemma ser_head (v : value) :
  plain v ->
  exists c tail, ser v = c :: tail /\ is_json_space c = false /\ (c =? 0x5D) = false.
Proof.
  intros H. destruct v; try contradiction.
  - do 2 eexists. split; [reflexivity|]. split; reflexivity.
  - destruct b; do 2 eexists; (split; [reflexivity|]); split; reflexivity.
  - do 2 eexists. split; [reflexivity|]. split; reflexivity.
  - do 2 eexists. split; [apply ser_array|]. split; reflexivity.
  - destruct H as [_ H]. do 2 eexists. split; [apply (ser_object _ H)|].
    split; reflexivity.
Qed.

Lemma object_of_distinct (ms : list (jsstring * value)) :
  NoDup (map fst ms) -> own_property_order ms = ms -> object_of ms = VObj ms.
Proof.
  unfold object_of. intros H Hord. f_equal.
  enough (G : forall acc,
             (forall k, In k (map fst acc) -> ~ In k (map fst ms)) ->
             fold_left (fun acc kv => obj_put acc (fst kv) (snd kv)) ms acc
               = acc ++ ms)
    by (pose proof (G [] (fun k (F : In k []) => match F with end)) as E;
        cbn [app] in E; rewrite E; exact Hord).
  clear Hord. induction ms as [|[k v] ms IH]; intros acc Hacc.
  - rewrite app_nil_r. reflexivity.
  - cbn [fold_left fst snd]. inversion H as [|? ? Hk Hms]; subst.
    assert (Hput : obj_put acc k v = acc ++ [(k, v)]).
    { clear IH. induction acc as [|[k0 x0] acc IHacc]; [reflexivity|].
      cbn [obj_put]. destruct (str_eqb k0 k) eqn:E.
      - apply str_eqb_eq in E. subst k0. exfalso.
        apply (Hacc k); left; reflexivity.
      - cbn [app]. f_equal. apply IHacc. intros k1 Hin. apply Hacc. right. exact Hin. }
    rewrite Hput, (IH Hms), <- app_assoc; [reflexivity|].
    intros k1 Hin Hin'. rewrite map_app in Hin. apply in_app_or in Hin.
    destruct Hin as [Hin|[<-|[]]].
    + apply (Hacc k1 Hin). right. exact Hin'.
    + exact (Hk Hin').
Qed.

Lemma skip_ws_head (c : N) (r : jsstring) :
  is_json_space c = false -> skip_ws (c :: r) = c :: r.
Proof. intros H. cbn [skip_ws]. rewrite H. reflexivity. Qed.

Lemma parse_value_string (fuel : nat) (s rest : jsstring) :
  parse_value (S fuel) (quote s ++ rest) = Some (VStr s, rest).
Proof.
  unfold quote. cbn [app].
  change (parse_value (S fuel) (0x22 :: (quote_units s ++ [0x22]) ++ rest))
    with (match parse_string_body ((quote_units s ++ [0x22]) ++ rest) with
          | Some (str, r') => Some (VStr str, r')
          | None => None
          end).
  rewrite <- app_assoc. cbn [app]. rewrite parse_quote_units. reflexivity.
Qed.

Lemma parse_ser (fuel : nat) :
  (forall v rest,
      plain v -> (cost v <= fuel)%nat ->
      parse_value fuel (ser v ++ rest) = Some (v, rest))
  /\ (forall v l rest,
        plain v -> plain_list l -> (cost_list (v :: l) <= fuel)%nat ->
        parse_elements fuel (join_comma (map ser (v :: l)) ++ 0x5D :: rest)
          = Some (v :: l, rest))
  /\ (forall kx ms rest,
        plain (snd kx) -> plain_members ms ->
        (cost_members (kx :: ms) <= fuel)%nat ->
        parse_members fuel (join_comma (map member_text (kx :: ms)) ++ 0x7D :: rest)
          = Some (kx :: ms, rest)).
Proof.
  induction fuel as [|fuel [IHv [IHe IHm]]].
  { repeat split; intros.
    - destruct v; cbn in *; lia.
    - cbn in *; lia.
    - cbn in *; lia. }
  repeat apply conj.
  - intros v rest Hv Hc. destruct v as [| |b|n|s|l|ms]; try contradiction.
    + reflexivity.
    + destruct b; reflexivity.
    + apply parse_value_string.
    + rewrite ser_array. destruct l as [|x l].
      * reflexivity.
      * destruct Hv as [Hx Hl].
        destruct (ser_head x Hx) as [c [tail [Ec [Hspace Hclose]]]].
        cbn [app].
        change (parse_value (S fuel)
                  (0x5B :: (join_comma (map ser (x :: l)) ++ [0x5D]) ++ rest))
          with (match skip_ws ((join_comma (map ser (x :: l)) ++ [0x5D]) ++ rest) with
                | d :: r' =>
                    if d =? 0x5D then Some (VArr [], r')
                    else match parse_elements fuel
                                 ((join_comma (map ser (x :: l)) ++ [0x5D]) ++ rest) with
                         | Some (vs, r'') => Some (VArr vs, r'')
                         | None => None
                         end
                | [] => None
                end).
        rewrite <- app_assoc. cbn [app].
        rewrite (IHe x l rest Hx Hl) by (cbn [cost] in Hc; unfold cost_list; lia).
        destruct l as [|y l]; cbn [map join_comma]; rewrite Ec; cbn [app];
          rewrite (skip_ws_head _ _ Hspace), Hclose; reflexivity.
    + destruct Hv as [[Hdup Hord] Hms]. rewrite (ser_object _ Hms).
      destruct ms as [|[k x] ms].
      * reflexivity.
      * cbn [app].
        change (parse_value (S fuel)
                  (0x7B :: (join_comma (map member_text ((k, x) :: ms)) ++ [0x7D]) ++ rest))
          with (match skip_ws ((join_comma (map member_text ((k, x) :: ms)) ++ [0x7D])
                                 ++ rest) with
                | d :: r' =>
                    if d =? 0x7D then Some (VObj [], r')
                    else match parse_members fuel
                                 ((join_comma (map member_text ((k, x) :: ms)) ++ [0x7D])
                                    ++ rest) with
                         | Some (ms0, r'') => Some (object_of ms0, r'')
                         | None => None
                         end
                | [] => None
                end).
        rewrite <- app_assoc. cbn [app].
        destruct Hms as [Hx Hms].
        rewrite (IHm (k, x) ms rest Hx Hms)
          by (cbn [cost] in Hc; unfold cost_members; lia).
        rewrite (object_of_distinct _ Hdup Hord).
        destruct ms as [|y ms]; reflexivity.
  - intros v l rest Hv Hl Hc. cbn [parse_elements].
    destruct l as [|y l].
    + cbn [map join_comma].
      rewrite (IHv v (0x5D :: rest) Hv) by (cbn in Hc; lia). reflexivity.
    + cbn [map]. rewrite join_comma_cons, <- app_assoc. cbn [app].
      rewrite (IHv v _ Hv) by (cbn in Hc; lia).
      cbn [skip_ws is_json_space N.eqb Pos.eqb orb].
      destruct Hl as [Hy Hl].
      change (ser y :: map ser l) with (map ser (y :: l)).
      rewrite (IHe y l rest Hy Hl) by (cbn in Hc |- *; lia). reflexivity.
  - intros [k x] ms rest Hx Hms Hc. cbn [snd] in Hx.
    assert (Estep : forall tail,
               parse_members (S fuel) (member_text (k, x) ++ tail) =
                 match skip_ws tail with
                 | d :: r4 =>
                     if d =? 0x2C then
                       match parse_members fuel r4 with
                       | Some (ms0, r5) => Some ((k, x) :: ms0, r5)
                       | None => None
                       end
                     else if d =? 0x7D then Some ([(k, x)], r4) else None
                 | [] => None
                 end).
    { intros tail. unfold member_text, quote. cbn [fst snd app].
      change (parse_members (S fuel)
                (0x22 :: ((quote_units k ++ [0x22]) ++ 0x3A :: ser x) ++ tail))
        with (match parse_string_body
                      (((quote_units k ++ [0x22]) ++ 0x3A :: ser x) ++ tail) with
              | Some (k0, r1) =>
                  match skip_ws r1 with
                  | col :: r2 =>
                      if col =? 0x3A then
                        match parse_value fuel r2 with
                        | Some (v0, r3) =>
                            match skip_ws r3 with
                            | d :: r4 =>
                                if d =? 0x2C then
                                  match parse_members fuel r4 with
                                  | Some (ms0, r5) => Some ((k0, v0) :: ms0, r5)
                                  | None => None
                                  end
                                else if d =? 0x7D then Some ([(k0, v0)], r4)
                                else None
                            | [] => None
                            end
                        | None => None
                        end
                      else None
                  | [] => None
                  end
              | None => None
              end).
      rewrite <- !app_assoc. cbn [app]. rewrite parse_quote_units.
      cbn [skip_ws is_json_space N.eqb Pos.eqb orb].
      rewrite (IHv x tail Hx) by (cbn in Hc; lia). reflexivity. }
    destruct ms as [|y ms].
    + cbn [map join_comma]. rewrite Estep. reflexivity.
    + cbn [map]. rewrite join_comma_cons, <- app_assoc. cbn [app].
      rewrite Estep. cbn [skip_ws is_json_space N.eqb Pos.eqb orb].
      destruct Hms as [Hy Hms].
      change (member_text y :: map member_text ms) with (map member_text (y :: ms)).
      rewrite (IHm y ms rest Hy Hms) by (cbn in Hc |- *; lia). reflexivity.
Qed.

(** Induction over values, with the hypothesis for every element of an
    array and every member of an object. *)
Lemma value_nested_ind (P : value -> Prop) :
  P VUndefined -> P VNull -> (forall b, P (VBool b)) -> (forall n, P (VNum n)) ->
  (forall s, P (VStr s)) ->
  (forall l, Forall P l -> P (VArr l)) ->
  (forall ms, Forall (fun kx => P (snd kx)) ms -> P (VObj ms)) ->
  forall v, P v.
Proof.
  intros Hu Hn Hb Hnum Hs Ha Ho. fix IH 1. intros [| |b|n|s|l|ms].
  - exact Hu.
  - exact Hn.
  - apply Hb.
  - apply Hnum.
  - apply Hs.
  - apply Ha. revert l. fix IHl 1. intros [|x l].
    + constructor.
    + constructor; [apply IH | apply IHl].
  - apply Ho. revert ms. fix IHms 1. intros [|[k x] ms].
    + constructor.
    + constructor; [apply IH | apply IHms].
Qed.

Lemma join_comma_well_formed (parts : list jsstring) :
  Forall well_formed parts -> well_formed (join_comma parts).
Proof.
  induction 1 as [|p parts Hp _ IH]; [constructor|].
  destruct parts as [|q parts]; [exact Hp|].
  rewrite join_comma_cons. apply well_formed_app; [exact Hp|].
  change (0x2C :: join_comma (q :: parts)) with ([0x2C] ++ join_comma (q :: parts)).
  apply well_formed_app; [apply well_formed_ascii; reflexivity | exact IH].
Qed.

Lemma bracketed_well_formed (open close : N) (inner : jsstring) :
  open < 128 -> close < 128 -> well_formed inner ->
  well_formed (open :: inner ++ [close]).
Proof.
  intros Ho Hc Hi.
  change (open :: inner ++ [close]) with ([open] ++ inner ++ [close]).
  apply well_formed_app; [apply well_formed_ascii; cbn [forallb]; lia|].
  apply well_formed_app; [exact Hi|].
  apply well_formed_ascii. cbn [forallb]. lia.
Qed.

Lemma ser_well_formed (v : value) :
  plain v -> strings_ok v -> well_formed (ser v).
Proof.
  induction v as [| |b|n|s|l IH|ms IH] using value_nested_ind; intros Hp Hs;
    try contradiction.
  - apply well_formed_ascii. reflexivity.
  - destruct b; apply well_formed_ascii; reflexivity.
  - apply quote_well_formed. exact Hs.
  - rewrite ser_array.
    apply bracketed_well_formed; [reflexivity | reflexivity |].
    apply join_comma_well_formed.
    induction IH as [|x l Hx _ IHl]; [constructor|].
    destruct Hp as [Hpx Hpl]. destruct Hs as [Hsx Hsl].
    cbn [map]. constructor; [exact (Hx Hpx Hsx) | exact (IHl Hpl Hsl)].
  - destruct Hp as [_ Hp]. rewrite (ser_object _ Hp).
    apply bracketed_well_formed; [reflexivity | reflexivity |].
    apply join_comma_well_formed.
    induction IH as [|[k x] ms Hx _ IHms]; [constructor|].
    destruct Hp as [Hpx Hpms]. destruct Hs as [[Hk Hsx] Hsms].
    cbn [map]. constructor; [|exact (IHms Hpms Hsms)].
    unfold member_text. cbn [fst snd] in *.
    apply well_formed_app; [apply quote_well_formed; exact Hk|].
    change (0x3A :: ser x) with ([0x3A] ++ ser x).
    apply well_formed_app; [apply well_formed_ascii; reflexivity|].
    exact (Hx Hpx Hsx).
Qed.

Lemma join_comma_length (parts : list jsstring) (n : nat) :
  (n <= fold_right (fun p acc => S (List.length p) + acc) 0 parts)%nat ->
  (n <= S (List.length (join_comma parts)))%nat.
Proof.
  revert n. induction parts as [|p parts IH]; intros n H; [cbn in *; lia|].
  destruct parts as [|q parts].
  - cbn in *. lia.
  - rewrite join_comma_cons, length_app. cbn [List.length].
    cbn [fold_right] in H.
    specialize (IH (n - S (List.length p))%nat). cbn [fold_right] in IH. lia.
Qed.

Lemma cost_le_length (v : value) :
  plain v -> (cost v <= List.length (ser v))%nat.
Proof.
  induction v as [| |b|n|s|l IH|ms IH] using value_nested_ind; intros Hp;
    try contradiction.
  - cbn. lia.
  - destruct b; cbn; lia.
  - unfold ser. cbn [JSON_stringify cost]. unfold quote. cbn [List.length]. lia.
  - rewrite ser_array. cbn [cost List.length]. rewrite length_app. cbn [List.length].
    enough (H : (fold_right (fun x acc => S (cost x) + acc) 0 l
                 <= fold_right (fun p acc => S (List.length p) + acc) 0 (map ser l))%nat).
    { pose proof (join_comma_length _ _ H). lia. }
    induction IH as [|x l Hx _ IHl]; [cbn; lia|].
    destruct Hp as [Hpx Hpl]. cbn [map fold_right].
    specialize (Hx Hpx). specialize (IHl Hpl). lia.
  - destruct Hp as [_ Hp]. rewrite (ser_object _ Hp).
    cbn [cost List.length]. rewrite length_app. cbn [List.length].
    enough (H : (fold_right (fun kx acc => S (cost (snd kx)) + acc) 0 ms
                 <= fold_right (fun p acc => S (List.length p) + acc) 0
                      (map member_text ms))%nat).
    { pose proof (join_comma_length _ _ H). lia. }
    induction IH as [|[k x] ms Hx _ IHms]; [cbn; lia|].
    destruct Hp as [Hpx Hpms]. cbn [map fold_right snd] in *.
    specialize (Hx Hpx). specialize (IHms Hpms).
    unfold member_text at 1. rewrite length_app. cbn [List.length snd]. lia.
Qed.

(** [JSON.parse] reads back what [JSON.stringify] wrote. *)
Lemma JSON_round_trip (v : value) (json : jsstring) :
  plain v -> JSON_stringify v = Some json -> JSON_parse json = Some v.
Proof.
  intros Hp Hj. rewrite (stringify_plain v Hp) in Hj. inversion Hj. subst json.
  unfold JSON_parse.
  pose proof (cost_le_length v Hp) as Hc.
  pose proof (proj1 (parse_ser (2 * List.length (ser v) + 2)) v [] Hp) as H.
  rewrite app_nil_r in H. rewrite H by lia. reflexivity.
Qed.

End Runtime.

(** ** The metadata URI is always built *)

Lemma metadataUriOf_build (text description : value) (now : jsstring) :
  exists uri, metadataUriOf (buildMetadata text description now) = Ok uri.
Proof.
  unfold metadataUriOf.
  destruct (JSON_stringify (buildMetadata text description now)) eqn:E.
  - eexists. reflexivity.
  - discriminate E.
Qed.

(** ** The checks for a missing or blank field *)

Lemma missing_or_blank_string (name : string) (s : jsstring) :
  missing_or_blank name (VStr s) = Ok (str_eqb (trim s) []).
Proof. destruct s; reflexivity. Qed.

(** Only a string that is not blank passes the check. *)
Lemma missing_or_blank_passed (name : string) (x : value) :
  missing_or_blank name x = Ok false ->
  exists s, x = VStr s /\ str_eqb (trim s) [] = false /\ truthy x = true.
Proof.
  unfold missing_or_blank. destruct (truthy x) eqn:Ht; [|discriminate].
  destruct x; cbn [trim_receiver]; try discriminate.
  intros H. eexists. split; [reflexivity|]. split; [congruence | reflexivity].
Qed.

(** The check says "missing" of a falsy value and of a blank string. *)
Lemma missing_or_blank_missing (name : string) (x : value) :
  missing_or_blank name x = Ok true ->
  truthy x = false \/ exists s, x = VStr s /\ trim s = [].
Proof.
  unfold missing_or_blank. destruct (truthy x) eqn:Ht; [|left; reflexivity].
  destruct x; cbn [trim_receiver]; try discriminate.
  intros H. right. eexists. split; [reflexivity|].
  apply str_eqb_eq. congruence.
Qed.

(** The check throws for a truthy value that is not a string, and for no
    other. *)
Lemma missing_or_blank_throws (name : string) (x : value) (message : jsstring) :
  missing_or_blank name x = Throw message ->
  truthy x = true /\ (forall s, x <> VStr s)
  /\ message = lit name ++ lit ".trim is not a function".
Proof.
  unfold missing_or_blank. destruct (truthy x) eqn:Ht; [|discriminate].
  destruct x; cbn [trim_receiver]; try discriminate; intros H;
    (split; [reflexivity|]); (split; [intros s; discriminate | congruence]).
Qed.

(** ** The key formatting step *)

Lemma mintTextNFT_bad_key (w : world) (text : value) (privateKey : jsstring)
    (toAddress description : value) (t : list call) :
  List.length (trim privateKey) <> 64%nat ->
  List.length (trim privateKey) <> 66%nat ->
  exists m t',
    mintTextNFT w text true (VStr privateKey) toAddress description t
      = (Throw m, t ++ t')
    /\ no_signing t' = true
    /\ (getContract w = Ok tt ->
        missing_or_blank "privateKey" (VStr privateKey) = Ok false ->
        missing_or_blank "toAddress" toAddress = Ok false ->
        m = lit "Failed to mint NFT: " ++ key_length_message (trim privateKey)).
Proof.
  intros H64 H66.
  unfold mintTextNFT, try_catch, bind, perform, lift, throw, ret.
  destruct (getContract w) as [[]|e] eqn:Hc.
  - destruct (metadataUriOf_build text description (now_iso w)) as [uri Huri].
    rewrite Huri. cbn [negb].
    destruct (missing_or_blank "privateKey" (VStr privateKey)) as [[|]|e] eqn:Hk.
    + do 2 eexists. split; [reflexivity|]. split; [reflexivity|]. discriminate.
    + destruct (missing_or_blank "toAddress" toAddress) as [[|]|e] eqn:Ha.
      * do 2 eexists. split; [reflexivity|]. split; [reflexivity|]. discriminate.
      * cbn [string_of]. rewrite (formatPrivateKey_rejects _ H64 H66).
        do 2 eexists. split; [reflexivity|]. split; [reflexivity|]. reflexivity.
      * do 2 eexists. split; [reflexivity|]. split; [reflexivity|]. discriminate.
    + do 2 eexists. split; [reflexivity|]. split; [reflexivity|]. discriminate.
  - do 2 eexists. split; [reflexivity|]. split; [reflexivity|]. discriminate.
Qed.

Lemma test_key_routes_bad_key (w : world) (req : request) (key : jsstring)
    (t : list call) :
  privateKey req = VStr key ->
  truthy (VStr key) = true ->
  List.length (trim key) <> 64%nat ->
  List.length (trim key) <> 66%nat ->
  let rejection :=
    json 400 [ (lit "success", VBool false);
               (lit "error", VStr (key_length_message (trim key))) ] in
  index_test_key_handler w req t = (Ok rejection, t)
  /\ secured_test_key_handler w req t = (Ok rejection, t).
Proof.
  intros Hreq Htruthy H64 H66 rejection.
  unfold index_test_key_handler, secured_test_key_handler, try_catch, bind, lift.
  rewrite Hreq, Htruthy. cbn [negb trim_receiver].
  rewrite (formatPrivateKey_rejects _ H64 H66).
  split; reflexivity.
Qed.

(** C2. A private key whose trimmed length is neither 64 nor 66 is
    rejected by the key formatting step with the message
    "Invalid private key length: <n>. Expected 64 or 66 characters.", where
    <n> is the trimmed length: [mintTextNFT] throws (and makes no call that
    derives an account or prepares or sends a transaction), and the
    private-key test routes of both servers answer 400 with that message. *)
Theorem C2_bad_key_length_is_rejected :
  forall privateKey : jsstring,
    List.length (trim privateKey) <> 64%nat ->
    List.length (trim privateKey) <> 66%nat ->
    let message := key_length_message (trim privateKey) in
    formatPrivateKey privateKey = Throw message
    /\ includes (decimal (N.of_nat (List.length (trim privateKey)))) message = true
    /\ (forall w text toAddress description t,
          exists m t',
            mintTextNFT w text true (VStr privateKey) toAddress description t
              = (Throw m, t ++ t')
            /\ no_signing t' = true
            /\ (getContract w = Ok tt ->
                missing_or_blank "privateKey" (VStr privateKey) = Ok false ->
                missing_or_blank "toAddress" toAddress = Ok false ->
                m = lit "Failed to mint NFT: " ++ message))
    /\ (forall w req t,
          Server.privateKey req = VStr privateKey ->
          truthy (VStr privateKey) = true ->
          let rejection :=
            json 400 [ (lit "success", VBool false); (lit "error", VStr message) ] in
          index_test_key_handler w req t = (Ok rejection, t)
          /\ secured_test_key_handler w req t = (Ok rejection, t)).
Proof.
  intros privateKey H64 H66 message. repeat split.
  - apply formatPrivateKey_rejects; assumption.
  - apply key_length_message_echo.
  - intros. apply mintTextNFT_bad_key; assumption.
  - eapply test_key_routes_bad_key; eassumption.
  - eapply test_key_routes_bad_key; eassumption.
Qed.

Lemma C2_witness :
  formatPrivateKey (lit "  0xabc ")
    = Throw (lit "Invalid private key length: 5. Expected 64 or 66 characters.")
  /\ exists m t',
       mintTextNFT demo_world (VStr (lit "hello")) true (VStr (lit "  0xabc "))
                   (VStr demo_address) VNull []
         = (Throw m, [] ++ t')
       /\ no_signing t' = true
       /\ (getContract demo_world = Ok tt ->
           missing_or_blank "privateKey" (VStr (lit "  0xabc ")) = Ok false ->
           missing_or_blank "toAddress" (VStr demo_address) = Ok false ->
           m = lit "Failed to mint NFT: Invalid private key length: 5. Expected 64 or 66 characters.").
Proof.
  pose proof (C2_bad_key_length_is_rejected (lit "  0xabc ")) as H.
  assert (H64 : List.length (trim (lit "  0xabc ")) <> 64%nat)
    by (vm_compute; discriminate).
  assert (H66 : List.length (trim (lit "  0xabc ")) <> 66%nat)
    by (vm_compute; discriminate).
  specialize (H H64 H66). cbv zeta in H.
  destruct H as [Hstep [_ [Hmint _]]].
  split.
  - exact Hstep.
  - exact (Hmint demo_world (VStr (lit "hello")) (VStr demo_address) VNull []).
Defined.

(** C3. The formatter returns the 64 characters after the prefix for a
    key of 66 characters that starts with "0x" (after trim), and the
    trimmed input itself for a key of 64 hexadecimal characters. *)
Theorem C3_prefix_stripped_or_identity :
  forall privateKey : jsstring,
    (prefixed_key (trim privateKey) = true ->
       formatPrivateKey privateKey = Ok (skipn 2 (trim privateKey))
       /\ List.length (skipn 2 (trim privateKey)) = 64%nat
       /\ trim privateKey = lit "0x" ++ skipn 2 (trim privateKey))
    /\ (bare_key (trim privateKey) = true ->
          formatPrivateKey privateKey = Ok (trim privateKey)).
Proof.
  intros privateKey. split.
  - intros H. unfold prefixed_key, bare_key in H.
    apply andb_true_iff in H. destruct H as [Hp H].
    apply andb_true_iff in H. destruct H as [Hlen _].
    apply Nat.eqb_eq in Hlen.
    pose proof (startsWith_split _ _ Hp) as Hsplit.
    change (List.length (lit "0x")) with 2%nat in Hsplit.
    assert (H66 : List.length (trim privateKey) = 66%nat).
    { pose proof (f_equal (@List.length N) Hsplit) as Hl.
      rewrite length_app, Hlen in Hl. exact Hl. }
    rewrite formatPrivateKey_accepts by (right; exact H66).
    rewrite Hp. repeat split; [exact Hlen | exact Hsplit].
  - intros H. unfold bare_key in H.
    apply andb_true_iff in H. destruct H as [Hlen Hhex].
    apply Nat.eqb_eq in Hlen.
    rewrite formatPrivateKey_accepts by (left; exact Hlen).
    destruct (trim privateKey) as [|a [|b s]]; [discriminate | discriminate |].
    cbn [forallb] in Hhex.
    apply andb_true_iff in Hhex. destruct Hhex as [_ Hhex].
    apply andb_true_iff in Hhex. destruct Hhex as [Hb _].
    assert (Hx : (120 =? b)%N = false) by (unfold is_hex_digit in Hb; lia).
    change (startsWith (lit "0x") (a :: b :: s))
      with ((48 =? a)%N && ((120 =? b)%N && true)).
    rewrite Hx. destruct (48 =? a)%N; reflexivity.
Qed.

Lemma C3_witness :
  formatPrivateKey (lit " 0x" ++ demo_key ++ lit " ") = Ok demo_key
  /\ formatPrivateKey (demo_key ++ lit "  ") = Ok demo_key.
Proof.
  split.
  - exact (proj1 (proj1 (C3_prefix_stripped_or_identity
                           (lit " 0x" ++ demo_key ++ lit " ")) eq_refl)).
  - exact (proj2 (C3_prefix_stripped_or_identity (demo_key ++ lit "  ")) eq_refl).
Defined.

(** ** Results of mintTextNFT *)

Ltac run_calls :=
  repeat match goal with
         | H : (_, _) = (_, _) |- _ => inversion H; subst; clear H
         | H : context [match ?x with _ => _ end] |- _ => destruct x eqn:?
         end; try discriminate.

Lemma mintTextNFT_metadata (w : world) (text : value) (performMint : bool)
    (privateKey toAddress description : value) (t t' : list call)
    (r : MintResult) :
  mintTextNFT w text performMint privateKey toAddress description t = (Ok r, t') ->
  metadata_of r = buildMetadata text description (now_iso w).
Proof.
  unfold mintTextNFT, try_catch, bind, perform, lift, throw, ret.
  destruct (metadataUriOf_build text description (now_iso w)) as [uri Huri].
  rewrite Huri. intros H.
  destruct performMint; cbn [negb] in H; run_calls; reflexivity.
Qed.

Lemma mintTextNFT_prepares (w : world) (text : value)
    (privateKey toAddress description : value) (t : list call) :
  getContract w = Ok tt ->
  exists r, mintTextNFT w text false privateKey toAddress description t
            = (Ok r, t ++ [GetContract]).
Proof.
  intros Hc. unfold mintTextNFT, try_catch, bind, perform, lift, throw, ret.
  destruct (metadataUriOf_build text description (now_iso w)) as [uri Huri].
  rewrite Hc, Huri. cbn [negb]. eexists. reflexivity.
Qed.

Lemma mintTextNFT_throw_prefixed (w : world) (text : value) (performMint : bool)
    (privateKey toAddress description : value) (t t' : list call)
    (m : jsstring) :
  mintTextNFT w text performMint privateKey toAddress description t = (Throw m, t') ->
  exists cause, m = lit "Failed to mint NFT: " ++ cause.
Proof.
  unfold mintTextNFT, try_catch.
  match goal with |- context [bind ?a ?b t] => destruct (bind a b t) as [[r|e] t0] end.
  - discriminate.
  - unfold throw. intros H. inversion H. eexists. reflexivity.
Qed.

Lemma mintTextNFTWithPrivateKey_delegates (w : world) (text : value)
    (privateKey toAddress description : value) (t : list call) :
  missing_or_blank "privateKey" privateKey = Ok false ->
  missing_or_blank "toAddress" toAddress = Ok false ->
  mintTextNFTWithPrivateKey w text privateKey toAddress description t =
    match mintTextNFT w text true privateKey toAddress description t with
    | (Ok r, t') => (Ok r, t')
    | (Throw m, t') => (Throw (lit "Failed to mint NFT: " ++ m), t')
    end.
Proof.
  intros Hk Ha. unfold mintTextNFTWithPrivateKey, try_catch at 1, bind, lift.
  rewrite Hk, Ha.
  destruct (mintTextNFT w text true privateKey toAddress description t) as [[r|m] t'];
    reflexivity.
Qed.

(** C4 (amended). Whenever [mintTextNFT] returns, on either path, the
    metadata of its result has the name "CRUXZ NFT", the provided
    description when one is given and is not the empty string (nor any
    other falsy value) and "CRUXZ NFT" otherwise (never the text), and
    exactly two attributes in order: "Text" with the text, then
    "Created At" with the ISO timestamp read when the metadata is built.
    The prepare path returns whenever the contract handle is obtained. *)
Theorem C4_metadata_of_every_result :
  forall (w : world) (text : value) (performMint : bool)
         (privateKey toAddress description : value)
         (t t' : list call) (r : MintResult),
    mintTextNFT w text performMint privateKey toAddress description t = (Ok r, t') ->
    metadata_of r =
      VObj [ (lit "name", VStr (lit "CRUXZ NFT"));
             (lit "description",
               if truthy description then description
               else VStr (lit "CRUXZ NFT"));
             (lit "attributes",
               VArr [ VObj [ (lit "trait_type", VStr (lit "Text"));
                             (lit "value", text) ];
                      VObj [ (lit "trait_type", VStr (lit "Created At"));
                             (lit "value", VStr (now_iso w)) ] ]) ]
    /\ (getContract w = Ok tt ->
        exists r0, mintTextNFT w text false privateKey toAddress description t
                   = (Ok r0, t ++ [GetContract])).
Proof.
  intros w text performMint privateKey toAddress description t t' r H. split.
  - rewrite (mintTextNFT_metadata _ _ _ _ _ _ _ _ _ H).
    reflexivity.
  - apply mintTextNFT_prepares.
Qed.

Lemma C4_witness :
  match fst (mintTextNFT demo_world (VStr (lit "hello")) false VNull VNull
                         (VStr (lit "a note")) []) with
  | Ok r =>
      member "description" (metadata_of r) = Some (VStr (lit "a note"))
      /\ member "name" (metadata_of r) = Some (VStr (lit "CRUXZ NFT"))
  | Throw _ => False
  end.
Proof.
  destruct (mintTextNFT demo_world (VStr (lit "hello")) false VNull VNull
                        (VStr (lit "a note")) []) as [[r|m] t'] eqn:E.
  - cbn [fst].
    rewrite (proj1 (C4_metadata_of_every_result _ _ _ _ _ _ _ _ _ E)).
    split; reflexivity.
  - vm_compute in E. discriminate E.
Defined.

(** C4 as stated fails for the empty description: it is given, and the
    metadata carries "CRUXZ NFT" instead. *)
Lemma C4_counterexample :
  exists r t',
    mintTextNFT demo_world (VStr (lit "hello")) false VNull VNull (VStr []) []
      = (Ok r, t')
    /\ member "description" (metadata_of r) = Some (VStr (lit "CRUXZ NFT"))
    /\ member "description" (metadata_of r) <> Some (VStr []).
Proof.
  destruct (mintTextNFT_prepares demo_world (VStr (lit "hello")) VNull VNull
              (VStr []) [] eq_refl) as [r E].
  exists r, ([] ++ [GetContract]). split; [exact E|].
  rewrite (mintTextNFT_metadata _ _ _ _ _ _ _ _ _ E).
  split; [reflexivity | discriminate].
Qed.

(** ** The token id of a mint *)

(** What [mintTextNFT] returns once the transaction is sent: the token id
    is what the inner [try] assigned, and "unknown" if it threw. *)
Lemma mintTextNFT_minted (w : world) (text : value)
    (privateKey toAddress description : value) (t : list call)
    (key uri : jsstring) (account : Account) (tx : Transaction) (sent : SendResult) :
  getContract w = Ok tt ->
  missing_or_blank "privateKey" privateKey = Ok false ->
  missing_or_blank "toAddress" toAddress = Ok false ->
  formatPrivateKey (string_of privateKey) = Ok key ->
  metadataUriOf (buildMetadata text description (now_iso w)) = Ok uri ->
  privateKeyToAccount w key = Ok account ->
  prepareContractCall w (string_of toAddress) uri = Ok tx ->
  sendTransaction w tx account = Ok sent ->
  mintTextNFT w text true privateKey toAddress description t =
    (Ok (Minted (match readTokenId sent with
                 | Ok v => v
                 | Throw _ => VStr (lit "unknown")
                 end)
                (transactionHash sent) (string_of toAddress)
                (buildMetadata text description (now_iso w))),
     t ++ [GetContract] ++ [PrivateKeyToAccount key]
       ++ [PrepareContractCall (string_of toAddress) uri]
       ++ [SendTransaction tx account]).
Proof.
  intros Hc Hk Ha Hf Hu Hacc Htx Hsend.
  unfold mintTextNFT, try_catch, bind, perform, lift, throw, ret.
  rewrite Hc, Hu. cbn [negb]. rewrite Hk, Ha, Hf, Hacc, Htx, Hsend.
  rewrite <- !app_assoc.
  destruct (readTokenId sent); reflexivity.
Qed.

(** The token id is the fourth topic of the first log when there is one,
    and "unknown" when the receipt, the logs or the topics are missing or
    the logs are empty. *)
Lemma readTokenId_cases (sent : SendResult) :
  match receipt sent with
  | None => exists e, readTokenId sent = Throw e
  | Some rc =>
      match logs rc with
      | None | Some [] => readTokenId sent = Ok (VStr (lit "unknown"))
      | Some (first :: _) =>
          match topics first with
          | None => exists e, readTokenId sent = Throw e
          | Some ts =>
              match nth_error ts 3 with
              | Some topic => readTokenId sent = Ok (VStr topic)
              | None => readTokenId sent = Ok VUndefined
              end
          end
      end
  end.
Proof.
  unfold readTokenId.
  destruct (receipt sent) as [rc|]; [|eexists; reflexivity].
  destruct (logs rc) as [[|first rest]|]; try reflexivity.
  destruct (topics first) as [ts|]; [|eexists; reflexivity].
  destruct (nth_error ts 3); reflexivity.
Qed.



(** ** Validation before the calls *)

Lemma blank_check (name : string) (x : value) :
  missing_or_blank name x =
    if blank x then Ok true
    else if not_a_string x then Throw (no_trim name)
    else Ok false.
Proof.
  unfold missing_or_blank, blank, not_a_string, no_trim.
  destruct (truthy x) eqn:Ht; [|reflexivity]. cbn [negb orb andb].
  destruct x as [| |b|l|s|l|ms]; try discriminate Ht; cbn [trim_receiver];
    try reflexivity.
  destruct (str_eqb (trim s) []); reflexivity.
Qed.







(** ** Delegation *)

(** C10. With [privateKey] and [toAddress] not blank,
    [mintTextNFTWithPrivateKey] returns what
    [mintTextNFT(client, text, true, privateKey, toAddress, description)]
    returns, after the same calls; when that call throws with message [m] it
    throws "Failed to mint NFT: " followed by [m], and [m] already starts
    with that prefix. *)
Theorem C10_with_private_key_delegates :
  forall (w : world) (text : value)
         (privateKey toAddress description : value) (t : list call),
    missing_or_blank "privateKey" privateKey = Ok false ->
    missing_or_blank "toAddress" toAddress = Ok false ->
    (forall r t',
        mintTextNFT w text true privateKey toAddress description t = (Ok r, t') ->
        mintTextNFTWithPrivateKey w text privateKey toAddress description t
          = (Ok r, t'))
    /\ (forall m t',
          mintTextNFT w text true privateKey toAddress description t = (Throw m, t') ->
          mintTextNFTWithPrivateKey w text privateKey toAddress description t
            = (Throw (lit "Failed to mint NFT: " ++ m), t')
          /\ exists cause, m = lit "Failed to mint NFT: " ++ cause).
Proof.
  intros w text privateKey toAddress description t Hk Ha.
  pose proof (mintTextNFTWithPrivateKey_delegates w text privateKey toAddress
                description t Hk Ha) as E.
  split.
  - intros r t' H. rewrite H in E. exact E.
  - intros m t' H. split.
    + rewrite H in E. exact E.
    + eapply mintTextNFT_throw_prefixed. exact H.
Qed.

Lemma C10_witness :
  (forall r t',
      mintTextNFT demo_world (VStr (lit "hello")) true (VStr demo_key)
                  (VStr demo_address) VNull [] = (Ok r, t') ->
      mintTextNFTWithPrivateKey demo_world (VStr (lit "hello")) (VStr demo_key)
                                (VStr demo_address) VNull [] = (Ok r, t'))
  /\ (forall m t',
        mintTextNFT demo_world (VStr (lit "hello")) true (VStr (lit "abc"))
                    (VStr demo_address) VNull [] = (Throw m, t') ->
        mintTextNFTWithPrivateKey demo_world (VStr (lit "hello")) (VStr (lit "abc"))
                                  (VStr demo_address) VNull []
          = (Throw (lit "Failed to mint NFT: " ++ m), t')
        /\ exists cause, m = lit "Failed to mint NFT: " ++ cause).
Proof.
  split.
  - exact (proj1 (C10_with_private_key_delegates demo_world (VStr (lit "hello"))
                    (VStr demo_key) (VStr demo_address) VNull [] eq_refl eq_refl)).
  - exact (proj2 (C10_with_private_key_delegates demo_world (VStr (lit "hello"))
                    (VStr (lit "abc")) (VStr demo_address) VNull [] eq_refl eq_refl)).
Defined.

(** ** Enumeration of a wallet *)

(** What an index resolves to does not depend on the calls made before. *)
Lemma resolveToken_any_trace (w : world) (walletAddress : value) (i : N)
    (t : list call) :
  fst (resolveToken w walletAddress i t) = fst (resolveToken w walletAddress i []).
Proof.
  unfold resolveToken, bind, perform, lift, ret.
  destruct (tokenOfOwnerByIndex w walletAddress i) as [tokenId|e]; [|reflexivity].
  destruct (tokenURI w tokenId) as [uri|e]; [|reflexivity].
  destruct (decodeTokenUri uri tokenId) as [metadata|e]; [|reflexivity].
  destruct (getProp metadata (lit "name")); [|reflexivity].
  destruct (getProp metadata (lit "description")); [|reflexivity].
  destruct (getProp metadata (lit "attributes")); reflexivity.
Qed.

(** One turn of the loop: the token of index [i] is appended when it
    resolves, and nothing is thrown. *)
Lemma enumerate_turn (w : world) (walletAddress : value) (i : N)
    (nfts : list WalletNft) (t : list call) :
  exists t',
    try_catch (bind (resolveToken w walletAddress i) (fun nft => ret (nfts ++ [nft])))
              (fun _ => ret nfts) t
    = (Ok (nfts ++ match resolved_at w walletAddress i with
                   | Some nft => [nft]
                   | None => []
                   end), t').
Proof.
  unfold resolved_at. rewrite <- (resolveToken_any_trace w walletAddress i t).
  unfold try_catch, bind, ret.
  destruct (resolveToken w walletAddress i t) as [[nft|e] t0]; cbn [fst].
  - exists t0. reflexivity.
  - exists t0. rewrite app_nil_r. reflexivity.
Qed.

Lemma enumerate_collects (w : world) (walletAddress : value) (count : nat) :
  forall (i : N) (nfts : list WalletNft) (t : list call),
  exists t',
    enumerate w walletAddress count i nfts t
      = (Ok (nfts ++ resolved_from w walletAddress count i), t').
Proof.
  induction count as [|count IH]; intros i nfts t.
  - exists t. unfold resolved_from. cbn. rewrite app_nil_r. reflexivity.
  - cbn [enumerate]. unfold bind at 1.
    destruct (enumerate_turn w walletAddress i nfts t) as [t0 E]. rewrite E.
    destruct (IH (i + 1)%N
                 (nfts ++ match resolved_at w walletAddress i with
                          | Some nft => [nft]
                          | None => []
                          end) t0) as [t1 E1].
    exists t1. rewrite E1. unfold resolved_from. cbn [indices flat_map].
    rewrite app_assoc. reflexivity.
Qed.

Lemma indices_app (a b : nat) (i : N) :
  indices (a + b) i = indices a i ++ indices b (i + N.of_nat a)%N.
Proof.
  revert i. induction a as [|a IH]; intros i.
  - cbn. rewrite N.add_0_r. reflexivity.
  - cbn [Nat.add indices app]. rewrite IH. do 3 f_equal. lia.
Qed.

Lemma resolved_from_skip (w : world) (walletAddress : value) (k m : nat) :
  resolved_at w walletAddress (N.of_nat k) = None ->
  resolved_from w walletAddress (k + S m) 0
    = resolved_from w walletAddress k 0
        ++ resolved_from w walletAddress m (N.of_nat k + 1)%N.
Proof.
  intros H. unfold resolved_from.
  rewrite indices_app, flat_map_app. cbn [indices flat_map N.add].
  rewrite H. reflexivity.
Qed.

Lemma resolved_at_throws (w : world) (walletAddress : value) (i : N) :
  (forall e, tokenOfOwnerByIndex w walletAddress i = Throw e ->
             resolved_at w walletAddress i = None)
  /\ (forall tokenId e,
        tokenOfOwnerByIndex w walletAddress i = Ok tokenId ->
        tokenURI w tokenId = Throw e ->
        resolved_at w walletAddress i = None)
  /\ (forall tokenId uri e,
        tokenOfOwnerByIndex w walletAddress i = Ok tokenId ->
        tokenURI w tokenId = Ok uri ->
        decodeTokenUri uri tokenId = Throw e ->
        resolved_at w walletAddress i = None).
Proof.
  unfold resolved_at, resolveToken, bind, perform, lift, ret.
  repeat split; intros.
  - rewrite H. reflexivity.
  - rewrite H, H0. reflexivity.
  - rewrite H, H0, H1. reflexivity.
Qed.

(** For a string, the line that is logged never fails: once the contract
    handle and the balance are read, [getWalletNFTs] returns. *)
Lemma getWalletNFTs_returns (w : world) (address : jsstring) (n : N)
    (t : list call) :
  getContract w = Ok tt -> balanceOf w (VStr address) = Ok n ->
  exists t',
    getWalletNFTs w (VStr address) t
      = (Ok (resolved_from w (VStr address) (N.to_nat n) 0), t').
Proof.
  intros Hc Hb. unfold getWalletNFTs, try_catch, bind, perform, lift.
  rewrite Hc, Hb. cbn [template_text to_string].
  destruct (enumerate_collects w (VStr address) (N.to_nat n) 0 []
              ((t ++ [GetContract]) ++ [ReadBalanceOf (VStr address)])) as [t' E].
  exists t'. rewrite E. reflexivity.
Qed.

(** C1. Once the contract handle and the balance [n] of a wallet address
    (a string) are read, [getWalletNFTs] returns (it does not throw) the
    tokens of the indices 0..n-1 whose resolution does not throw, in
    ascending index order: an index whose [tokenOfOwnerByIndex], [tokenURI]
    read or metadata decode throws contributes nothing, and the loop goes
    on with the next index.
    With three tokens of which index 1 throws, the result is the tokens of
    index 0 and index 2, in that order. *)
Theorem C1_failing_index_is_skipped :
  forall (w : world) (address : jsstring) (balance : N) (t : list call),
    getContract w = Ok tt ->
    balanceOf w (VStr address) = Ok balance ->
    (exists t',
        getWalletNFTs w (VStr address) t
          = (Ok (resolved_from w (VStr address) (N.to_nat balance) 0), t'))
    /\ (forall k m : nat,
          N.to_nat balance = (k + S m)%nat ->
          resolved_at w (VStr address) (N.of_nat k) = None ->
          resolved_from w (VStr address) (N.to_nat balance) 0
            = resolved_from w (VStr address) k 0
                ++ resolved_from w (VStr address) m (N.of_nat k + 1)%N)
    /\ (forall a c : WalletNft,
          balance = 3%N ->
          resolved_at w (VStr address) 0 = Some a ->
          resolved_at w (VStr address) 1 = None ->
          resolved_at w (VStr address) 2 = Some c ->
          resolved_from w (VStr address) (N.to_nat balance) 0 = [a; c])
    /\ (forall i : N,
          (forall e, tokenOfOwnerByIndex w (VStr address) i = Throw e ->
                     resolved_at w (VStr address) i = None)
          /\ (forall tokenId e,
                tokenOfOwnerByIndex w (VStr address) i = Ok tokenId ->
                tokenURI w tokenId = Throw e ->
                resolved_at w (VStr address) i = None)
          /\ (forall tokenId uri e,
                tokenOfOwnerByIndex w (VStr address) i = Ok tokenId ->
                tokenURI w tokenId = Ok uri ->
                decodeTokenUri uri tokenId = Throw e ->
                resolved_at w (VStr address) i = None)).
Proof.
  intros w address balance t Hc Hb. repeat apply conj.
  - apply getWalletNFTs_returns; assumption.
  - intros k m Hn Hk. rewrite Hn. apply resolved_from_skip. exact Hk.
  - intros a c -> H0 H1 H2. unfold resolved_from.
    change (N.to_nat 3) with 3%nat. cbn [indices flat_map].
    change (0 + 1)%N with 1%N. change (1 + 1)%N with 2%N.
    rewrite H0, H1, H2. reflexivity.
  - intros i. apply resolved_at_throws.
Qed.

Lemma C1_witness :
  exists t',
    getWalletNFTs demo_world (VStr demo_address) [] =
      (Ok [ mkWalletNft (lit "10") (VStr (lit "Token #10"))
                        (VStr (lit "No metadata available")) (VArr []);
            mkWalletNft (lit "12") (VStr (lit "CRUXZ NFT")) (VStr (lit "a note"))
              (VArr [ VObj [ (lit "trait_type", VStr (lit "Text"));
                             (lit "value", VStr (lit "hello")) ];
                      VObj [ (lit "trait_type", VStr (lit "Created At"));
                             (lit "value", VStr (lit "2024-12-31T23:59:59.000Z")) ] ]) ],
       t').
Proof.
  exact (proj1 (C1_failing_index_is_skipped demo_world demo_address 3 []
                  eq_refl eq_refl)).
Defined.

(** ** The API key gate *)

Lemma validateApiKey_cases (w : world) (req : request) :
  match x_api_key req with
  | None | Some [] =>
      exists r, validateApiKey w req = Respond r /\ status r = 401%nat
                /\ has_success (payload r)
  | Some (c :: k) =>
      if str_eqb (c :: k) (present (SERVER_API_KEY w))
         && match SERVER_API_KEY w with Some _ => true | None => false end
      then validateApiKey w req = Next
      else exists r, validateApiKey w req = Respond r /\ status r = 403%nat
                     /\ has_success (payload r)
  end.
Proof.
  unfold validateApiKey.
  destruct (x_api_key req) as [[|c k]|]; cbn [falsy].
  - eexists. split; [reflexivity|]. split; [reflexivity|].
    do 2 eexists. split; reflexivity.
  - destruct (SERVER_API_KEY w) as [secret|]; cbn [present negb andb].
    + destruct (str_eqb (c :: k) secret); cbn [negb andb]; [reflexivity|].
      eexists. split; [reflexivity|]. split; [reflexivity|].
      do 2 eexists. split; reflexivity.
    + rewrite andb_false_r.
      eexists. split; [reflexivity|]. split; [reflexivity|].
      do 2 eexists. split; reflexivity.
  - eexists. split; [reflexivity|]. split; [reflexivity|].
    do 2 eexists. split; reflexivity.
Qed.

(** C8 (amended). On the guarded server, a request whose [x-api-key]
    header is absent or empty is answered 401, and one whose header is not
    empty and differs from the configured secret is answered 403, in both
    cases without any route handler or SDK call; a request whose header is
    not empty and equals the secret goes on to the routes. *)
Theorem C8_api_key_gate :
  forall (w : world) (req : request) (t : list call),
    (falsy (x_api_key req) = true ->
       exists r, secured_app w req t = (Ok r, t) /\ status r = 401%nat)
    /\ (forall key,
          x_api_key req = Some key -> key <> [] -> SERVER_API_KEY w <> Some key ->
          exists r, secured_app w req t = (Ok r, t) /\ status r = 403%nat)
    /\ (forall key,
          x_api_key req = Some key -> key <> [] -> SERVER_API_KEY w = Some key ->
          validateApiKey w req = Next
          /\ secured_app w req t = secured_routes w req t).
Proof.
  intros w req t. pose proof (validateApiKey_cases w req) as H.
  unfold secured_app. repeat apply conj.
  - intros Hf. destruct (x_api_key req) as [[|c k]|]; try discriminate Hf;
      destruct H as [r [-> [Hs _]]]; exists r; split; auto.
  - intros key Hk Hne Hsecret. rewrite Hk in H.
    destruct key as [|c k]; [congruence|].
    destruct (SERVER_API_KEY w) as [secret|]; cbn [present andb] in H.
    + destruct (str_eqb (c :: k) secret) eqn:E.
      * apply str_eqb_eq in E. congruence.
      * cbn [andb] in H. destruct H as [r [-> [Hs _]]]. exists r. split; auto.
    + rewrite andb_false_r in H. destruct H as [r [-> [Hs _]]].
      exists r. split; auto.
  - intros key Hk Hne Hsecret. rewrite Hk in H.
    destruct key as [|c k]; [congruence|].
    rewrite Hsecret in H. cbn [present] in H. rewrite str_eqb_refl in H.
    cbn [andb] in H. rewrite H. split; reflexivity.
Qed.

Lemma C8_witness :
  (exists r,
      secured_app demo_world
        (mkRequest Contract None false VUndefined VUndefined
                               VUndefined VUndefined None) []
        = (Ok r, []) /\ status r = 401%nat)
  /\ (exists r,
        secured_app demo_world
          (mkRequest Contract (Some (lit "guess")) false VUndefined VUndefined
                               VUndefined VUndefined None) []
          = (Ok r, []) /\ status r = 403%nat)
  /\ secured_app demo_world demo_request []
       = secured_routes demo_world demo_request [].
Proof.
  repeat apply conj.
  - exact (proj1 (C8_api_key_gate demo_world
                    (mkRequest Contract None false VUndefined VUndefined
                               VUndefined VUndefined None) [])
                 eq_refl).
  - refine (proj1 (proj2 (C8_api_key_gate demo_world
                    (mkRequest Contract (Some (lit "guess")) false VUndefined VUndefined
                               VUndefined VUndefined None) []))
                  (lit "guess") eq_refl _ _); discriminate.
  - refine (proj2 (proj2 (proj2 (C8_api_key_gate demo_world demo_request []))
                    (lit "s3cret") eq_refl _ eq_refl)).
    discriminate.
Defined.

(** C8 as stated fails for a header that is present and empty: it differs
    from the secret, and the answer is 401, not 403. *)
Lemma C8_counterexample :
  let req := mkRequest Contract (Some []) false VUndefined VUndefined
                       VUndefined VUndefined None in
  x_api_key req <> None
  /\ x_api_key req <> SERVER_API_KEY demo_world
  /\ exists r, secured_app demo_world req [] = (Ok r, [])
               /\ status r = 401%nat /\ status r <> 403%nat.
Proof.
  cbv zeta. split; [discriminate|]. split; [discriminate|].
  eexists. split; [reflexivity|]. split; [reflexivity | discriminate].
Qed.

(** ** The [success] field *)

Lemma answers_ret (P : response -> Prop) (r : response) :
  P r -> answers P (ret r).
Proof. intros H t. exists r, t. split; [reflexivity | exact H]. Qed.

Lemma answers_weaken (P : response -> Prop) (m : M response) :
  answers P m -> answers_or_throws P m.
Proof.
  intros H t r t' E. destruct (H t) as [r0 [t0 [E0 HP]]].
  rewrite E0 in E. inversion E. subst. exact HP.
Qed.

Lemma throws_ret (P : response -> Prop) (r : response) :
  P r -> answers_or_throws P (ret r).
Proof. intros H t r0 t' E. inversion E. subst. exact H. Qed.

Lemma throws_throw (P : response -> Prop) (e : jsstring) :
  answers_or_throws P (throw e).
Proof. intros t r t' E. discriminate E. Qed.

Lemma throws_bind {A : Type} (P : response -> Prop) (m : M A) (k : A -> M response) :
  (forall a, answers_or_throws P (k a)) -> answers_or_throws P (bind m k).
Proof.
  intros H t r t' E. unfold bind in E.
  destruct (m t) as [[a|e] t0]; [|discriminate E].
  exact (H a t0 r t' E).
Qed.

Lemma answers_try_catch (P : response -> Prop) (m : M response)
    (h : jsstring -> M response) :
  answers_or_throws P m -> (forall e, answers P (h e)) ->
  answers P (try_catch m h).
Proof.
  intros Hm Hh t. unfold try_catch.
  destruct (m t) as [[r|e] t0] eqn:E.
  - exists r, t0. split; [reflexivity|]. exact (Hm t r t0 E).
  - exact (Hh e t0).
Qed.

Lemma answers_bind {A : Type} (P : response -> Prop) (m : M A) (k : A -> M response) :
  (forall t, exists a t', m t = (Ok a, t')) ->
  (forall a, answers P (k a)) -> answers P (bind m k).
Proof.
  intros Hm Hk t. unfold bind.
  destruct (Hm t) as [a [t0 E]]. rewrite E. exact (Hk a t0).
Qed.

Lemma answers_after (P Q : response -> Prop) (m : M response)
    (k : response -> M response) :
  answers Q m -> (forall r, Q r -> answers P (k r)) -> answers P (bind m k).
Proof.
  intros Hm Hk t. unfold bind.
  destruct (Hm t) as [r [t0 [E HQ]]]. rewrite E. exact (Hk r HQ t0).
Qed.

Lemma answers_handle (P : response -> Prop) (name : string) (h : M response) :
  answers P h -> answers P (handle name h).
Proof.
  intros H. unfold handle. apply answers_bind; [|intros _; exact H].
  intros t. eexists. eexists. reflexivity.
Qed.

Lemma json_success (code : nat) (flag : bool) (rest : list (jsstring * value)) :
  success_or_page (json code ((lit "success", VBool flag) :: rest)).
Proof. right. exists ((lit "success", VBool flag) :: rest), flag. split; reflexivity. Qed.

Lemma with_headers_success (h : list (jsstring * jsstring)) (r : response) :
  success_or_page r -> success_or_page (with_headers h r).
Proof. intros H. exact H. Qed.

Ltac success_body :=
  first [ apply json_success | apply with_headers_success; apply json_success ].

Ltac or_throws :=
  repeat match goal with
         | |- answers_or_throws _ (if ?c then _ else _) => destruct c
         | |- answers_or_throws _ (match ?x with _ => _ end) => destruct x
         | |- answers_or_throws _ (ret _) => apply throws_ret; success_body
         | |- answers_or_throws _ (throw _) => apply throws_throw
         | |- answers_or_throws _ (bind _ _) => apply throws_bind; intros
         | |- answers_or_throws _ (try_catch _ _) =>
             apply answers_weaken; apply answers_try_catch; [|intros]
         | |- answers _ (ret _) => apply answers_ret; success_body
         end.

Ltac handler :=
  apply answers_try_catch;
  [ or_throws | intros; apply answers_ret; success_body ].

Lemma contract_handler_success (w : world) :
  answers success_or_page (contract_handler w).
Proof. unfold contract_handler. handler. Qed.

Lemma prepare_handler_success (w : world) (req : request) :
  answers success_or_page (prepare_handler w req).
Proof. unfold prepare_handler. handler. Qed.

Lemma mint_handler_success (w : world) (req : request) :
  answers success_or_page (mint_handler w req).
Proof. unfold mint_handler. handler. Qed.

Lemma mint_with_key_handler_success (w : world) (req : request) :
  answers success_or_page (mint_with_key_handler w req).
Proof. unfold mint_with_key_handler. handler. Qed.

Lemma index_nfts_handler_success (w : world) (req : request) :
  answers success_or_page (index_nfts_handler w req).
Proof. unfold index_nfts_handler. handler. Qed.

Lemma index_test_key_handler_success (w : world) (req : request) :
  answers success_or_page (index_test_key_handler w req).
Proof. unfold index_test_key_handler. handler. Qed.

Lemma secured_test_key_handler_success (w : world) (req : request) :
  answers success_or_page (secured_test_key_handler w req).
Proof. unfold secured_test_key_handler. handler. Qed.

Lemma nfts_query_success (w : world) (field : value) (missing : string)
    (extra : list (jsstring * value)) (h : list (jsstring * jsstring)) :
  answers success_or_page (nfts_query w field missing extra h).
Proof. unfold nfts_query. handler. Qed.

Lemma secured_nfts_get_handler_success (w : world) (req : request) :
  answers success_or_page (secured_nfts_get_handler w req).
Proof.
  unfold secured_nfts_get_handler.
  eapply answers_after; [apply nfts_query_success|].
  intros r Hr. apply answers_ret. apply with_headers_success. exact Hr.
Qed.

Lemma page_success (code : nat) : success_or_page (mkResponse code [] ExpressPage).
Proof. left. reflexivity. Qed.

(** C9 (amended). Both servers answer every request, and every JSON body
    they send carries a boolean [success], except the body of GET /health:
    on the server of src/index.js for every route other than /health, on
    the guarded server for every route other than /health and for every
    request the API key gate turns away. *)
Theorem C9_success_except_health :
  forall (w : world) (req : request) (t : list call),
    (target req <> Health ->
       exists r t', index_app w req t = (Ok r, t') /\ success_or_page r)
    /\ (target req <> Health \/ validateApiKey w req <> Next ->
          exists r t', secured_app w req t = (Ok r, t') /\ success_or_page r).
Proof.
  intros w req t. split.
  - intros Hroute. revert t. change (answers success_or_page (index_app w req)).
    unfold index_app. destruct (body_rejected req).
    + apply answers_ret, page_success.
    + destruct (target req); try congruence;
        try (apply answers_handle);
        first [ apply contract_handler_success
              | apply prepare_handler_success
              | apply mint_handler_success
              | apply mint_with_key_handler_success
              | apply index_nfts_handler_success
              | apply index_test_key_handler_success
              | apply answers_ret, page_success ].
  - intros Hroute. revert t. change (answers success_or_page (secured_app w req)).
    unfold secured_app.
    pose proof (validateApiKey_cases w req) as Hgate.
    destruct (validateApiKey w req) as [r|] eqn:Hv.
    + apply answers_ret.
      destruct (x_api_key req) as [[|c k]|].
      * destruct Hgate as [r0 [E [_ Hs]]]. inversion E. right. exact Hs.
      * destruct (str_eqb (c :: k) (present (SERVER_API_KEY w))
                  && match SERVER_API_KEY w with Some _ => true | None => false end);
          [discriminate Hgate|].
        destruct Hgate as [r0 [E [_ Hs]]]. inversion E. right. exact Hs.
      * destruct Hgate as [r0 [E [_ Hs]]]. inversion E. right. exact Hs.
    + destruct Hroute as [Hroute|Hroute]; [|congruence].
      unfold secured_routes. destruct (body_rejected req).
      * apply answers_ret. apply json_success.
      * destruct (target req); try congruence;
          try (apply answers_handle);
          first [ apply contract_handler_success
                | apply prepare_handler_success
                | apply mint_handler_success
                | apply nfts_query_success
                | apply secured_nfts_get_handler_success
                | apply secured_test_key_handler_success
                | apply answers_ret, page_success ].
Qed.

Lemma C9_witness :
  (exists r t', index_app demo_world demo_request [] = (Ok r, t') /\ success_or_page r)
  /\ (exists r t',
        secured_app demo_world demo_request [] = (Ok r, t') /\ success_or_page r).
Proof.
  split.
  - refine (proj1 (C9_success_except_health demo_world demo_request []) _).
    discriminate.
  - refine (proj2 (C9_success_except_health demo_world demo_request []) _).
    left. discriminate.
Defined.

(** C9 as stated fails for GET /health on both servers: the body is JSON
    and has no [success] field. *)
Lemma C9_counterexample :
  let req := mkRequest Health (Some (lit "s3cret")) false VUndefined VUndefined
                       VUndefined VUndefined None in
  (exists r t', index_app demo_world req [] = (Ok r, t')
                /\ payload r = Json (VObj [ (lit "status", VStr (lit "healthy")) ])
                /\ ~ has_success (payload r))
  /\ (exists r t', secured_app demo_world req [] = (Ok r, t')
                   /\ status r = 200%nat
                   /\ ~ has_success (payload r)).
Proof.
  cbv zeta. split.
  - do 2 eexists. split; [reflexivity|]. split; [reflexivity|].
    intros [members [flag [E L]]]. inversion E. subst members. discriminate L.
  - do 2 eexists. split; [reflexivity|]. split; [reflexivity|].
    intros [members [flag [E L]]]. inversion E. subst members. discriminate L.
Qed.

(** ** The token URI *)

Lemma remove_first_prefix (p s : jsstring) : remove_first p (p ++ s) = s.
Proof.
  assert (E : forall x, remove_first p x =
                        if startsWith p x then skipn (List.length p) x
                        else match x with
                             | [] => []
                             | c :: r => c :: remove_first p r
                             end) by (intros [|c r]; reflexivity).
  rewrite E, startsWith_app, skipn_app, skipn_all, Nat.sub_diag. reflexivity.
Qed.

(** The decode of the enumerator inverts the encode of the builder, for
    every value the two JSON functions agree on. *)
Lemma decode_inverts_encode (v : value) (uri : jsstring) (tokenId : N) :
  plain v -> strings_ok v -> metadataUriOf v = Ok uri ->
  exists json,
    JSON_stringify v = Some json
    /\ uri = data_uri_prefix ++ base64_encode (utf8_encode json)
    /\ utf8_decode (base64_decode (remove_first data_uri_prefix uri)) = json
    /\ JSON_parse json = Some v
    /\ decodeTokenUri uri tokenId = Ok v.
Proof.
  intros Hp Hs Hu. unfold metadataUriOf in Hu.
  rewrite (stringify_plain v Hp) in Hu. assert (Huri : uri = data_uri_prefix ++ base64_encode (utf8_encode (ser v)))
    by congruence.
  subst uri. clear Hu.
  exists (ser v).
  assert (Hwf : well_formed (ser v)) by (apply ser_well_formed; assumption).
  assert (Hdec : utf8_decode (base64_decode
                   (remove_first data_uri_prefix
                      (data_uri_prefix ++ base64_encode (utf8_encode (ser v)))))
                 = ser v).
  { rewrite remove_first_prefix, base64_round_trip by (apply utf8_encode_bytes, Hwf).
    apply utf8_round_trip. exact Hwf. }
  assert (Hparse : JSON_parse (ser v) = Some v)
    by (apply JSON_round_trip; [exact Hp | apply stringify_plain; exact Hp]).
  split; [apply stringify_plain; exact Hp|].
  split; [reflexivity|]. split; [exact Hdec|]. split; [exact Hparse|].
  unfold decodeTokenUri. rewrite startsWith_app, Hdec, Hparse. reflexivity.
Qed.

Lemma or_else_optional (description : option jsstring) :
  or_else (optional description) (VStr (lit "CRUXZ NFT"))
    = VStr (description_or_default description).
Proof. destruct description as [[|c d]|]; reflexivity. Qed.

Lemma buildMetadata_plain (text : jsstring) (description : option jsstring)
    (now : jsstring) :
  plain (buildMetadata (VStr text) (optional description) now).
Proof.
  unfold buildMetadata. rewrite or_else_optional.
  cbn [plain fold_right map fst snd].
  repeat split; try reflexivity;
    repeat (apply NoDup_cons; [cbn; intuition discriminate|]); apply NoDup_nil.
Qed.

Lemma description_or_default_ok (description : option jsstring) :
  units_ok (present description) -> units_ok (description_or_default description).
Proof.
  intros H. destruct description as [[|c d]|]; cbn [description_or_default present] in *;
    try exact H; unfold units_ok; repeat (constructor; [reflexivity|]); constructor.
Qed.

Lemma buildMetadata_strings_ok (text : jsstring) (description : option jsstring)
    (now : jsstring) :
  units_ok text -> units_ok (present description) -> units_ok now ->
  strings_ok (buildMetadata (VStr text) (optional description) now).
Proof.
  intros Ht Hd Hn. pose proof (description_or_default_ok description Hd) as Hd'.
  unfold buildMetadata. rewrite or_else_optional.
  cbn [strings_ok fold_right fst snd].
  repeat split; try assumption;
    unfold units_ok; repeat (constructor; [reflexivity|]); constructor.
Qed.

(** C5. For the metadata the builder makes from any text, description and
    timestamp, the token URI is the prefix followed by the base64 of the
    UTF-8 of the JSON text; removing the prefix, decoding the base64 and
    the UTF-8 gives that JSON text back unit for unit, and parsing it gives
    exactly the metadata that was encoded: the decode of [getWalletNFTs]
    returns it, and the token resolves to its name, description and
    attributes. *)
Theorem C5_decode_inverts_encode :
  forall (text : jsstring) (description : option jsstring) (now : jsstring),
    units_ok text -> units_ok (present description) -> units_ok now ->
    let metadata := buildMetadata (VStr text) (optional description) now in
    exists json uri,
      JSON_stringify metadata = Some json
      /\ metadataUriOf metadata = Ok uri
      /\ uri = data_uri_prefix ++ base64_encode (utf8_encode json)
      /\ utf8_decode (base64_decode (remove_first data_uri_prefix uri)) = json
      /\ JSON_parse json = Some metadata
      /\ (forall tokenId, decodeTokenUri uri tokenId = Ok metadata)
      /\ (forall w walletAddress i tokenId,
            tokenOfOwnerByIndex w walletAddress i = Ok tokenId ->
            tokenURI w tokenId = Ok uri ->
            resolved_at w walletAddress i =
              Some (mkWalletNft (decimal tokenId)
                      (VStr (lit "CRUXZ NFT"))
                      (VStr (description_or_default description))
                      (VArr [ VObj [ (lit "trait_type", VStr (lit "Text"));
                                     (lit "value", VStr text) ];
                              VObj [ (lit "trait_type", VStr (lit "Created At"));
                                     (lit "value", VStr now) ] ]))).
Proof.
  intros text description now Ht Hd Hn metadata.
  pose proof (buildMetadata_plain text description now) as Hp.
  pose proof (buildMetadata_strings_ok text description now Ht Hd Hn) as Hs.
  destruct (metadataUriOf_build (VStr text) (optional description) now) as [uri Huri].
  destruct (decode_inverts_encode _ uri 0%N Hp Hs Huri)
    as [json [Hj [Hu [Hdec [Hparse _]]]]].
  exists json, uri. repeat apply conj; try assumption.
  - intros tokenId.
    destruct (decode_inverts_encode _ uri tokenId Hp Hs Huri)
      as [_ [_ [_ [_ [_ H]]]]]. exact H.
  - intros w walletAddress i tokenId Hid Huri'.
    destruct (decode_inverts_encode _ uri tokenId Hp Hs Huri)
      as [_ [_ [_ [_ [_ H]]]]].
    unfold resolved_at, resolveToken, bind, perform, lift, ret.
    rewrite Hid, Huri', H. unfold metadata, buildMetadata.
    rewrite or_else_optional.
    destruct description as [[|c d]|]; reflexivity.
Qed.

Lemma C5_witness :
  exists uri,
    metadataUriOf
      (buildMetadata (VStr (lit "smile " ++ [0xD83D; 0xDE00; 0xD800; 0x22; 0x0A]%N))
                     (optional (Some (lit "caf" ++ [0xE9; 0x20AC]%N)))
                     (lit "2025-01-02T03:04:05.678Z")) = Ok uri
    /\ decodeTokenUri uri 7%N
         = Ok (buildMetadata
                 (VStr (lit "smile " ++ [0xD83D; 0xDE00; 0xD800; 0x22; 0x0A]%N))
                 (optional (Some (lit "caf" ++ [0xE9; 0x20AC]%N)))
                 (lit "2025-01-02T03:04:05.678Z")).
Proof.
  destruct (C5_decode_inverts_encode
              (lit "smile " ++ [0xD83D; 0xDE00; 0xD800; 0x22; 0x0A]%N)
              (Some (lit "caf" ++ [0xE9; 0x20AC]%N))
              (lit "2025-01-02T03:04:05.678Z"))
    as [json [uri [_ [Huri [_ [_ [_ [Hdecode _]]]]]]]].
  - unfold units_ok. repeat (constructor; [reflexivity|]). constructor.
  - unfold units_ok. repeat (constructor; [reflexivity|]). constructor.
  - unfold units_ok. repeat (constructor; [reflexivity|]). constructor.
  - exists uri. split; [exact Huri | exact (Hdecode 7%N)].
Defined.

(* ===================================================================== *)
(** * Further properties of the service *)
(* ===================================================================== *)

Import Scenarios.

(** ** getContractInfo *)

(** X1. When the name, the symbol and the total supply are read,
    [getContractInfo] returns whatever the owner read does: the owner is
    the one read, or "unknown" when that read throws; the total supply is
    the decimal text of the number read; the five calls are made once each,
    in source order. *)
Theorem X1_contract_info_owner_isolated :
  forall (w : world) (t : list call) (name symbol : jsstring) (supply : N),
    getContract w = Ok tt ->
    readName w = Ok name ->
    readSymbol w = Ok symbol ->
    readTotalSupply w = Ok supply ->
    getContractInfo w t =
      (Ok (mkContractInfo name symbol
             (match readOwner w with
              | Ok owner => owner
              | Throw _ => lit "unknown"
              end)
             (decimal supply) (NFT_CONTRACT_ADDRESS w)),
       t ++ [GetContract; ReadName; ReadSymbol; ReadOwner; ReadTotalSupply]).
Proof.
  intros w t name symbol supply Hc Hn Hs Ht.
  unfold getContractInfo, try_catch, bind, perform, ret.
  rewrite Hc, Hn, Hs. destruct (readOwner w) as [owner|e]; rewrite Ht;
    rewrite <- !app_assoc; reflexivity.
Qed.

Lemma X1_witness :
  getContractInfo (with_readOwner demo_world (Throw (lit "execution reverted"))) []
    = (Ok (mkContractInfo (lit "CruxzNFT") (lit "CRUXZNFT") (lit "unknown") (lit "3")
             (Some (lit "0xc0ffee254729296a45a3885639AC7E10F9d54979"))),
       [GetContract; ReadName; ReadSymbol; ReadOwner; ReadTotalSupply]).
Proof.
  exact (X1_contract_info_owner_isolated
           (with_readOwner demo_world (Throw (lit "execution reverted"))) []
           (lit "CruxzNFT") (lit "CRUXZNFT") 3%N eq_refl eq_refl eq_refl eq_refl).
Defined.

(** X2. When [getContractInfo] throws, its message is
    "Failed to get contract info: " followed by the message of the first
    of [getContract], [name], [symbol], [totalSupply] that threw, and no
    call is made after that one; a throw of the owner read alone never
    makes it throw. *)
Theorem X2_contract_info_failure :
  forall (w : world) (t t' : list call) (m : jsstring),
    getContractInfo w t = (Throw m, t') ->
    exists cause,
      m = lit "Failed to get contract info: " ++ cause
      /\ ((getContract w = Throw cause /\ t' = t ++ [GetContract])
          \/ (readName w = Throw cause /\ t' = t ++ [GetContract; ReadName])
          \/ (readSymbol w = Throw cause
              /\ t' = t ++ [GetContract; ReadName; ReadSymbol])
          \/ (readTotalSupply w = Throw cause
              /\ t' = t ++ [GetContract; ReadName; ReadSymbol; ReadOwner;
                            ReadTotalSupply])).
Proof.
  intros w t t' m. unfold getContractInfo, try_catch, bind, perform, ret, throw.
  destruct (getContract w) as [[]|e0].
  2:{ intros H. inversion H. exists e0. split; [reflexivity|]. left. split; reflexivity. }
  destruct (readName w) as [name|e1].
  2:{ intros H. inversion H. exists e1. split; [reflexivity|]. right; left.
      rewrite <- app_assoc. split; reflexivity. }
  destruct (readSymbol w) as [symbol|e2].
  2:{ intros H. inversion H. exists e2. split; [reflexivity|]. right; right; left.
      rewrite <- !app_assoc. split; reflexivity. }
  destruct (readOwner w) as [owner|e3];
    (destruct (readTotalSupply w) as [supply|e4]; [discriminate|]);
    intros H; inversion H; exists e4; (split; [reflexivity|]);
    right; right; right; rewrite <- !app_assoc; split; reflexivity.
Qed.

Lemma X2_witness :
  exists cause,
    lit "Failed to get contract info: symbol() reverted"
      = lit "Failed to get contract info: " ++ cause
    /\ ((getContract (with_readSymbol demo_world (Throw (lit "symbol() reverted")))
           = Throw cause /\ [GetContract; ReadName; ReadSymbol] = [] ++ [GetContract])
        \/ (readName (with_readSymbol demo_world (Throw (lit "symbol() reverted")))
              = Throw cause
            /\ [GetContract; ReadName; ReadSymbol] = [] ++ [GetContract; ReadName])
        \/ (readSymbol (with_readSymbol demo_world (Throw (lit "symbol() reverted")))
              = Throw cause
            /\ [GetContract; ReadName; ReadSymbol]
                 = [] ++ [GetContract; ReadName; ReadSymbol])
        \/ (readTotalSupply (with_readSymbol demo_world (Throw (lit "symbol() reverted")))
              = Throw cause
            /\ [GetContract; ReadName; ReadSymbol]
                 = [] ++ [GetContract; ReadName; ReadSymbol; ReadOwner;
                          ReadTotalSupply])).
Proof.
  exact (X2_contract_info_failure
           (with_readSymbol demo_world (Throw (lit "symbol() reverted"))) []
           [GetContract; ReadName; ReadSymbol]
           (lit "Failed to get contract info: symbol() reverted") eq_refl).
Defined.

(** ** The prepare path *)

Lemma mintTextNFT_prepare_result (w : world) (text : value)
    (privateKey toAddress description : value) (t : list call) :
  mintTextNFT w text false privateKey toAddress description t =
    match getContract w with
    | Ok _ =>
        (Ok (Prepared prepare_message (env_value (NFT_CONTRACT_ADDRESS w))
                      (buildMetadata text description (now_iso w))
                      (prepare_instructions w)),
         t ++ [GetContract])
    | Throw e => (Throw (lit "Failed to mint NFT: " ++ e), t ++ [GetContract])
    end.
Proof.
  unfold mintTextNFT, try_catch, bind, perform, lift, throw, ret.
  destruct (getContract w) as [[]|e]; [|reflexivity].
  destruct (metadataUriOf_build text description (now_iso w)) as [uri Huri].
  rewrite Huri. reflexivity.
Qed.

(** X3. With [performMint = false], [mintTextNFT] never looks at the
    private key or the recipient: whatever they are, it makes one call,
    [getContract], and returns the prepared result with the metadata, the
    contract address of the environment and the four instructions, or
    throws "Failed to mint NFT: " with the message of [getContract]. *)
Theorem X3_prepare_path :
  forall (w : world) (text : value)
         (privateKey toAddress description : value) (t : list call),
    mintTextNFT w text false privateKey toAddress description t =
      match getContract w with
      | Ok _ =>
          (Ok (Prepared prepare_message (env_value (NFT_CONTRACT_ADDRESS w))
                        (buildMetadata text description (now_iso w))
                        (prepare_instructions w)),
           t ++ [GetContract])
      | Throw e => (Throw (lit "Failed to mint NFT: " ++ e), t ++ [GetContract])
      end.
Proof.
  intros w text privateKey toAddress description t.
  apply mintTextNFT_prepare_result.
Qed.

(** X4. POST /api/mint/text/prepare answers 400 without any call when
    [text] is missing or empty (or any other falsy value); otherwise it
    makes the one call of the prepare path and answers 200 with status
    "prepared", the metadata built from the text with the default
    description, the contract address and the instructions, or 500 with
    the wrapped message of [getContract]. *)
Theorem X4_prepare_route :
  forall (w : world) (req : request) (t : list call),
    prepare_handler w req t =
      if negb (truthy (text req)) then
        (Ok (json 400 (failure "Missing required field: text")), t)
      else
        match getContract w with
        | Ok _ =>
            (Ok (json 200
                   [ (lit "success", VBool true);
                     (lit "status", VStr (lit "prepared"));
                     (lit "message", VStr prepare_message);
                     (lit "contract", env_value (NFT_CONTRACT_ADDRESS w));
                     (lit "metadata",
                       VObj [ (lit "name", VStr (lit "CRUXZ NFT"));
                              (lit "description", VStr (lit "CRUXZ NFT"));
                              (lit "attributes",
                                VArr [ VObj [ (lit "trait_type", VStr (lit "Text"));
                                              (lit "value", text req) ];
                                       VObj [ (lit "trait_type",
                                                VStr (lit "Created At"));
                                              (lit "value", VStr (now_iso w)) ] ]) ]);
                     (lit "instructions",
                       VArr (map VStr (prepare_instructions w))) ]),
             t ++ [GetContract])
        | Throw e =>
            (Ok (json 500 (failure_details "Failed to prepare NFT"
                             (lit "Failed to mint NFT: " ++ e))),
             t ++ [GetContract])
        end.
Proof.
  intros w req t. unfold prepare_handler, try_catch at 1.
  destruct (negb (truthy (text req))); [reflexivity|].
  unfold bind. rewrite mintTextNFT_prepare_result.
  destruct (getContract w) as [[]|e]; reflexivity.
Qed.

(** ** The mint path *)

(** X5. A mint that goes through makes four calls, once each and in this
    order: [getContract], [privateKeyToAccount] with the formatted key,
    [prepareContractCall] with the recipient as it was given (not trimmed)
    and the metadata URI, [sendTransaction] with the prepared transaction
    and the derived account; the result carries the transaction hash, the
    recipient and the metadata that was encoded. *)
Theorem X5_mint_calls_in_order :
  forall (w : world) (text : value)
         (privateKey toAddress description : value) (t : list call)
         (key uri : jsstring) (account : Account) (tx : Transaction)
         (sent : SendResult),
    getContract w = Ok tt ->
    missing_or_blank "privateKey" privateKey = Ok false ->
    missing_or_blank "toAddress" toAddress = Ok false ->
    formatPrivateKey (string_of privateKey) = Ok key ->
    metadataUriOf (buildMetadata text description (now_iso w)) = Ok uri ->
    privateKeyToAccount w key = Ok account ->
    prepareContractCall w (string_of toAddress) uri = Ok tx ->
    sendTransaction w tx account = Ok sent ->
    exists tokenId,
      mintTextNFT w text true privateKey toAddress description t
        = (Ok (Minted tokenId (transactionHash sent) (string_of toAddress)
                      (buildMetadata text description (now_iso w))),
           t ++ mint_calls key (string_of toAddress) uri tx account).
Proof.
  intros w text privateKey toAddress description t key uri account tx sent
         Hc Hk Ha Hf Hu Hacc Htx Hsend.
  eexists.
  exact (mintTextNFT_minted w text privateKey toAddress description t key uri
           account tx sent Hc Hk Ha Hf Hu Hacc Htx Hsend).
Qed.

Lemma X5_witness :
  exists uri tokenId,
    mintTextNFT demo_world (VStr (lit "hello")) true (VStr (lit " 0x" ++ demo_key))
                (VStr (lit " " ++ demo_address)) VNull []
      = (Ok (Minted tokenId (lit "0xabc") (lit " " ++ demo_address)
                    (buildMetadata (VStr (lit "hello")) VNull (now_iso demo_world))),
         [] ++ mint_calls demo_key (lit " " ++ demo_address) uri
                 (mkTransaction (lit " " ++ demo_address) uri)
                 (mkAccount demo_address)).
Proof.
  destruct (metadataUriOf_build (VStr (lit "hello")) VNull (now_iso demo_world))
    as [uri Huri].
  exists uri.
  exact (X5_mint_calls_in_order demo_world (VStr (lit "hello"))
           (VStr (lit " 0x" ++ demo_key)) (VStr (lit " " ++ demo_address)) VNull []
           demo_key uri (mkAccount demo_address)
           (mkTransaction (lit " " ++ demo_address) uri)
           (sent_without_receipt (lit "0xabc"))
           eq_refl eq_refl eq_refl eq_refl Huri eq_refl eq_refl eq_refl).
Defined.

(** X6. After a mint that goes through, the token id of the result is
    the fourth topic of the first log of the receipt when that log has
    one, and "unknown" when the result has no receipt, the receipt has no
    logs or an empty list of logs, or the first log has no topics. *)
Theorem X6_token_id_of_a_mint :
  forall (w : world) (text : value)
         (privateKey toAddress description : value) (t : list call)
         (key uri : jsstring) (account : Account) (tx : Transaction)
         (sent : SendResult),
    getContract w = Ok tt ->
    missing_or_blank "privateKey" privateKey = Ok false ->
    missing_or_blank "toAddress" toAddress = Ok false ->
    formatPrivateKey (string_of privateKey) = Ok key ->
    metadataUriOf (buildMetadata text description (now_iso w)) = Ok uri ->
    privateKeyToAccount w key = Ok account ->
    prepareContractCall w (string_of toAddress) uri = Ok tx ->
    sendTransaction w tx account = Ok sent ->
    exists t',
      mintTextNFT w text true privateKey toAddress description t
        = (Ok (Minted (tokenId_after sent) (transactionHash sent)
                      (string_of toAddress)
                      (buildMetadata text description (now_iso w))), t')
      /\ (receipt sent = None -> tokenId_after sent = VStr (lit "unknown"))
      /\ (forall rc, receipt sent = Some rc -> logs rc = None \/ logs rc = Some [] ->
            tokenId_after sent = VStr (lit "unknown"))
      /\ (forall rc first rest,
            receipt sent = Some rc -> logs rc = Some (first :: rest) ->
            topics first = None -> tokenId_after sent = VStr (lit "unknown"))
      /\ (forall rc first rest ts topic,
            receipt sent = Some rc -> logs rc = Some (first :: rest) ->
            topics first = Some ts -> nth_error ts 3 = Some topic ->
            tokenId_after sent = VStr topic).
Proof.
  intros w text privateKey toAddress description t key uri account tx sent
         Hc Hk Ha Hf Hu Hacc Htx Hsend.
  eexists. split.
  - rewrite (mintTextNFT_minted w text privateKey toAddress description t key uri
               account tx sent Hc Hk Ha Hf Hu Hacc Htx Hsend).
    f_equal. f_equal. f_equal. unfold readTokenId, tokenId_after.
    destruct (receipt sent) as [rc|]; [|reflexivity].
    destruct (logs rc) as [[|first rest]|]; try reflexivity.
    destruct (topics first); reflexivity.
  - unfold tokenId_after. repeat apply conj.
    + intros ->. reflexivity.
    + intros rc -> [-> | ->]; reflexivity.
    + intros rc first rest -> -> ->. reflexivity.
    + intros rc first rest ts topic -> -> -> ->. reflexivity.
Qed.

Lemma X6_witness :
  exists t',
    mintTextNFT (with_sendTransaction demo_world (fun _ _ => Ok transfer_receipt))
                (VStr (lit "hello")) true (VStr demo_key) (VStr demo_address) VNull []
      = (Ok (Minted (VStr (demo_topic 13)) (lit "0xabc") demo_address
                    (buildMetadata (VStr (lit "hello")) VNull (now_iso demo_world))),
         t').
Proof.
  destruct (metadataUriOf_build (VStr (lit "hello")) VNull (now_iso demo_world))
    as [uri Huri].
  destruct (X6_token_id_of_a_mint
              (with_sendTransaction demo_world (fun _ _ => Ok transfer_receipt))
              (VStr (lit "hello")) (VStr demo_key) (VStr demo_address) VNull []
              demo_key uri (mkAccount demo_address) (mkTransaction demo_address uri)
              transfer_receipt eq_refl eq_refl eq_refl eq_refl Huri eq_refl eq_refl
              eq_refl) as [t' [H _]].
  exists t'. exact H.
Defined.

(** X7. Whatever its arguments and whatever the SDK answers,
    [mintTextNFT] makes at most four calls, and it calls [sendTransaction]
    only on the mint path, after both fields passed the check, the key
    passed the length check, and the account derivation and the
    transaction preparation both succeeded: the transaction sent is the
    one prepared for the recipient with the metadata URI, signed by the
    account derived from the formatted key. *)
Theorem X7_send_only_after_checks :
  forall (w : world) (text : value) (performMint : bool)
         (privateKey toAddress description : value) (t : list call),
    exists r t',
      mintTextNFT w text performMint privateKey toAddress description t
        = (r, t ++ t')
      /\ (List.length t' <= 4)%nat
      /\ forall tx account,
           In (SendTransaction tx account) t' ->
           performMint = true
           /\ missing_or_blank "privateKey" privateKey = Ok false
           /\ missing_or_blank "toAddress" toAddress = Ok false
           /\ exists key uri,
                formatPrivateKey (string_of privateKey) = Ok key
                /\ metadataUriOf (buildMetadata text description (now_iso w)) = Ok uri
                /\ privateKeyToAccount w key = Ok account
                /\ prepareContractCall w (string_of toAddress) uri = Ok tx.
Proof.
  intros w text performMint privateKey toAddress description t.
  unfold mintTextNFT, try_catch, bind, perform, lift, throw, ret.
  destruct (metadataUriOf_build text description (now_iso w)) as [uri Huri].
  rewrite Huri.
  destruct (getContract w) as [[]|e0]; destruct performMint; cbn [negb];
    repeat match goal with
           | |- context [match ?x with Ok _ => _ | Throw _ => _ end] =>
               match x with
               | missing_or_blank _ _ => destruct x as [[|]|] eqn:?
               | _ => destruct x eqn:?
               end
           end;
    rewrite <- ?app_assoc; cbn [app];
    do 2 eexists; (split; [reflexivity|]); (split; [cbn; lia|]);
    intros tx0 account0 Hin; cbn in Hin;
    repeat match goal with
           | H : _ \/ _ |- _ => destruct H as [H|H]
           | H : False |- _ => destruct H
           end;
    try discriminate.
  all: match goal with
       | H : SendTransaction _ _ = SendTransaction _ _ |- _ =>
           inversion H; subst; clear H
       end;
       repeat split; do 2 eexists; repeat split; eassumption.
Qed.

(** ** The mint routes *)

Lemma mintTextNFT_mint_returns_minted (w : world) (text : value)
    (privateKey toAddress description : value) (t t' : list call)
    (r : MintResult) :
  mintTextNFT w text true privateKey toAddress description t = (Ok r, t') ->
  exists tokenId hash to metadata, r = Minted tokenId hash to metadata.
Proof.
  unfold mintTextNFT, try_catch, bind, perform, lift, throw, ret.
  destruct (metadataUriOf_build text description (now_iso w)) as [uri Huri].
  rewrite Huri. cbn [negb]. intros H. run_calls; do 4 eexists; reflexivity.
Qed.

Lemma mint_handler_outcome (w : world) (req : request) (t : list call) :
  truthy (text req) = true ->
  missing_or_blank "privateKey" (privateKey req) = Ok false ->
  missing_or_blank "toAddress" (toAddress req) = Ok false ->
  mint_handler w req t =
    match mintTextNFT w (text req) true (privateKey req) (toAddress req) VNull t with
    | (Ok result, t') => (Ok (json 200 (minted_body result)), t')
    | (Throw message, t') =>
        (Ok (json 500 (failure_details "Failed to mint NFT" message)), t')
    end.
Proof.
  intros Ht Hk Ha. unfold mint_handler, try_catch at 1, bind, lift.
  rewrite Ht, Hk, Ha. cbn [negb].
  destruct (mintTextNFT w (text req) true (privateKey req) (toAddress req)
                        VNull t) as [[result|message] t'] eqn:E; [|reflexivity].
  destruct (mintTextNFT_mint_returns_minted _ _ _ _ _ _ _ _ E)
    as [tokenId [hash [to [metadata ->]]]].
  reflexivity.
Qed.

(** X8. Once [text], [privateKey] and [toAddress] are present, POST
    /api/mint/text answers 200 with the minted body exactly when
    [mintTextNFT] returns, and 500 with error "Failed to mint NFT" and the
    thrown message as details when it throws; the branch that answers
    "Unexpected response from minting function" is never taken, and the
    metadata of a 200 is built with the default description. *)
Theorem X8_mint_route_outcome :
  forall (w : world) (req : request) (t : list call),
    truthy (text req) = true ->
    missing_or_blank "privateKey" (privateKey req) = Ok false ->
    missing_or_blank "toAddress" (toAddress req) = Ok false ->
    mint_handler w req t =
      match mintTextNFT w (text req) true (privateKey req) (toAddress req)
                        VNull t with
      | (Ok result, t') => (Ok (json 200 (minted_body result)), t')
      | (Throw message, t') =>
          (Ok (json 500 (failure_details "Failed to mint NFT" message)), t')
      end
    /\ forall result t',
         mintTextNFT w (text req) true (privateKey req) (toAddress req)
                     VNull t = (Ok result, t') ->
         lookup (lit "metadata") (minted_body result)
           = Some (buildMetadata (text req) VNull (now_iso w)).
Proof.
  intros w req t Ht Hk Ha. split.
  - apply mint_handler_outcome; assumption.
  - intros result t' E.
    destruct (mintTextNFT_mint_returns_minted _ _ _ _ _ _ _ _ E)
      as [tokenId [hash [to [metadata ->]]]].
    pose proof (mintTextNFT_metadata _ _ _ _ _ _ _ _ _ E) as Hm. cbn in Hm.
    subst metadata. reflexivity.
Qed.

Lemma X8_witness :
  exists t',
    mint_handler demo_world
      (request_of MintText (VStr (lit "hello")) (VStr (lit "abc"))
                  (VStr demo_address) VUndefined None) []
    = (Ok (json 500
             (failure_details "Failed to mint NFT"
                (lit "Failed to mint NFT: Invalid private key length: 3. Expected 64 or 66 characters."))),
       t').
Proof.
  exists [GetContract].
  exact (proj1 (X8_mint_route_outcome demo_world
                  (request_of MintText (VStr (lit "hello")) (VStr (lit "abc"))
                              (VStr demo_address) VUndefined None) []
                  eq_refl eq_refl eq_refl)).
Defined.

(** X9. On POST /api/mint/text a private key of a wrong length is not a
    400: when the three fields are present and the contract handle is
    obtained, a key whose trimmed length is neither 64 nor 66 is answered
    500, with the length message wrapped in "Failed to mint NFT: " as
    details, after the single call [getContract]. *)
Theorem X9_wrong_key_length_on_mint_route :
  forall (w : world) (req : request) (t : list call),
    truthy (text req) = true ->
    missing_or_blank "privateKey" (privateKey req) = Ok false ->
    missing_or_blank "toAddress" (toAddress req) = Ok false ->
    List.length (trim (string_of (privateKey req))) <> 64%nat ->
    List.length (trim (string_of (privateKey req))) <> 66%nat ->
    getContract w = Ok tt ->
    mint_handler w req t =
      (Ok (json 500
             (failure_details "Failed to mint NFT"
                (lit "Failed to mint NFT: "
                   ++ key_length_message (trim (string_of (privateKey req)))))),
       t ++ [GetContract]).
Proof.
  intros w req t Ht Hk Ha H64 H66 Hc.
  rewrite (mint_handler_outcome w req t Ht Hk Ha).
  unfold mintTextNFT, try_catch, bind, perform, lift, throw, ret.
  destruct (metadataUriOf_build (text req) VNull (now_iso w)) as [uri Huri].
  rewrite Hc, Huri. cbn [negb]. rewrite Hk, Ha.
  rewrite (formatPrivateKey_rejects _ H64 H66). reflexivity.
Qed.

Lemma X9_witness :
  mint_handler demo_world
    (request_of MintText (VStr (lit "hello")) (VStr (lit "0xabc"))
                (VStr demo_address) VUndefined None) []
  = (Ok (json 500
           (failure_details "Failed to mint NFT"
              (lit "Failed to mint NFT: Invalid private key length: 5. Expected 64 or 66 characters."))),
     [] ++ [GetContract]).
Proof.
  refine (X9_wrong_key_length_on_mint_route demo_world
            (request_of MintText (VStr (lit "hello")) (VStr (lit "0xabc"))
                        (VStr demo_address) VUndefined None) []
            eq_refl eq_refl eq_refl _ _ eq_refl); vm_compute; discriminate.
Defined.

Lemma mintTextNFTWithPrivateKey_validation (w : world) (text : value)
    (privateKey toAddress description : value) (t : list call) :
  blank privateKey = true \/ blank toAddress = true ->
  mintTextNFTWithPrivateKey w text privateKey toAddress description t =
    (Throw (lit "Failed to mint NFT: "
              ++ (if blank privateKey
                  then lit "Private key is required for minting"
                  else if not_a_string privateKey then no_trim "privateKey"
                  else lit "Wallet address (toAddress) is required for minting")),
     t).
Proof.
  intros H. unfold mintTextNFTWithPrivateKey, try_catch, bind, lift, throw.
  rewrite (blank_check "privateKey" privateKey).
  destruct (blank privateKey); [reflexivity|].
  destruct (not_a_string privateKey); [reflexivity|].
  destruct H as [H|H]; [discriminate H|].
  rewrite (blank_check "toAddress" toAddress), H. reflexivity.
Qed.

(** X10. [mintTextNFTWithPrivateKey] checks its arguments before any
    call: with a private key or a recipient that is missing or blank after
    trim it throws "Failed to mint NFT: Private key is required for
    minting" (or the message of the recipient; or, for a private key that
    is there and is not a string, the message of the TypeError of its
    [trim]) and the SDK has not been called at all. *)
Theorem X10_with_private_key_validates_first :
  forall (w : world) (text : value)
         (privateKey toAddress description : value) (t : list call),
    blank privateKey = true \/ blank toAddress = true ->
    mintTextNFTWithPrivateKey w text privateKey toAddress description t =
      (Throw (lit "Failed to mint NFT: "
                ++ (if blank privateKey
                    then lit "Private key is required for minting"
                    else if not_a_string privateKey then no_trim "privateKey"
                    else lit "Wallet address (toAddress) is required for minting")),
       t).
Proof.
  intros w text privateKey toAddress description t H.
  apply mintTextNFTWithPrivateKey_validation. exact H.
Qed.

Lemma X10_witness :
  mintTextNFTWithPrivateKey demo_world (VStr (lit "hello")) (VStr (lit "  "))
                            (VStr demo_address) VNull []
    = (Throw (lit "Failed to mint NFT: Private key is required for minting"), []).
Proof.
  exact (X10_with_private_key_validates_first demo_world (VStr (lit "hello"))
           (VStr (lit "  ")) (VStr demo_address) VNull [] (or_introl eq_refl)).
Defined.

(** X11. POST /api/mint/text/with-private-key tests the private key for
    presence only: a key made of white space passes the check of the route,
    is refused by [mintTextNFTWithPrivateKey], and the answer is 500 (not
    400) with details "Failed to mint NFT: Private key is required for
    minting", without any call to the SDK. *)
Theorem X11_blank_key_on_with_private_key_route :
  forall (w : world) (req : request) (t : list call),
    truthy (text req) = true ->
    truthy (privateKey req) = true ->
    missing_or_blank "privateKey" (privateKey req) = Ok true ->
    missing_or_blank "toAddress" (toAddress req) = Ok false ->
    mint_with_key_handler w req t =
      (Ok (json 500
             (failure_details "Failed to mint NFT"
                (lit "Failed to mint NFT: Private key is required for minting"))),
       t).
Proof.
  intros w req t Ht Hf Hk Ha.
  unfold mint_with_key_handler, try_catch at 1, bind at 1, lift at 1.
  rewrite Ht, Hf, Ha. cbn [negb]. unfold bind.
  assert (Hb : blank (privateKey req) = true).
  { rewrite blank_check in Hk. destruct (blank (privateKey req)); [reflexivity|].
    destruct (not_a_string (privateKey req)); discriminate Hk. }
  rewrite mintTextNFTWithPrivateKey_validation by (left; exact Hb).
  rewrite Hb. reflexivity.
Qed.

Lemma X11_witness :
  mint_with_key_handler demo_world
    (request_of MintWithPrivateKey (VStr (lit "hello")) (VStr (lit "   "))
                (VStr demo_address) VUndefined None) []
  = (Ok (json 500
           (failure_details "Failed to mint NFT"
              (lit "Failed to mint NFT: Private key is required for minting"))),
     []).
Proof.
  exact (X11_blank_key_on_with_private_key_route demo_world
           (request_of MintWithPrivateKey (VStr (lit "hello")) (VStr (lit "   "))
                       (VStr demo_address) VUndefined None) []
           eq_refl eq_refl eq_refl eq_refl).
Defined.

(** ** The private-key test routes *)

Lemma not_a_string_receiver (name : string) (x : value) :
  truthy x = true ->
  trim_receiver name x =
    if not_a_string x then Throw (no_trim name) else Ok (string_of x).
Proof.
  unfold not_a_string, no_trim. intros Ht. rewrite Ht. cbn [andb].
  destruct x; try discriminate Ht; reflexivity.
Qed.

(** X12. POST /api/test/private-key is a dry run on both servers: it
    makes at most one call, [privateKeyToAccount] with the formatted key,
    and never touches the contract or a transaction.  It answers 200
    exactly when the key is a string that passes the length check and the
    SDK derives an account from it; 500, without any call, exactly when
    the key is there and is not a string (a number, [true], an array, an
    object: its [trim] throws), with the message of that TypeError as
    details; and 400 in every other case.  The two servers give the same
    status and make the same call. *)
Theorem X12_test_key_route_is_a_dry_run :
  forall (w : world) (req : request) (t : list call),
    exists r r' t',
      index_test_key_handler w req t = (Ok r, t ++ t')
      /\ secured_test_key_handler w req t = (Ok r', t ++ t')
      /\ status r = status r'
      /\ (t' = []
          \/ exists key,
               formatPrivateKey (string_of (privateKey req)) = Ok key
               /\ t' = [PrivateKeyToAccount key])
      /\ (status r = 200%nat \/ status r = 400%nat \/ status r = 500%nat)
      /\ (status r = 200%nat <->
          exists s key account,
            privateKey req = VStr s
            /\ formatPrivateKey s = Ok key
            /\ privateKeyToAccount w key = Ok account)
      /\ (status r = 500%nat <-> not_a_string (privateKey req) = true)
      /\ (status r = 500%nat ->
          t' = []
          /\ payload r = Json (VObj (failure_details "Failed to test private key"
                                       (no_trim "privateKey")))
          /\ payload r' = Json (VObj (failure_details "Failed to validate private key"
                                        (no_trim "privateKey")))).
Proof.
  intros w req t.
  unfold index_test_key_handler, secured_test_key_handler, try_catch, bind,
    perform, lift, ret.
  destruct (truthy (privateKey req)) eqn:Hf; cbn [negb].
  2:{ do 3 eexists. rewrite app_nil_r. repeat (split; [reflexivity|]).
      split; [left; reflexivity|]. split; [right; left; reflexivity|].
      assert (Hn : not_a_string (privateKey req) = false)
        by (unfold not_a_string; rewrite Hf; reflexivity).
      split; [split; [discriminate|]|].
      - intros [s [key [account [E [F _]]]]]. rewrite E in Hf.
        destruct s; [|discriminate Hf]. vm_compute in F. discriminate F.
      - split; [split; [discriminate | rewrite Hn; discriminate] | discriminate]. }
  rewrite (not_a_string_receiver "privateKey" _ Hf).
  destruct (not_a_string (privateKey req)) eqn:Hn.
  { do 3 eexists. rewrite app_nil_r. repeat (split; [reflexivity|]).
    split; [left; reflexivity|]. split; [right; right; reflexivity|].
    split; [split; [discriminate|]|].
    - intros [s [key [account [E _]]]]. rewrite E in Hn.
      unfold not_a_string in Hn. rewrite andb_false_r in Hn. discriminate Hn.
    - split; [split; reflexivity|]. intros _. repeat split. }
  assert (Hs : privateKey req = VStr (string_of (privateKey req))).
  { unfold not_a_string in Hn. rewrite Hf in Hn.
    destruct (privateKey req); try discriminate Hn; reflexivity. }
  destruct (formatPrivateKey (string_of (privateKey req))) as [key|message] eqn:Hk.
  2:{ do 3 eexists. rewrite app_nil_r. repeat (split; [reflexivity|]).
      split; [left; reflexivity|]. split; [right; left; reflexivity|].
      split; [split; [discriminate|]|].
      - intros [s [key [account [E [F _]]]]]. rewrite E in Hk. cbn [string_of] in Hk.
        congruence.
      - split; [split; discriminate | discriminate]. }
  destruct (privateKeyToAccount w key) as [account|message] eqn:Ha.
  - do 3 eexists. repeat (split; [reflexivity|]).
    split; [right; exists key; split; reflexivity|]. split; [left; reflexivity|].
    split; [split; [intros _|reflexivity]|].
    + exists (string_of (privateKey req)), key, account.
      split; [exact Hs|]. split; assumption.
    + split; [split; discriminate | discriminate].
  - do 3 eexists. repeat (split; [reflexivity|]).
    split; [right; exists key; split; reflexivity|]. split; [right; left; reflexivity|].
    split; [split; [discriminate|]|].
    + intros [s [key0 [account [E [F G]]]]]. rewrite E in Hk. cbn [string_of] in Hk.
      assert (key0 = key) by congruence. subst key0. congruence.
    + split; [split; discriminate | discriminate].
Qed.

(** X13. The formatter accepts by length alone.  A key it accepts leaves
    with its [0x] prefix removed when it has one and unchanged otherwise,
    so the result has 64 characters exactly when the prefix goes with the
    length 66 and its absence with the length 64: a key of 64 characters
    that starts with [0x] leaves with 62, a key of 66 characters without
    the prefix leaves with 66. *)
Theorem X13_formatter_accepts_by_length :
  forall (privateKey key : jsstring),
    formatPrivateKey privateKey = Ok key ->
    (List.length (trim privateKey) = 64%nat \/ List.length (trim privateKey) = 66%nat)
    /\ (if startsWith (lit "0x") (trim privateKey)
        then trim privateKey = lit "0x" ++ key
             /\ List.length key = (List.length (trim privateKey) - 2)%nat
        else key = trim privateKey).
Proof.
  intros privateKey key H.
  assert (Hlen : List.length (trim privateKey) = 64%nat
                 \/ List.length (trim privateKey) = 66%nat).
  { destruct (Nat.eq_dec (List.length (trim privateKey)) 64) as [|H64]; [left; assumption|].
    destruct (Nat.eq_dec (List.length (trim privateKey)) 66) as [|H66]; [right; assumption|].
    rewrite (formatPrivateKey_rejects _ H64 H66) in H. discriminate H. }
  split; [exact Hlen|].
  rewrite (formatPrivateKey_accepts _ Hlen) in H.
  destruct (startsWith (lit "0x") (trim privateKey)) eqn:Hp.
  - assert (Hk : key = skipn 2 (trim privateKey)) by congruence. subst key.
    split; [exact (startsWith_split _ _ Hp) | apply length_skipn].
  - congruence.
Qed.

Lemma X13_witness :
  (List.length (trim (lit "0x0123456789abcdef0123456789abcdef0123456789abcdef0123456789abcd"))
     = 64%nat
   \/ List.length (trim (lit "0x0123456789abcdef0123456789abcdef0123456789abcdef0123456789abcd"))
      = 66%nat)
  /\ lit "0x0123456789abcdef0123456789abcdef0123456789abcdef0123456789abcd"
       = lit "0x" ++ lit "0123456789abcdef0123456789abcdef0123456789abcdef0123456789abcd"
     /\ List.length (lit "0123456789abcdef0123456789abcdef0123456789abcdef0123456789abcd")
        = 62%nat.
Proof.
  exact (X13_formatter_accepts_by_length
           (lit "0x0123456789abcdef0123456789abcdef0123456789abcdef0123456789abcd")
           (lit "0123456789abcdef0123456789abcdef0123456789abcdef0123456789abcd")
           eq_refl).
Defined.

(** ** White space around a key *)

Lemma trimStart_spaces (a x : jsstring) :
  forallb is_trim_space a = true -> trimStart (a ++ x) = trimStart x.
Proof.
  induction a as [|c a IH]; intros H; [reflexivity|].
  cbn [forallb] in H. apply andb_true_iff in H. destruct H as [Hc Ha].
  cbn [app trimStart]. rewrite Hc. exact (IH Ha).
Qed.

Lemma trimStart_blank (s : jsstring) :
  trimStart s = [] <-> forallb is_trim_space s = true.
Proof.
  induction s as [|c s IH]; [split; reflexivity|].
  cbn [trimStart forallb]. destruct (is_trim_space c); cbn [andb].
  - exact IH.
  - split; discriminate.
Qed.

Lemma trimStart_app (s b : jsstring) :
  trimStart s <> [] -> trimStart (s ++ b) = trimStart s ++ b.
Proof.
  induction s as [|c s IH]; intros H; [contradiction H; reflexivity|].
  cbn [app trimStart] in *. destruct (is_trim_space c); [exact (IH H) | reflexivity].
Qed.

Lemma trimEnd_spaces (x b : jsstring) :
  forallb is_trim_space b = true -> trimEnd (x ++ b) = trimEnd x.
Proof.
  intros H. unfold trimEnd. rewrite rev_app_distr, trimStart_spaces; [reflexivity|].
  apply forallb_forall. intros c Hc. apply in_rev in Hc.
  exact (proj1 (forallb_forall _ _) H c Hc).
Qed.

Lemma trim_surrounded (a s b : jsstring) :
  forallb is_trim_space a = true -> forallb is_trim_space b = true ->
  trim (a ++ s ++ b) = trim s.
Proof.
  intros Ha Hb. unfold trim. rewrite (trimStart_spaces a _ Ha).
  destruct (trimStart s) as [|c u] eqn:E.
  - apply trimStart_blank in E.
    assert (Hsb : trimStart (s ++ b) = []).
    { apply trimStart_blank. rewrite forallb_app, E, Hb. reflexivity. }
    rewrite Hsb. reflexivity.
  - rewrite trimStart_app by (rewrite E; discriminate).
    rewrite E. apply trimEnd_spaces. exact Hb.
Qed.

(** X14. White space around a private key changes nothing: a key
    surrounded by any white space that [trim] removes is trimmed to the
    same string, passes or fails the blank check like the bare key, and is
    formatted (or rejected, with the same message) like it. *)
Theorem X14_surrounding_space_is_ignored :
  forall (before key after : jsstring),
    forallb is_trim_space before = true ->
    forallb is_trim_space after = true ->
    trim (before ++ key ++ after) = trim key
    /\ missing_or_blank "privateKey" (VStr (before ++ key ++ after))
       = missing_or_blank "privateKey" (VStr key)
    /\ formatPrivateKey (before ++ key ++ after) = formatPrivateKey key.
Proof.
  intros before key after Hb Ha.
  pose proof (trim_surrounded before key after Hb Ha) as E.
  split; [exact E|]. split.
  - rewrite !missing_or_blank_string, E. reflexivity.
  - unfold formatPrivateKey. rewrite E. reflexivity.
Qed.

Lemma X14_witness :
  trim ([0x09; 0x20; 0xA0; 0xFEFF]%N ++ demo_key ++ [0x0D; 0x0A; 0x2028]%N)
    = trim demo_key
  /\ missing_or_blank "privateKey"
       (VStr ([0x09; 0x20; 0xA0; 0xFEFF]%N ++ demo_key ++ [0x0D; 0x0A; 0x2028]%N))
     = missing_or_blank "privateKey" (VStr demo_key)
  /\ formatPrivateKey ([0x09; 0x20; 0xA0; 0xFEFF]%N ++ demo_key ++ [0x0D; 0x0A; 0x2028]%N)
     = formatPrivateKey demo_key.
Proof.
  exact (X14_surrounding_space_is_ignored [0x09; 0x20; 0xA0; 0xFEFF]%N demo_key
           [0x0D; 0x0A; 0x2028]%N eq_refl eq_refl).
Defined.

(** ** More on the enumeration of a wallet *)

(** X15. For a wallet address that is a string, [getWalletNFTs] throws
    only when the contract handle or the balance cannot be read: the message is "Failed to fetch NFTs: "
    followed by the message of that call, and no token is looked up.  A
    wallet whose balance is 0 gives the empty list after those two calls. *)
Theorem X15_wallet_failure_and_empty_wallet :
  forall (w : world) (address : jsstring) (t : list call),
    (forall e, getContract w = Throw e ->
       getWalletNFTs w (VStr address) t
         = (Throw (lit "Failed to fetch NFTs: " ++ e), t ++ [GetContract]))
    /\ (forall e, getContract w = Ok tt -> balanceOf w (VStr address) = Throw e ->
          getWalletNFTs w (VStr address) t
            = (Throw (lit "Failed to fetch NFTs: " ++ e),
               t ++ [GetContract; ReadBalanceOf (VStr address)]))
    /\ (getContract w = Ok tt -> balanceOf w (VStr address) = Ok 0%N ->
          getWalletNFTs w (VStr address) t
            = (Ok [], t ++ [GetContract; ReadBalanceOf (VStr address)]))
    /\ (forall m t', getWalletNFTs w (VStr address) t = (Throw m, t') ->
          exists e, m = lit "Failed to fetch NFTs: " ++ e
                    /\ (getContract w = Throw e
                        \/ balanceOf w (VStr address) = Throw e)).
Proof.
  intros w address t.
  unfold getWalletNFTs, try_catch, bind, perform, lift, throw.
  cbn [template_text to_string].
  repeat apply conj.
  - intros e ->. reflexivity.
  - intros e -> ->. rewrite <- app_assoc. reflexivity.
  - intros -> ->. rewrite <- app_assoc. reflexivity.
  - intros m t'. destruct (getContract w) as [[]|e0].
    + destruct (balanceOf w (VStr address)) as [n|e1].
      * destruct (enumerate_collects w (VStr address) (N.to_nat n) 0 []
                    ((t ++ [GetContract]) ++ [ReadBalanceOf (VStr address)]))
          as [t1 E]. rewrite E. discriminate.
      * intros H. inversion H. exists e1. split; [reflexivity | right; reflexivity].
    + intros H. inversion H. exists e0. split; [reflexivity | left; reflexivity].
Qed.

Lemma X15_witness :
  getWalletNFTs (with_balanceOf demo_world (fun _ => Throw (lit "rate limited")))
                (VStr demo_address) []
    = (Throw (lit "Failed to fetch NFTs: rate limited"),
       [] ++ [GetContract; ReadBalanceOf (VStr demo_address)])
  /\ getWalletNFTs (with_balanceOf demo_world (fun _ => Ok 0%N))
                   (VStr demo_address) []
     = (Ok [], [] ++ [GetContract; ReadBalanceOf (VStr demo_address)]).
Proof.
  split.
  - exact (proj1 (proj2 (X15_wallet_failure_and_empty_wallet
                           (with_balanceOf demo_world
                              (fun _ => Throw (lit "rate limited")))
                           demo_address []))
                 (lit "rate limited") eq_refl eq_refl).
  - exact (proj1 (proj2 (proj2 (X15_wallet_failure_and_empty_wallet
                                  (with_balanceOf demo_world (fun _ => Ok 0%N))
                                  demo_address [])))
                 eq_refl eq_refl).
Defined.

Lemma resolveToken_calls (w : world) (walletAddress : value) (i : N)
    (t : list call) :
  exists r t',
    resolveToken w walletAddress i t = (r, t ++ t')
    /\ (1 <= List.length t' <= 2)%nat /\ forallb token_read t' = true.
Proof.
  unfold resolveToken, bind, perform, lift, ret.
  destruct (tokenOfOwnerByIndex w walletAddress i) as [tokenId|e].
  2:{ do 2 eexists. split; [reflexivity|]. split; [cbn; lia | reflexivity]. }
  rewrite <- app_assoc.
  destruct (tokenURI w tokenId) as [uri|e].
  2:{ do 2 eexists. split; [reflexivity|]. split; [cbn; lia | reflexivity]. }
  destruct (decodeTokenUri uri tokenId) as [metadata|e].
  2:{ do 2 eexists. split; [reflexivity|]. split; [cbn; lia | reflexivity]. }
  destruct (getProp metadata (lit "name")).
  2:{ do 2 eexists. split; [reflexivity|]. split; [cbn; lia | reflexivity]. }
  destruct (getProp metadata (lit "description")).
  2:{ do 2 eexists. split; [reflexivity|]. split; [cbn; lia | reflexivity]. }
  destruct (getProp metadata (lit "attributes"));
    do 2 eexists; (split; [reflexivity|]); (split; [cbn; lia | reflexivity]).
Qed.

Lemma enumerate_calls (w : world) (walletAddress : value) (count : nat) :
  forall (i : N) (nfts : list WalletNft) (t : list call),
  exists t',
    enumerate w walletAddress count i nfts t
      = (Ok (nfts ++ resolved_from w walletAddress count i), t ++ t')
    /\ (count <= List.length t' <= 2 * count)%nat
    /\ forallb token_read t' = true.
Proof.
  induction count as [|count IH]; intros i nfts t.
  - exists []. unfold resolved_from. cbn. rewrite !app_nil_r.
    split; [reflexivity|]. split; [lia | reflexivity].
  - destruct (enumerate_turn w walletAddress i nfts t) as [t0 E].
    destruct (resolveToken_calls w walletAddress i t) as [r [t1 [E1 [Hlen Hread]]]].
    assert (Ht0 : t0 = t ++ t1).
    { revert E. unfold try_catch, bind, ret. rewrite E1.
      destruct r; intros H; inversion H; reflexivity. }
    subst t0.
    destruct (IH (i + 1)%N
                 (nfts ++ match resolved_at w walletAddress i with
                          | Some nft => [nft]
                          | None => []
                          end) (t ++ t1)) as [t2 [E2 [Hlen2 Hread2]]].
    exists (t1 ++ t2). cbn [enumerate]. unfold bind at 1. rewrite E, E2.
    unfold resolved_from. cbn [indices flat_map].
    rewrite !app_assoc. split; [reflexivity|].
    rewrite length_app, forallb_app, Hread, Hread2. split; [lia | reflexivity].
Qed.

Lemma resolved_from_length (w : world) (walletAddress : value) (count : nat) :
  forall i, (List.length (resolved_from w walletAddress count i) <= count)%nat.
Proof.
  unfold resolved_from. induction count as [|count IH]; intros i; [cbn; lia|].
  cbn [indices flat_map]. rewrite length_app. specialize (IH (i + 1)%N).
  destruct (resolved_at w walletAddress i); cbn [List.length]; lia.
Qed.

(** X16. When [getWalletNFTs] returns, it has read the contract handle
    and the balance [n] and then made only token reads
    ([tokenOfOwnerByIndex], [tokenURI]), between [n] and [2n] of them; the
    list it returns never has more than [n] entries. *)
Theorem X16_wallet_reads_are_bounded :
  forall (w : world) (walletAddress : value) (t t' : list call)
         (nfts : list WalletNft),
    getWalletNFTs w walletAddress t = (Ok nfts, t') ->
    exists n reads,
      balanceOf w walletAddress = Ok n
      /\ t' = t ++ GetContract :: ReadBalanceOf walletAddress :: reads
      /\ forallb token_read reads = true
      /\ (N.to_nat n <= List.length reads <= 2 * N.to_nat n)%nat
      /\ (List.length nfts <= N.to_nat n)%nat.
Proof.
  intros w walletAddress t t' nfts.
  unfold getWalletNFTs, try_catch, bind, perform, lift, throw.
  destruct (getContract w) as [[]|e0]; [|discriminate].
  destruct (balanceOf w walletAddress) as [n|e1]; [|discriminate].
  destruct (template_text walletAddress) as [logged|e2]; [|discriminate].
  destruct (enumerate_calls w walletAddress (N.to_nat n) 0 []
              ((t ++ [GetContract]) ++ [ReadBalanceOf walletAddress]))
    as [reads [E [Hlen Hread]]].
  rewrite E. intros H. inversion H. subst.
  exists n, reads. split; [reflexivity|]. split.
  - rewrite <- !app_assoc. reflexivity.
  - split; [exact Hread|]. split; [exact Hlen|]. apply resolved_from_length.
Qed.

Lemma X16_witness :
  exists n reads,
    balanceOf demo_world (VStr demo_address) = Ok n
    /\ snd (getWalletNFTs demo_world (VStr demo_address) [])
       = [] ++ GetContract :: ReadBalanceOf (VStr demo_address) :: reads
    /\ forallb token_read reads = true
    /\ (N.to_nat n <= List.length reads <= 2 * N.to_nat n)%nat
    /\ (List.length (resolved_from demo_world (VStr demo_address) 3 0)
        <= N.to_nat n)%nat.
Proof.
  destruct (getWalletNFTs demo_world (VStr demo_address) []) as [[nfts|m] t'] eqn:E.
  - destruct (X16_wallet_reads_are_bounded demo_world (VStr demo_address) [] t' nfts E)
      as [n [reads [Hb [Ht [Hr [Hl Hn]]]]]].
    exists n, reads. cbn [snd]. repeat split; try assumption; try apply Hl.
    inversion Hb. subst n. apply resolved_from_length.
  - vm_compute in E. discriminate E.
Defined.

(** ** What a token resolves to *)

Lemma parse_value_defined (fuel : nat) (s r : jsstring) (v : value) :
  parse_value fuel s = Some (v, r) -> v <> VUndefined.
Proof.
  destruct fuel as [|fuel]; [discriminate|].
  cbn [parse_value]. unfold object_of. intros H Hv. subst v.
  repeat match type of H with
         | context [match ?x with _ => _ end] => destruct x
         end; discriminate H.
Qed.

Lemma decodeTokenUri_defined (uri : jsstring) (tokenId : N) :
  decodeTokenUri uri tokenId <> Ok VUndefined.
Proof.
  unfold decodeTokenUri, JSON_parse.
  destruct (startsWith data_uri_prefix uri); [|discriminate].
  match goal with
  | |- context [parse_value ?f ?s] => destruct (parse_value f s) as [[v r]|] eqn:E
  end; [|discriminate].
  pose proof (parse_value_defined _ _ _ _ E) as Hv.
  destruct (skip_ws r); [|discriminate]. congruence.
Qed.

(** X17. An index is left out of the result of [getWalletNFTs] exactly
    when its token id cannot be read, or its token URI cannot be read, or
    the URI is a base64 data URI whose content [JSON.parse] rejects, or that
    content is the JSON value [null]. *)
Theorem X17_when_an_index_is_skipped :
  forall (w : world) (walletAddress : value) (i : N),
    resolved_at w walletAddress i = None <->
    (exists e, tokenOfOwnerByIndex w walletAddress i = Throw e)
    \/ (exists tokenId,
          tokenOfOwnerByIndex w walletAddress i = Ok tokenId
          /\ ((exists e, tokenURI w tokenId = Throw e)
              \/ exists uri,
                   tokenURI w tokenId = Ok uri
                   /\ ((exists e, decodeTokenUri uri tokenId = Throw e)
                       \/ decodeTokenUri uri tokenId = Ok VNull))).
Proof.
  intros w walletAddress i.
  unfold resolved_at, resolveToken, bind, perform, lift, ret.
  destruct (tokenOfOwnerByIndex w walletAddress i) as [tokenId|e0] eqn:Hid.
  2:{ split; [intros _; left; eexists; reflexivity | reflexivity]. }
  destruct (tokenURI w tokenId) as [uri|e1] eqn:Huri.
  2:{ split; [|reflexivity]. intros _. right. exists tokenId.
      split; [reflexivity|]. left. eexists. exact Huri. }
  pose proof (decodeTokenUri_defined uri tokenId) as Hdef.
  destruct (decodeTokenUri uri tokenId) as [metadata|e2] eqn:Hdec.
  2:{ split; [|reflexivity]. intros _. right. exists tokenId.
      split; [reflexivity|]. right. exists uri. split; [exact Huri|].
      left. eexists. exact Hdec. }
  assert (Hback :
            metadata <> VNull ->
            ~ ((exists e : jsstring, Ok tokenId = Throw e)
               \/ (exists tokenId0,
                     Ok tokenId = Ok tokenId0
                     /\ ((exists e, tokenURI w tokenId0 = Throw e)
                         \/ exists uri0,
                              tokenURI w tokenId0 = Ok uri0
                              /\ ((exists e, decodeTokenUri uri0 tokenId0 = Throw e)
                                  \/ decodeTokenUri uri0 tokenId0 = Ok VNull))))).
  { intros Hnn [[e H]|[id [Hid' [[e H]|[u [Hu [[e H]|H]]]]]]]; try discriminate;
      inversion Hid'; subst id; congruence. }
  destruct metadata; cbn [getProp fst]; try congruence;
    try (split; [discriminate | intros H; exfalso; apply Hback; [discriminate | exact H]]).
  split; [|reflexivity]. intros _. right. exists tokenId.
  split; [reflexivity|]. right. exists uri. split; [exact Huri|].
  right. exact Hdec.
Qed.

Lemma token_label_not_empty (tokenId : N) :
  truthy (VStr (token_label tokenId)) = true.
Proof. reflexivity. Qed.

(** What an index that resolves resolves to: the token id read, and the
    three properties of the metadata decoded from its URI, each with its
    fallback. *)
Lemma resolved_at_token (w : world) (walletAddress : value) (i : N) (nft : WalletNft) :
  resolved_at w walletAddress i = Some nft ->
  exists tokenId uri metadata,
    tokenOfOwnerByIndex w walletAddress i = Ok tokenId
    /\ tokenURI w tokenId = Ok uri
    /\ decodeTokenUri uri tokenId = Ok metadata
    /\ metadata <> VNull
    /\ nft = mkWalletNft (decimal tokenId)
               (or_else (property metadata "name") (VStr (token_label tokenId)))
               (or_else (property metadata "description") (VStr []))
               (or_else (property metadata "attributes") (VArr [])).
Proof.
  unfold resolved_at, resolveToken, bind, perform, lift, ret.
  destruct (tokenOfOwnerByIndex w walletAddress i) as [tokenId|e0] eqn:Hid;
    [|discriminate].
  destruct (tokenURI w tokenId) as [uri|e1] eqn:Huri; [|discriminate].
  pose proof (decodeTokenUri_defined uri tokenId) as Hdef.
  destruct (decodeTokenUri uri tokenId) as [metadata|e2] eqn:Hdec; [|discriminate].
  intros H. exists tokenId, uri, metadata.
  split; [reflexivity|]. split; [exact Huri|]. split; [exact Hdec|].
  destruct metadata; cbn [getProp fst] in H; try discriminate H;
    try (contradiction Hdef; reflexivity);
    (split; [discriminate|]); inversion H; reflexivity.
Qed.

(** X18. Every token [getWalletNFTs] lists carries the decimal text of
    its token id and the properties of the metadata decoded from its URI
    (which is not [null]): its name is the [name] of the metadata when
    that is truthy and "Token #<id>" otherwise, its description is the
    [description] of the metadata when that is truthy and the empty string
    otherwise, its attributes are the [attributes] of the metadata when
    that is truthy and the empty array otherwise.  So the name is always
    truthy, and none of the three is ever [undefined]. *)
Theorem X18_listed_token_is_complete :
  forall (w : world) (walletAddress : value) (i : N) (nft : WalletNft),
    resolved_at w walletAddress i = Some nft ->
    exists tokenId uri metadata,
      tokenOfOwnerByIndex w walletAddress i = Ok tokenId
      /\ tokenURI w tokenId = Ok uri
      /\ decodeTokenUri uri tokenId = Ok metadata
      /\ metadata <> VNull
      /\ nft_tokenId nft = decimal tokenId
      /\ nft_name nft =
           (if truthy (property metadata "name") then property metadata "name"
            else VStr (lit "Token #" ++ decimal tokenId))
      /\ nft_description nft =
           (if truthy (property metadata "description")
            then property metadata "description" else VStr [])
      /\ nft_attributes nft =
           (if truthy (property metadata "attributes")
            then property metadata "attributes" else VArr [])
      /\ truthy (nft_name nft) = true
      /\ nft_name nft <> VUndefined
      /\ nft_description nft <> VUndefined
      /\ nft_attributes nft <> VUndefined.
Proof.
  intros w walletAddress i nft H.
  destruct (resolved_at_token w walletAddress i nft H)
    as [tokenId [uri [metadata [Hid [Huri [Hdec [Hn ->]]]]]]].
  exists tokenId, uri, metadata.
  cbn [nft_tokenId nft_name nft_description nft_attributes].
  unfold or_else, token_label.
  repeat (split; [first [assumption | reflexivity]|]).
  destruct (truthy (property metadata "name")) eqn:En;
    destruct (truthy (property metadata "description")) eqn:Ed;
    destruct (truthy (property metadata "attributes")) eqn:Ea;
    repeat split; try assumption; try reflexivity; try discriminate;
    intros E; rewrite E in *; discriminate.
Qed.

Lemma X18_witness :
  exists tokenId uri metadata,
    tokenOfOwnerByIndex demo_world (VStr demo_address) 2 = Ok tokenId
    /\ tokenURI demo_world tokenId = Ok uri
    /\ decodeTokenUri uri tokenId = Ok metadata
    /\ lit "12" = decimal tokenId
    /\ VStr (lit "CRUXZ NFT") =
         (if truthy (property metadata "name") then property metadata "name"
          else VStr (lit "Token #" ++ decimal tokenId))
    /\ VStr (lit "a note") =
         (if truthy (property metadata "description")
          then property metadata "description" else VStr []).
Proof.
  destruct (X18_listed_token_is_complete demo_world (VStr demo_address) 2
              (mkWalletNft (lit "12") (VStr (lit "CRUXZ NFT")) (VStr (lit "a note"))
                 (VArr [ VObj [ (lit "trait_type", VStr (lit "Text"));
                                (lit "value", VStr (lit "hello")) ];
                         VObj [ (lit "trait_type", VStr (lit "Created At"));
                                (lit "value", VStr (lit "2024-12-31T23:59:59.000Z")) ] ]))
              eq_refl)
    as [tokenId [uri [metadata [H1 [H2 [H3 [_ [H4 [H5 [H6 _]]]]]]]]]].
  exists tokenId, uri, metadata. repeat split; assumption.
Defined.

(** X19. A token whose URI is not a base64 JSON data URI (an [ipfs://]
    or [https://] link, say) is listed with the placeholder name
    "Token #<id>", the description "No metadata available" and no
    attributes; the link itself is never fetched. *)
Theorem X19_placeholder_for_other_uris :
  forall (w : world) (walletAddress : value) (i tokenId : N) (uri : jsstring)
         (t : list call),
    tokenOfOwnerByIndex w walletAddress i = Ok tokenId ->
    tokenURI w tokenId = Ok uri ->
    startsWith data_uri_prefix uri = false ->
    resolveToken w walletAddress i t =
      (Ok (mkWalletNft (decimal tokenId) (VStr (lit "Token #" ++ decimal tokenId))
                       (VStr (lit "No metadata available")) (VArr [])),
       t ++ [ReadTokenOfOwnerByIndex walletAddress i; ReadTokenURI tokenId]).
Proof.
  intros w walletAddress i tokenId uri t Hid Huri Hp.
  unfold resolveToken, bind, perform, lift, ret, decodeTokenUri.
  rewrite Hid, Huri, Hp. rewrite <- app_assoc. reflexivity.
Qed.

Lemma X19_witness :
  resolveToken demo_world (VStr demo_address) 0 []
    = (Ok (mkWalletNft (lit "10") (VStr (lit "Token #10"))
                       (VStr (lit "No metadata available")) (VArr [])),
       [] ++ [ReadTokenOfOwnerByIndex (VStr demo_address) 0; ReadTokenURI 10]).
Proof.
  exact (X19_placeholder_for_other_uris demo_world (VStr demo_address) 0 10
           (lit "ipfs://token") [] eq_refl eq_refl eq_refl).
Defined.

(** ** The wallet routes *)

Lemma valid_address_truthy (address : jsstring) :
  ethAddressRegex_test address = true -> truthy (VStr address) = true.
Proof. destruct address; [discriminate | reflexivity]. Qed.

(** X20. POST /api/nfts checks the wallet address before any call: a
    missing or empty [walletAddress] (or any other falsy value) is answered
    400 "Missing required field: walletAddress", one whose text is not
    [0x] followed by 40 hexadecimal digits is answered 400 "Invalid wallet
    address format", and in both cases the SDK has not been called and no
    rate-limit header is set. *)
Theorem X20_wallet_address_checked_first :
  forall (w : world) (req : request) (t : list call),
    truthy (walletAddress req) = false
    \/ (exists s, to_string (walletAddress req) = Some s
                  /\ ethAddressRegex_test s = false) ->
    secured_nfts_post_handler w req t =
      (Ok (json 400
             (failure (if truthy (walletAddress req)
                       then "Invalid wallet address format"
                       else "Missing required field: walletAddress"))),
       t).
Proof.
  intros w req t H.
  unfold secured_nfts_post_handler, nfts_query, try_catch, bind, lift, template_text.
  destruct (truthy (walletAddress req)); cbn [negb]; [|reflexivity].
  destruct H as [H|[s [Hs Hr]]]; [discriminate H|]. rewrite Hs, Hr. reflexivity.
Qed.

Lemma X20_witness :
  secured_nfts_post_handler demo_world
    (request_of NftsPost VUndefined VUndefined VUndefined
                (VStr (lit "0x1234567890abcdef1234567890abcdef1234567")) None) []
  = (Ok (json 400 (failure "Invalid wallet address format")), []).
Proof.
  exact (X20_wallet_address_checked_first demo_world
           (request_of NftsPost VUndefined VUndefined VUndefined
                       (VStr (lit "0x1234567890abcdef1234567890abcdef1234567")) None)
           []
           (or_intror
              (ex_intro _ (lit "0x1234567890abcdef1234567890abcdef1234567")
                 (conj eq_refl eq_refl)))).
Defined.

(** X21. For a well-formed wallet address whose contract handle and
    balance are read, POST /api/nfts answers 200 with the two rate-limit
    headers and a body whose [wallet] is the masked address, whose [nfts]
    are the tokens [getWalletNFTs] returned and whose [count] is the
    decimal number of those tokens. *)
Theorem X21_wallet_route_success :
  forall (w : world) (req : request) (t : list call) (address : jsstring) (n : N),
    walletAddress req = VStr address ->
    ethAddressRegex_test address = true ->
    getContract w = Ok tt ->
    balanceOf w (VStr address) = Ok n ->
    exists t',
      secured_nfts_post_handler w req t =
        (Ok (mkResponse 200 rate_limit_headers
               (Json (VObj
                  [ (lit "success", VBool true);
                    (lit "wallet", VStr (mask address));
                    (lit "count",
                      VNum (decimal (N.of_nat
                              (List.length
                                 (resolved_from w (VStr address) (N.to_nat n) 0)))));
                    (lit "nfts",
                      VArr (map nft_value
                              (resolved_from w (VStr address) (N.to_nat n) 0))) ]))),
         t').
Proof.
  intros w req t address n Hreq Hvalid Hc Hb.
  unfold secured_nfts_post_handler, nfts_query, try_catch at 1, bind, lift.
  rewrite Hreq, (valid_address_truthy address Hvalid).
  cbn [negb template_text to_string masked]. rewrite Hvalid. cbn [negb].
  destruct (getWalletNFTs_returns w address n t Hc Hb) as [t' E]. rewrite E.
  exists t'. reflexivity.
Qed.

Lemma X21_witness :
  exists t',
    secured_nfts_post_handler demo_world
      (request_of NftsPost VUndefined VUndefined VUndefined (VStr demo_address) None) []
    = (Ok (mkResponse 200 rate_limit_headers
             (Json (VObj
                [ (lit "success", VBool true);
                  (lit "wallet", VStr (lit "0x1234...5678"));
                  (lit "count", VNum (lit "2"));
                  (lit "nfts",
                    VArr (map nft_value
                            (resolved_from demo_world (VStr demo_address) 3 0))) ]))),
       t').
Proof.
  exact (X21_wallet_route_success demo_world
           (request_of NftsPost VUndefined VUndefined VUndefined (VStr demo_address)
                       None) []
           demo_address 3 eq_refl eq_refl eq_refl eq_refl).
Defined.

(** X22. Every answer of the deprecated GET /api/nfts/:walletAddress of
    the guarded server carries the [X-Deprecated-API] header, whether it is
    the 200, a 400 for the address or the 500 of a failed lookup; the route
    always answers. *)
Theorem X22_deprecation_header_on_every_answer :
  forall (w : world) (req : request) (t : list call),
    exists r t',
      secured_nfts_get_handler w req t = (Ok r, t')
      /\ In (lit "X-Deprecated-API", deprecation_notice) (headers r)
      /\ (status r = 200%nat \/ status r = 400%nat \/ status r = 500%nat).
Proof.
  intros w req t.
  unfold secured_nfts_get_handler, nfts_query, try_catch, bind, lift, ret.
  destruct (param_walletAddress req) as [[|c address]|];
    cbn [param_value truthy negb template_text to_string masked].
  1,3: do 2 eexists; (split; [reflexivity|]);
       (split; [left; reflexivity | right; left; reflexivity]).
  destruct (ethAddressRegex_test (c :: address)); cbn [negb].
  2:{ do 2 eexists. split; [reflexivity|].
      split; [left; reflexivity | right; left; reflexivity]. }
  destruct (getWalletNFTs w (VStr (c :: address)) t) as [[nfts|m] t'].
  - do 2 eexists. split; [reflexivity|]. split; [left; reflexivity | left; reflexivity].
  - do 2 eexists. split; [reflexivity|].
    split; [left; reflexivity | right; right; reflexivity].
Qed.

(** X23. The GET /api/nfts/:walletAddress of src/index.js does not check
    the format of the address and does not mask it: for any non-empty path
    parameter it queries the contract, and its 200 carries the parameter in
    full as [wallet]. *)
Theorem X23_index_route_neither_checks_nor_masks :
  forall (w : world) (req : request) (t : list call) (address : jsstring) (n : N),
    param_walletAddress req = Some address ->
    address <> [] ->
    getContract w = Ok tt ->
    balanceOf w (VStr address) = Ok n ->
    exists t',
      index_nfts_handler w req t =
        (Ok (json 200
               [ (lit "success", VBool true);
                 (lit "wallet", VStr address);
                 (lit "count",
                   VNum (decimal (N.of_nat
                           (List.length
                              (resolved_from w (VStr address) (N.to_nat n) 0)))));
                 (lit "nfts",
                   VArr (map nft_value
                           (resolved_from w (VStr address) (N.to_nat n) 0))) ]),
         t').
Proof.
  intros w req t address n Hreq Hne Hc Hb.
  unfold index_nfts_handler, try_catch at 1. rewrite Hreq.
  assert (Hf : falsy (Some address) = false).
  { destruct address; [contradiction Hne; reflexivity | reflexivity]. }
  rewrite Hf. cbn [present]. unfold bind.
  destruct (getWalletNFTs_returns w address n t Hc Hb) as [t' E]. rewrite E.
  exists t'. reflexivity.
Qed.

Lemma X23_witness :
  exists t',
    index_nfts_handler demo_world
      (request_of NftsGet VUndefined VUndefined VUndefined VUndefined
                  (Some (lit "not-an-address"))) []
    = (Ok (json 200
             [ (lit "success", VBool true);
               (lit "wallet", VStr (lit "not-an-address"));
               (lit "count", VNum (lit "2"));
               (lit "nfts",
                 VArr (map nft_value
                         (resolved_from demo_world (VStr (lit "not-an-address")) 3 0))) ]),
       t').
Proof.
  refine (X23_index_route_neither_checks_nor_masks demo_world
            (request_of NftsGet VUndefined VUndefined VUndefined VUndefined
                        (Some (lit "not-an-address"))) []
            (lit "not-an-address") 3 eq_refl _ eq_refl eq_refl).
  discriminate.
Defined.

Lemma valid_address_length (address : jsstring) :
  ethAddressRegex_test address = true -> List.length address = 42%nat.
Proof.
  unfold ethAddressRegex_test. intros H.
  apply andb_true_iff in H. destruct H as [H _].
  apply andb_true_iff in H. destruct H as [_ H]. apply Nat.eqb_eq. exact H.
Qed.

(** X24. For an address that passed the format check, the masked wallet
    has 13 characters: the first 6 of the address, three dots, and its
    last 4; two addresses that agree on those ten characters are masked
    alike, so the 32 characters in between do not show. *)
Theorem X24_mask_shows_ten_characters :
  forall (address : jsstring),
    ethAddressRegex_test address = true ->
    mask address = firstn 6 address ++ lit "..." ++ skipn 38 address
    /\ List.length (mask address) = 13%nat
    /\ forall other,
         ethAddressRegex_test other = true ->
         firstn 6 other = firstn 6 address ->
         skipn 38 other = skipn 38 address ->
         mask other = mask address.
Proof.
  intros address H. pose proof (valid_address_length address H) as Hlen.
  assert (E : forall a, List.length a = 42%nat ->
                        mask a = firstn 6 a ++ lit "..." ++ skipn 38 a).
  { intros a Ha. unfold mask, substring_to, substring_from. rewrite Ha. reflexivity. }
  split; [exact (E address Hlen)|]. split.
  - rewrite (E address Hlen), !length_app, length_firstn, length_skipn, Hlen.
    reflexivity.
  - intros other Ho H6 H4.
    rewrite (E address Hlen), (E other (valid_address_length other Ho)), H6, H4.
    reflexivity.
Qed.

Lemma X24_witness :
  mask demo_address = firstn 6 demo_address ++ lit "..." ++ skipn 38 demo_address
  /\ List.length (mask demo_address) = 13%nat
  /\ mask (lit "0x1234ffffffffffffffffffffffffffffffff5678") = mask demo_address.
Proof.
  destruct (X24_mask_shows_ten_characters demo_address eq_refl) as [H1 [H2 H3]].
  split; [exact H1|]. split; [exact H2|].
  exact (H3 (lit "0x1234ffffffffffffffffffffffffffffffff5678") eq_refl eq_refl eq_refl).
Defined.

(** ** The contract route *)

(** X25. GET /api/contract always answers, with 200 or 500 and never a
    4xx: 200 exactly when the contract handle, the name, the symbol and the
    total supply are read (the owner may fail), 500 with error "Failed to
    fetch contract info" otherwise. *)
Theorem X25_contract_route_status :
  forall (w : world) (t : list call),
    exists r t',
      contract_handler w t = (Ok r, t')
      /\ (status r = 200%nat \/ status r = 500%nat)
      /\ (status r = 200%nat <->
          getContract w = Ok tt
          /\ (exists name, readName w = Ok name)
          /\ (exists symbol, readSymbol w = Ok symbol)
          /\ (exists supply, readTotalSupply w = Ok supply))
      /\ (status r = 500%nat ->
          exists details,
            payload r = Json (VObj (failure_details "Failed to fetch contract info"
                                      details))).
Proof.
  intros w t. unfold contract_handler, try_catch at 1, bind at 1, ret.
  destruct (getContractInfo w t) as [[info|m] t'] eqn:E.
  - do 2 eexists. split; [reflexivity|]. split; [left; reflexivity|]. split.
    + split; [intros _|reflexivity].
      revert E. unfold getContractInfo, try_catch, bind, perform, ret, throw.
      destruct (getContract w) as [[]|]; [|discriminate].
      destruct (readName w); [|discriminate].
      destruct (readSymbol w); [|discriminate].
      destruct (readOwner w); (destruct (readTotalSupply w); [|discriminate]);
        intros _; repeat split; eexists; reflexivity.
    + discriminate.
  - do 2 eexists. split; [reflexivity|]. split; [right; reflexivity|]. split.
    + split; [discriminate|].
      intros [Hc [[name Hn] [[symbol Hs] [supply Hsup]]]].
      revert E. unfold getContractInfo, try_catch, bind, perform, ret, throw.
      rewrite Hc, Hn, Hs. destruct (readOwner w); rewrite Hsup; discriminate.
    + intros _. eexists. reflexivity.
Qed.

(** ** The shape of the token URI *)

Lemma b64_char_ascii (n : N) : (b64_char n <? 128)%N = true.
Proof.
  unfold b64_char.
  destruct (n <? 26)%N eqn:E1; [lia|].
  destruct (n <? 52)%N eqn:E2; [lia|].
  destruct (n <? 62)%N eqn:E3; [lia|].
  destruct (n =? 62)%N; reflexivity.
Qed.

Lemma base64_encode_shape (bytes : buffer) :
  ascii_only (base64_encode bytes) = true
  /\ exists k, List.length (base64_encode bytes) = (4 * k)%nat.
Proof.
  unfold ascii_only.
  induction bytes as [|a|a b|a b c r [IHa [k IHk]]] using list_ind3.
  - split; [reflexivity | exists 0%nat; reflexivity].
  - cbn [base64_encode forallb]. rewrite !b64_char_ascii.
    split; [reflexivity | exists 1%nat; reflexivity].
  - cbn [base64_encode forallb]. rewrite !b64_char_ascii.
    split; [reflexivity | exists 1%nat; reflexivity].
  - cbn [base64_encode forallb]. rewrite !b64_char_ascii, IHa.
    split; [reflexivity|]. exists (S k). cbn [List.length]. lia.
Qed.

(** X26. Whatever the text, the description and the timestamp (any
    characters, of any script; any JSON value for the text), the token URI
    [mintTextNFT] builds is plain ASCII: the prefix
    "data:application/json;base64," followed by a number of base64
    characters that is a multiple of four. *)
Theorem X26_token_uri_is_ascii :
  forall (text description : value) (now : jsstring),
    exists uri k,
      metadataUriOf (buildMetadata text description now) = Ok uri
      /\ startsWith data_uri_prefix uri = true
      /\ ascii_only uri = true
      /\ List.length uri = (29 + 4 * k)%nat.
Proof.
  intros text description now. unfold metadataUriOf.
  destruct (JSON_stringify (buildMetadata text description now)) as [json|] eqn:E;
    [|discriminate E].
  destruct (base64_encode_shape (utf8_encode json)) as [Ha [k Hk]].
  exists (data_uri_prefix ++ base64_encode (utf8_encode json)), k.
  split; [reflexivity|]. split; [apply startsWith_app|]. split.
  - unfold ascii_only in *. rewrite forallb_app, Ha. reflexivity.
  - rewrite length_app, Hk. reflexivity.
Qed.

(** ** The two mint routes side by side *)

(** X27. With [text] present and [privateKey] and [toAddress] not
    blank, POST /api/mint/text/with-private-key makes the calls of
    [mintTextNFT] and answers its result like POST /api/mint/text does:
    200 with the same minted body when it returns; when it throws, 500 whose
    details carry the prefix "Failed to mint NFT: " once more than the
    message [mintTextNFT] threw. *)
Theorem X27_with_private_key_route_outcome :
  forall (w : world) (req : request) (t : list call),
    truthy (text req) = true ->
    missing_or_blank "privateKey" (privateKey req) = Ok false ->
    missing_or_blank "toAddress" (toAddress req) = Ok false ->
    mint_with_key_handler w req t =
      match mintTextNFT w (text req) true (privateKey req) (toAddress req)
                        VNull t with
      | (Ok result, t') => (Ok (json 200 (minted_body result)), t')
      | (Throw message, t') =>
          (Ok (json 500 (failure_details "Failed to mint NFT"
                           (lit "Failed to mint NFT: " ++ message))), t')
      end.
Proof.
  intros w req t Ht Hk Ha.
  unfold mint_with_key_handler, try_catch at 1, bind at 1, lift at 1.
  rewrite Ht, Ha.
  destruct (missing_or_blank_passed _ _ Hk) as [s [_ [_ Hf]]].
  rewrite Hf. cbn [negb]. unfold bind.
  rewrite (mintTextNFTWithPrivateKey_delegates w (text req)
             (privateKey req) (toAddress req) VNull t Hk Ha).
  destruct (mintTextNFT w (text req) true (privateKey req) (toAddress req)
                        VNull t) as [[result|message] t']; reflexivity.
Qed.

Lemma X27_witness :
  mint_with_key_handler demo_world
    (request_of MintWithPrivateKey (VStr (lit "hello")) (VStr (lit "abc"))
                (VStr demo_address) VUndefined None) []
  = (Ok (json 500
           (failure_details "Failed to mint NFT"
              (lit "Failed to mint NFT: Failed to mint NFT: Invalid private key length: 3. Expected 64 or 66 characters."))),
     [GetContract]).
Proof.
  exact (X27_with_private_key_route_outcome demo_world
           (request_of MintWithPrivateKey (VStr (lit "hello")) (VStr (lit "abc"))
                       (VStr demo_address) VUndefined None) []
           eq_refl eq_refl eq_refl).
Defined.

(** ** Fields that are not strings *)



(** X29. POST /api/nfts tests the text of [walletAddress], and the text
    of an array that holds one string is that string: a body whose
    [walletAddress] is an array holding one well-formed address passes both
    checks, and the contract is queried with the array.  The answer is 500
    in any case: with the message of [getWalletNFTs] when that throws, and
    otherwise --- an array has no [substring] --- with the message of that
    TypeError, on a response that already carries the two rate-limit
    headers. *)
Theorem X29_wallet_address_in_an_array :
  forall (w : world) (req : request) (t : list call) (address : jsstring),
    walletAddress req = VArr [VStr address] ->
    ethAddressRegex_test address = true ->
    secured_nfts_post_handler w req t =
      match getWalletNFTs w (VArr [VStr address]) t with
      | (Ok nfts, t') =>
          (Ok (mkResponse 500 rate_limit_headers
                 (Json (VObj (failure_details "Failed to fetch NFTs"
                                (lit "walletAddress.substring is not a function"))))),
           t')
      | (Throw message, t') =>
          (Ok (json 500 (failure_details "Failed to fetch NFTs" message)), t')
      end.
Proof.
  intros w req t address Hreq Hvalid.
  unfold secured_nfts_post_handler, nfts_query, try_catch at 1, bind, lift.
  rewrite Hreq. cbn [truthy negb template_text to_string join_comma masked].
  rewrite Hvalid. cbn [negb].
  destruct (getWalletNFTs w (VArr [VStr address]) t) as [[nfts|message] t'];
    reflexivity.
Qed.

Lemma X29_witness :
  exists t',
    secured_nfts_post_handler demo_world
      (request_of NftsPost VUndefined VUndefined VUndefined
                  (VArr [VStr demo_address]) None) []
    = (Ok (mkResponse 500 rate_limit_headers
             (Json (VObj (failure_details "Failed to fetch NFTs"
                            (lit "walletAddress.substring is not a function"))))),
       t').
Proof.
  pose proof (X29_wallet_address_in_an_array demo_world
                (request_of NftsPost VUndefined VUndefined VUndefined
                            (VArr [VStr demo_address]) None) []
                demo_address eq_refl eq_refl) as H.
  destruct (getWalletNFTs demo_world (VArr [VStr demo_address]) [])
    as [[nfts|message] t'] eqn:E.
  - exists t'. exact H.
  - vm_compute in E. discriminate E.
Defined.
